(** * HoMLGOP: progressive growth of a homogeneous multilayer GOP network

    A shallow embedding of [GOP/models/homlgop.py] (class [HoMLGOP]):
    the nested layer/block loop of [progressive_learn], its convergence
    roll-backs, the pickled [train_states] dictionary and [fit].

    The Python code mutates one dictionary, [train_states], calls helpers of
    [misc] and [gop_utils] and writes a pickle after every block.  Here the
    dictionary is a record, the helpers are the fields of a class of
    collaborators, and the statements of the source are computations of a
    state-and-exception monad, written in the order of the source. *)

From Stdlib Require Import Ascii DecimalString DecimalNat.
From stdpp Require Import base gmap strings list.

Local Open Scope string_scope.
Local Open Scope nat_scope.
Local Open Scope list_scope.
Local Open Scope stdpp_scope.

(** ** Opaque data

    Weights, operator-set indices, performance measures and training logs are
    produced and consumed by the collaborators only; the growth code stores
    and moves them. *)

Class Domains := {
  Weight : Type;      (* a list of numpy arrays, the weights of one layer *)
  OpIdx : Type;       (* index of an operator set in the catalogs *)
  Score : Type;       (* a python float: measures and thresholds *)
  Log : Type;         (* the training history of one block *)
  Gen : Type;         (* a data source: the pair (func, data) *)
  Env : Type;         (* the process-wide CUDA setting *)
  Ops : Type;         (* resolved operator objects *)
  Perf : Type;        (* the performance returned by finetune *)
  FLog : Type         (* the history returned by finetune *)
}.

(** Python's [str] on a non-negative integer. *)
Definition str (n : nat) : string := NilEmpty.string_of_uint (Nat.to_uint n).

(** [range(a, b)] *)
Definition range (a b : nat) : list nat := seq a (b - a).

(** An entry of [train_states['topology']].  The code itself appends lists of
    [('gop', block_size)] tuples and the tuple [('dense', output_dim)]; the
    initial list comes from [misc.initialize_states] and may hold other
    values, such as a plain number. *)
Inductive entry :=
  | Blocks (l : list (string * Z))
  | Tuple (kind : string) (width : Z)
  | Scalar (n : Z).

Global Instance entry_eq_dec : EqDecision entry.
Proof. solve_decision. Defined.

Record Computation := mkComputation { device : string; setting : list Z }.

Inductive exn :=
  | IndexError
  | KeyError (key : string)
  | AttributeError
  | TypeError
  | RuntimeError (msg : string)
  | IOError
  | Failure (what : string).

(** ** The monad: a state, and an exception that keeps the state *)

Inductive outcome (Σ A : Type) :=
  | Normal (a : A) (σ : Σ)
  | Raised (e : exn) (σ : Σ).
Arguments Normal {Σ A} a σ.
Arguments Raised {Σ A} e σ.

Definition M (Σ A : Type) : Type := Σ → outcome Σ A.

Global Instance M_ret {Σ} : MRet (M Σ) := λ A a σ, Normal a σ.
Global Instance M_bind {Σ} : MBind (M Σ) := λ A B k m σ,
  match m σ with
  | Normal a σ' => k a σ'
  | Raised e σ' => Raised e σ'
  end.
Definition raise {Σ A} (e : exn) : M Σ A := λ σ, Raised e σ.
Definition get {Σ} : M Σ Σ := λ σ, Normal σ σ.
Definition modify {Σ} (f : Σ → Σ) : M Σ unit := λ σ, Normal () (f σ).

Section Model.
Context `{D : Domains}.

(** The keys of [params] that [fit] and [progressive_learn] read; the other
    keys are read by the collaborators only. *)
Record Params := mkParams {
  max_layer : nat;
  max_block : nat;
  block_size : Z;
  input_dim : Z;
  output_dim : Z;
  direction : string;
  block_threshold : Score;
  layer_threshold : Score;
  convergence_measure : string;
  cluster : bool;
  search_computation : Computation;
  finetune_computation : Computation;
  tmp_dir : string;
  model_name : string
}.

Definition set_convergence_measure (v : string) (p : Params) : Params :=
  {| max_layer := max_layer p; max_block := max_block p;
     block_size := block_size p; input_dim := input_dim p;
     output_dim := output_dim p; direction := direction p;
     block_threshold := block_threshold p;
     layer_threshold := layer_threshold p;
     convergence_measure := v; cluster := cluster p;
     search_computation := search_computation p;
     finetune_computation := finetune_computation p;
     tmp_dir := tmp_dir p; model_name := model_name p |}.

(** The data sources given to [fit]: [val_func] and [test_func] default to
    [None]. *)
Record Data := mkData {
  train_gen : Gen;
  val_gen : option Gen;
  test_gen : option Gen
}.

(** The dictionary [train_states].  The two snapshots are absent ([None])
    until the code first writes them. *)
Record TrainState := mkTrainState {
  topology : list entry;
  weights : gmap string Weight;
  op_set_indices : gmap string OpIdx;
  history : list (list Log);
  measure : list (list Score);
  layer_iter : nat;
  block_iter : nat;
  is_finished : bool;
  block_output_weight : option Weight;
  layer_output_weight : option Weight;
  use_bias : bool;
  output_activation : option string
}.

Definition set_topology (v : list entry) (s : TrainState) : TrainState :=
  mkTrainState v (weights s) (op_set_indices s) (history s) (measure s)
    (layer_iter s) (block_iter s) (is_finished s) (block_output_weight s)
    (layer_output_weight s) (use_bias s) (output_activation s).
Definition set_weights (v : gmap string Weight) (s : TrainState) : TrainState :=
  mkTrainState (topology s) v (op_set_indices s) (history s) (measure s)
    (layer_iter s) (block_iter s) (is_finished s) (block_output_weight s)
    (layer_output_weight s) (use_bias s) (output_activation s).
Definition set_op_set_indices (v : gmap string OpIdx) (s : TrainState) : TrainState :=
  mkTrainState (topology s) (weights s) v (history s) (measure s)
    (layer_iter s) (block_iter s) (is_finished s) (block_output_weight s)
    (layer_output_weight s) (use_bias s) (output_activation s).
Definition set_history (v : list (list Log)) (s : TrainState) : TrainState :=
  mkTrainState (topology s) (weights s) (op_set_indices s) v (measure s)
    (layer_iter s) (block_iter s) (is_finished s) (block_output_weight s)
    (layer_output_weight s) (use_bias s) (output_activation s).
Definition set_measure (v : list (list Score)) (s : TrainState) : TrainState :=
  mkTrainState (topology s) (weights s) (op_set_indices s) (history s) v
    (layer_iter s) (block_iter s) (is_finished s) (block_output_weight s)
    (layer_output_weight s) (use_bias s) (output_activation s).
Definition set_layer_iter (v : nat) (s : TrainState) : TrainState :=
  mkTrainState (topology s) (weights s) (op_set_indices s) (history s)
    (measure s) v (block_iter s) (is_finished s) (block_output_weight s)
    (layer_output_weight s) (use_bias s) (output_activation s).
Definition set_block_iter (v : nat) (s : TrainState) : TrainState :=
  mkTrainState (topology s) (weights s) (op_set_indices s) (history s)
    (measure s) (layer_iter s) v (is_finished s) (block_output_weight s)
    (layer_output_weight s) (use_bias s) (output_activation s).
Definition set_is_finished (v : bool) (s : TrainState) : TrainState :=
  mkTrainState (topology s) (weights s) (op_set_indices s) (history s)
    (measure s) (layer_iter s) (block_iter s) v (block_output_weight s)
    (layer_output_weight s) (use_bias s) (output_activation s).
Definition set_block_output_weight (v : option Weight) (s : TrainState) : TrainState :=
  mkTrainState (topology s) (weights s) (op_set_indices s) (history s)
    (measure s) (layer_iter s) (block_iter s) (is_finished s) v
    (layer_output_weight s) (use_bias s) (output_activation s).
Definition set_layer_output_weight (v : option Weight) (s : TrainState) : TrainState :=
  mkTrainState (topology s) (weights s) (op_set_indices s) (history s)
    (measure s) (layer_iter s) (block_iter s) (is_finished s)
    (block_output_weight s) v (use_bias s) (output_activation s).

(** The dictionary assembled at the end of [progressive_learn] and kept in
    [self.model_data]. *)
Record ModelData := mkModelData {
  md_model : string;
  md_topology : list entry;
  md_op_sets : gmap string Ops;
  md_weights : gmap string Weight;
  md_use_bias : bool;
  md_output_activation : option string
}.

(** What the program does to the outside, in order. *)
Inductive Event :=
  | EvTestGenerator (g : Gen)
  | EvSearch (routine : string) (s : TrainState)
  | EvBlockUpdate (t : list entry) (ops : gmap string OpIdx)
      (w : gmap string Weight) (block_names : list string)
  | EvDump (s : TrainState)
  | EvFinetune (md : ModelData)
  | EvRmtree.

(** Everything outside [train_states]: the CUDA setting of the process, the
    directory [tmp_dir/model_name] ([None] when it does not exist, else the
    content of [train_states.pickle] in it, if any), [self.model_data], and
    the events so far (oldest first). *)
Record World := mkWorld {
  cuda : Env;
  workdir : option (option TrainState);
  model_data : option ModelData;
  trace : list Event
}.

Definition set_cuda (v : Env) (w : World) : World :=
  mkWorld v (workdir w) (model_data w) (trace w).
Definition set_workdir (v : option (option TrainState)) (w : World) : World :=
  mkWorld (cuda w) v (model_data w) (trace w).
Definition set_model_data (v : option ModelData) (w : World) : World :=
  mkWorld (cuda w) (workdir w) v (trace w).
Definition emit (e : Event) (w : World) : World :=
  mkWorld (cuda w) (workdir w) (model_data w) (trace w ++ [e]).

(** ** Collaborators

    The helpers of [misc], [gop_utils] and [_Model] that the file calls.  A
    helper that the source guards with [try] returns an error or a value. *)
Class Collaborators := {
  check_parameters : Params → exn + Params;
  test_generator : Gen → Z → Z → bool;
  new_states : Params → TrainState;
  search_cpu : Params → TrainState → Data → (Weight * Weight * Weight) * OpIdx;
  search_gpu : Params → TrainState → Data → (Weight * Weight * Weight) * OpIdx;
  search_cluster : Params → TrainState → Data → (Weight * Weight * Weight) * OpIdx;
  get_random_block_weights : Weight * Weight * Weight → Weight * Weight * Weight;
  block_update : list entry → gmap string OpIdx → gmap string Weight →
                 Params → list string → Data →
                 exn + (Score * Log * gmap string Weight);
  check_convergence : Score → Score → string → Score → bool;
  cuda_of : Computation → Env;
  map_operator_from_index : gmap string OpIdx → Params → gmap string Ops;
  finetune : Params → Data → ModelData → exn + (FLog * Perf * ModelData)
}.

(** ** Python's list and dictionary operations, with their exceptions *)

Definition lift_exn {Σ A} (r : exn + A) : M Σ A :=
  match r with inl e => raise e | inr a => mret a end.

(** [l.pop()] *)
Definition py_pop {A} (l : list A) : exn + (A * list A) :=
  match last l with
  | Some x => inr (x, removelast l)
  | None => inl IndexError
  end.

(** [l[-1]] *)
Definition py_last {A} (l : list A) : exn + A :=
  match last l with Some x => inr x | None => inl IndexError end.

(** [l[i]] for [i >= 0] *)
Definition py_index {A} (l : list A) (i : nat) : exn + A :=
  match l !! i with Some x => inr x | None => inl IndexError end.

(** [l[-2]] *)
Definition py_index_m2 {A} (l : list A) : exn + A :=
  if decide (length l < 2) then inl IndexError
  else py_index l (length l - 2).

(** [l.pop(-2)] *)
Definition py_pop_m2 {A} (l : list A) : exn + (A * list A) :=
  match py_index_m2 l with
  | inr x => inr (x, delete (length l - 2) l)
  | inl e => inl e
  end.

(** [d[k]] and [del d[k]] *)
Definition py_getitem {V} (d : gmap string V) (k : string) : exn + V :=
  match d !! k with Some v => inr v | None => inl (KeyError k) end.
Definition py_delitem {V} (d : gmap string V) (k : string) : exn + gmap string V :=
  match d !! k with Some _ => inr (delete k d) | None => inl (KeyError k) end.

(** [x.append(v)] and [x.pop()] on an entry of the topology: only a list has
    these methods. *)
Definition entry_append (v : string * Z) (e : entry) : exn + entry :=
  match e with
  | Blocks l => inr (Blocks (l ++ [v]))
  | _ => inl AttributeError
  end.
Definition entry_pop (e : entry) : exn + entry :=
  match e with
  | Blocks l => match py_pop l with
                | inr (_, l') => inr (Blocks l')
                | inl e => inl e
                end
  | _ => inl AttributeError
  end.
(** [len(x)]: a tuple has two components, a number has no length. *)
Definition entry_len (e : entry) : exn + nat :=
  match e with
  | Blocks l => inr (length l)
  | Tuple _ _ => inr 2
  | Scalar _ => inl TypeError
  end.

(** ** The machine: [train_states] and the world *)

Record Machine := mkMachine { states : TrainState; world : World }.

Definition read {A} (f : TrainState → A) : M Machine A :=
  λ σ, Normal (f (states σ)) σ.
Definition update (f : TrainState → TrainState) : M Machine unit :=
  modify (λ σ, mkMachine (f (states σ)) (world σ)).
Definition outside (f : World → World) : M Machine unit :=
  modify (λ σ, mkMachine (states σ) (f (world σ))).

(** [with open(path, 'wb') as fid: pickle.dump(train_states, fid)]: the file
    cannot be opened when its directory is missing. *)
Definition dump : M Machine unit :=
  s ← read id;
  σ ← get;
  match workdir (world σ) with
  | None => raise IOError
  | Some _ => outside (λ w, emit (EvDump s) (set_workdir (Some (Some s)) w))
  end.

Context `{C : Collaborators}.

(** [misc.set_cuda_variable] and [misc.reset_cuda_variable].
    Modelled from the spec: the first enters the configured computation
    environment and returns the previous one, the second restores the
    environment it is given. *)
Definition set_cuda_variable (c : Computation) : M Machine Env :=
  σ ← get;
  outside (set_cuda (cuda_of c));;
  mret (cuda (world σ)).
Definition reset_cuda_variable (cuda_status : Env) : M Machine unit :=
  outside (set_cuda cuda_status).

(** [suffix = '_' + str(layer_iter) + '_' + str(block_iter)]; the loop
    variables [layer_iter] and [block_iter] of the source are written
    [layer_i] and [block_i], the names being taken by the keys of
    [train_states]. *)
Definition suffix (layer_i block_i : nat) : string :=
  "_" +:+ str layer_i +:+ "_" +:+ str block_i.

(** Lines 222-238: the choice of the search routine and its call. *)
Definition search_routine (p : Params) (d : Data)
    : M Machine ((Weight * Weight * Weight) * OpIdx) :=
  s ← read id;
  if cluster p then
    outside (emit (EvSearch "search_cluster" s));; mret (search_cluster p s d)
  else if bool_decide (device (search_computation p) = "cpu") then
    outside (emit (EvSearch "search_cpu" s));; mret (search_cpu p s d)
  else
    outside (emit (EvSearch "search_gpu" s));; mret (search_gpu p s d).

(** Lines 264-274: the call of [gop_utils.block_update] on the current
    topology, operator indices and weights. *)
Definition call_block_update (p : Params) (d : Data) (block_names : list string)
    : M Machine (exn + (Score * Log * gmap string Weight)) :=
  s ← read id;
  outside (emit (EvBlockUpdate (topology s) (op_set_indices s) (weights s)
                   block_names));;
  mret (block_update (topology s) (op_set_indices s) (weights s) p
          block_names d).

(** ** The body of the block loop (lines 205-319), in the order of the source *)

(** Lines 205-212: what the first block of a layer does before anything
    else. *)
Definition open_layer (p : Params) (layer_i : nat) : M Machine unit :=
  (if decide (0 < layer_i) then
     t ← read topology;
     '(_, t') ← lift_exn (py_pop t);
     update (set_topology t')
   else mret ());;
  t ← read topology;
  update (set_topology (t ++ [Blocks []]));;
  t ← read topology;
  update (set_topology (t ++ [Tuple "dense" (output_dim p)]));;
  h ← read history;
  update (set_history (h ++ [[]]));;
  m ← read measure;
  update (set_measure (m ++ [[]])).

(** Lines 218-246: the operator set and the initial weights of the block,
    searched for block 0 and taken over from the previous block otherwise. *)
Definition initial_block (p : Params) (d : Data) (layer_i block_i : nat)
    : M Machine ((Weight * Weight * Weight) * OpIdx) :=
  if decide (block_i = 0) then search_routine p d
  else
    let suffix := suffix layer_i (block_i - 1) in
    ops ← read op_set_indices;
    block_op_set_idx ← lift_exn (py_getitem ops ("gop" +:+ suffix));
    w ← read weights;
    w0 ← lift_exn (py_getitem w ("gop" +:+ suffix));
    w1 ← lift_exn (py_getitem w ("bn" +:+ suffix));
    w2 ← lift_exn (py_getitem w "output");
    mret (get_random_block_weights (w0, w1, w2), block_op_set_idx).

Definition block_names (layer_i block_i : nat) : list string :=
  let suffix := suffix layer_i block_i in
  ["gop" +:+ suffix; "bn" +:+ suffix; "output"].

(** Lines 251-256: add new block configuration. *)
Definition add_block (p : Params) (layer_i block_i : nat)
    (block_weights : Weight * Weight * Weight) (block_op_set_idx : OpIdx)
    : M Machine unit :=
  let suffix := suffix layer_i block_i in
  t ← read topology;
  e ← lift_exn (py_index_m2 t);
  e' ← lift_exn (entry_append ("gop", block_size p) e);
  update (set_topology (<[length t - 2 := e']> t));;
  ops ← read op_set_indices;
  update (set_op_set_indices (<["gop" +:+ suffix := block_op_set_idx]> ops));;
  w ← read weights;
  update (set_weights (<["gop" +:+ suffix := block_weights.1.1]> w));;
  w ← read weights;
  update (set_weights (<["bn" +:+ suffix := block_weights.1.2]> w));;
  w ← read weights;
  update (set_weights (<["output" := block_weights.2]> w)).

(** Lines 258-282: the training of the block inside the CUDA setting; any
    error of [block_update] becomes the one [RuntimeError].  (What the source
    prints is not modelled.) *)
Definition train_block (p : Params) (d : Data) (layer_i block_i : nat)
    : M Machine (Score * Log) :=
  cuda_status ← set_cuda_variable (finetune_computation p);
  b_results ← call_block_update p d (block_names layer_i block_i);
  match b_results with
  | inl error =>
      reset_cuda_variable cuda_status;;
      raise (RuntimeError "Fail updating block weights after randomized search")
  | inr (new_measure, history_, weights_) =>
      update (set_weights weights_);;
      reset_cuda_variable cuda_status;;
      mret (new_measure, history_)
  end.

(** Lines 288-291: the block convergence test, skipped for block 0. *)
Definition block_converged (p : Params) (layer_i block_i : nat)
    (new_measure : Score) : M Machine bool :=
  if decide (0 < block_i) then
    m ← read measure;
    ml ← lift_exn (py_index m layer_i);
    previous ← lift_exn (py_index ml (block_i - 1));
    mret (check_convergence new_measure previous (direction p)
            (block_threshold p))
  else mret false.

(** Lines 292-305: the block is discarded. *)
Definition rollback_block (layer_i block_i : nat) : M Machine unit :=
  let suffix := suffix layer_i block_i in
  t ← read topology;
  e ← lift_exn (py_index_m2 t);
  e' ← lift_exn (entry_pop e);
  update (set_topology (<[length t - 2 := e']> t));;
  w ← read weights;
  w' ← lift_exn (py_delitem w ("gop" +:+ suffix));
  update (set_weights w');;
  w ← read weights;
  w' ← lift_exn (py_delitem w ("bn" +:+ suffix));
  update (set_weights w');;
  ops ← read op_set_indices;
  ops' ← lift_exn (py_delitem ops ("gop" +:+ suffix));
  update (set_op_set_indices ops');;
  snapshot ← read block_output_weight;
  out ← lift_exn (from_option inr (inl (KeyError "block_output_weight"))
                    snapshot);
  w ← read weights;
  update (set_weights (<["output" := out]> w));;
  update (set_block_iter 0);;
  n ← read layer_iter;
  update (set_layer_iter (n + 1));;
  dump.

(** Lines 309-319: the block is kept. *)
Definition commit_block (p : Params) (layer_i block_i : nat)
    (new_measure : Score) (history_ : Log) : M Machine unit :=
  w ← read weights;
  out ← lift_exn (py_getitem w "output");
  update (set_block_output_weight (Some out));;
  m ← read measure;
  ml ← lift_exn (py_index m layer_i);
  update (set_measure (<[layer_i := ml ++ [new_measure]]> m));;
  h ← read history;
  hl ← lift_exn (py_index h layer_i);
  update (set_history (<[layer_i := hl ++ [history_]]> h));;
  update (set_block_iter
            (if bool_decide (Z.of_nat block_i = (Z.of_nat (max_block p) - 1)%Z)
             then 0 else block_i + 1));;
  dump.

(** The whole body; the result is [true] when it leaves the loop with
    [break], after setting [block_stop]. *)
Definition block_body (p : Params) (d : Data) (layer_i block_i : nat)
    : M Machine bool :=
  (if decide (block_i = 0) then open_layer p layer_i else mret ());;
  '(block_weights, block_op_set_idx) ← initial_block p d layer_i block_i;
  add_block p layer_i block_i block_weights block_op_set_idx;;
  '(new_measure, history_) ← train_block p d layer_i block_i;
  converged ← block_converged p layer_i block_i new_measure;
  if converged : bool then rollback_block layer_i block_i;; mret true
  else commit_block p layer_i block_i new_measure history_;; mret false.

(** The block loop: [for block_iter in range(...)], left by [break]; the
    result is the flag [block_stop]. *)
Fixpoint block_loop (p : Params) (d : Data) (layer_i : nat)
    (iters : list nat) : M Machine bool :=
  match iters with
  | [] => mret false
  | block_i :: rest =>
      stop ← block_body p d layer_i block_i;
      if stop : bool then mret true else block_loop p d layer_i rest
  end.

(** Lines 330-333: the deletion of the entries of every block of a layer. *)
Fixpoint delete_blocks (layer_i : nat) (idxs : list nat) : M Machine unit :=
  match idxs with
  | [] => mret ()
  | idx :: rest =>
      let suffix := suffix layer_i idx in
      w ← read weights;
      w' ← lift_exn (py_delitem w ("gop" +:+ suffix));
      update (set_weights w');;
      w ← read weights;
      w' ← lift_exn (py_delitem w ("bn" +:+ suffix));
      update (set_weights w');;
      ops ← read op_set_indices;
      ops' ← lift_exn (py_delitem ops ("gop" +:+ suffix));
      update (set_op_set_indices ops');;
      delete_blocks layer_i rest
  end.

(** Lines 321-338: the layer convergence check; [true] is the [break] that
    ends the growth. *)
Definition layer_check (p : Params) (layer_i : nat) : M Machine bool :=
  if decide (0 < layer_i) then
    m ← read measure;
    ml ← lift_exn (py_index m layer_i);
    new_measure ← lift_exn (py_last ml);
    ml' ← lift_exn (py_index m (layer_i - 1));
    old_measure ← lift_exn (py_last ml');
    if check_convergence new_measure old_measure (direction p)
         (layer_threshold p)
    then
      t ← read topology;
      '(e, t') ← lift_exn (py_pop_m2 t);
      update (set_topology t');;
      no_blocks ← lift_exn (entry_len e);
      delete_blocks layer_i (range 0 no_blocks);;
      snapshot ← read layer_output_weight;
      out ← lift_exn (from_option inr (inl (KeyError "layer_output_weight"))
                        snapshot);
      w ← read weights;
      update (set_weights (<["output" := out]> w));;
      h ← read history;
      '(_, h') ← lift_exn (py_pop h);
      update (set_history h');;
      mret true
    else mret false
  else mret false.

(** Lines 321-344: what follows the block loop in the body of the layer
    loop; [true] is the [break] of line 338. *)
Definition layer_close (p : Params) (layer_i : nat) (block_stop : bool)
    : M Machine bool :=
  stop ← layer_check p layer_i;
  if stop : bool then mret true
  else
    (if block_stop then mret ()
     else n ← read layer_iter; update (set_layer_iter (n + 1)));;
    w ← read weights;
    out ← lift_exn (py_getitem w "output");
    update (set_layer_output_weight (Some out));;
    mret false.

(** The body of the layer loop (lines 202-344). *)
Definition layer_body (p : Params) (d : Data) (layer_i : nat)
    : M Machine bool :=
  first ← read block_iter;
  block_stop ← block_loop p d layer_i (range first (max_block p));
  layer_close p layer_i block_stop.

(** The layer loop; the result tells whether a layer convergence ended it. *)
Fixpoint layer_loop (p : Params) (d : Data) (iters : list nat)
    : M Machine bool :=
  match iters with
  | [] => mret false
  | layer_i :: rest =>
      stop ← layer_body p d layer_i;
      if stop : bool then mret true else layer_loop p d rest
  end.

(** Lines 200-349: the growth proper, on a [train_states] that is already
    loaded. *)
Definition grow (p : Params) (d : Data) : M Machine bool :=
  finished ← read is_finished;
  if finished : bool then mret false
  else
    first ← read layer_iter;
    stop ← layer_loop p d (range first (max_layer p));
    update (set_is_finished true);;
    dump;;
    mret stop.

(** ** [progressive_learn] and [fit] *)

(** A computation on [train_states], a local variable: when an exception
    leaves the function the dictionary is lost, the world stays. *)
Definition with_states {A} (s : TrainState) (m : M Machine A)
    : M World (A * TrainState) :=
  λ w, match m (mkMachine s w) with
       | Normal a σ => Normal (a, states σ) (world σ)
       | Raised e σ => Raised e (world σ)
       end.

(** [misc.initialize_states].
    Modelled from the spec: the state is restored from the checkpoint when
    there is one, and created fresh otherwise. *)
Definition initialize_states (p : Params) : M World TrainState :=
  w ← get;
  match workdir w with
  | Some (Some s) => mret s
  | _ => mret (new_states p)
  end.

Definition call_test_generator (g : Gen) (p : Params) : M World unit :=
  modify (emit (EvTestGenerator g));;
  if test_generator g (input_dim p) (output_dim p) then mret ()
  else raise (Failure "test_generator").

Definition assemble (p : Params) (s : TrainState) : ModelData :=
  {| md_model := "HoMLGOP";
     md_topology := topology s;
     md_op_sets := map_operator_from_index (op_set_indices s) p;
     md_weights := weights s;
     md_use_bias := use_bias s;
     md_output_activation := output_activation s |}.

Definition progressive_learn (params : Params) (d : Data)
    : M World (list (list Log)) :=
  params ← lift_exn (check_parameters params);
  let params :=
    set_convergence_measure
      ((match val_gen d with Some _ => "val_" | None => "train_" end)
       +:+ convergence_measure params)
      params in
  call_test_generator (train_gen d) params;;
  (match val_gen d with
   | Some g => call_test_generator g params
   | None => mret ()
   end);;
  (match test_gen d with
   | Some g => call_test_generator g params
   | None => mret ()
   end);;
  train_states ← initialize_states params;
  '(_, train_states) ← with_states train_states (grow params d);
  modify (set_model_data (Some (assemble params train_states)));;
  mret (history train_states).

(** [self.finetune], inherited from [_Model]: it works on [self.model_data]. *)
Definition call_finetune (p : Params) (d : Data) : M World (FLog * Perf) :=
  w ← get;
  match model_data w with
  | None => raise (Failure "finetune")
  | Some md =>
      modify (emit (EvFinetune md));;
      match finetune p d md with
      | inl e => raise e
      | inr (f_history, performance, md') =>
          modify (set_model_data (Some md'));;
          mret (f_history, performance)
      end
  end.

(** Lines 169-170 *)
Definition remove_workdir : M World unit :=
  w ← get;
  match workdir w with
  | Some _ => modify (set_workdir None);; modify (emit EvRmtree)
  | None => mret ()
  end.

Definition fit (params : Params) (d : Data)
    : M World (Perf * list (list Log) * FLog) :=
  p_history ← progressive_learn params d;
  '(f_history, performance) ← call_finetune params d;
  remove_workdir;;
  mret (performance, p_history, f_history).

End Model.

(** ** Vocabulary of the statements *)

(** The keys ['gop' + suffix] and ['bn' + suffix] of a block. *)
Definition gop (layer block : nat) : string := "gop" +:+ suffix layer block.
Definition bn (layer block : nat) : string := "bn" +:+ suffix layer block.

Section Vocabulary.
Context {D : Domains} {C : Collaborators}.

Definition outcome_state {Σ A} (o : outcome Σ A) : Σ :=
  match o with Normal _ σ | Raised _ σ => σ end.

(** The checkpoints written by a list of events, oldest first. *)
Definition dumps (evs : list Event) : list TrainState :=
  omap (λ e, match e with EvDump s => Some s | _ => None end) evs.

(** The working directory after a list of events. *)
Definition disk_after (wd : option (option TrainState)) (evs : list Event)
    : option (option TrainState) :=
  foldl (λ wd e, match e with
                 | EvDump s => Some (Some s)
                 | EvRmtree => None
                 | _ => wd
                 end) wd evs.

(** The world [w'] is the world [w] after the events [evs] and nothing else:
    same CUDA setting, same [self.model_data]. *)
Definition emits (w w' : World) (evs : list Event) : Prop :=
  cuda w' = cuda w ∧ model_data w' = model_data w ∧
  trace w' = trace w ++ evs ∧ workdir w' = disk_after (workdir w) evs.

(** The topology below the layer that block 0 of layer [L] opens: the
    output descriptor of the previous layer is popped first. *)
Definition layer_base (L : nat) (t : list entry) : list entry :=
  if decide (0 < L) then removelast t else t.

(** [train_states] after lines 205-212. *)
Definition opened (p : Params) (L k : nat) (s : TrainState) : TrainState :=
  if decide (k = 0) then
    set_measure (measure s ++ [[]])
      (set_history (history s ++ [[]])
         (set_topology
            (layer_base L (topology s)
             ++ [Blocks []; Tuple "dense" (output_dim p)]) s))
  else s.

(** [train_states] after lines 251-256, the topology having been
    [pre ++ [Blocks bl; x]]. *)
Definition added (p : Params) (L k : nat) (bw : Weight * Weight * Weight)
    (idx : OpIdx) (pre : list entry) (bl : list (string * Z)) (x : entry)
    (s : TrainState) : TrainState :=
  set_weights
    (<["output" := bw.2]>
       (<[bn L k := bw.1.2]> (<[gop L k := bw.1.1]> (weights s))))
    (set_op_set_indices (<[gop L k := idx]> (op_set_indices s))
       (set_topology (pre ++ [Blocks (bl ++ [("gop", block_size p)]); x]) s)).

(** [train_states] after the roll-back of lines 292-300, from the state
    [s] reached after the training of the block. *)
Definition rolled_back (L k : nat) (out : Weight) (pre : list entry)
    (bl : list (string * Z)) (x : entry) (s : TrainState) : TrainState :=
  set_layer_iter (layer_iter s + 1)
    (set_block_iter 0
       (set_weights
          (<["output" := out]> (delete (bn L k) (delete (gop L k) (weights s))))
          (set_op_set_indices (delete (gop L k) (op_set_indices s))
             (set_topology (pre ++ [Blocks bl; x]) s)))).

(** [train_states] after the commit of lines 309-314. *)
Definition committed (p : Params) (L k : nat) (out : Weight)
    (ml : list Score) (nm : Score) (hl : list Log) (h : Log)
    (s : TrainState) : TrainState :=
  set_block_iter
    (if bool_decide (Z.of_nat k = (Z.of_nat (max_block p) - 1)%Z)
     then 0 else k + 1)
    (set_history (<[L := hl ++ [h]]> (history s))
       (set_measure (<[L := ml ++ [nm]]> (measure s))
          (set_block_output_weight (Some out) s))).

(** The entries of the blocks [idxs] of layer [L] deleted (lines 330-333). *)
Definition delete_layer_weights (L : nat) (idxs : list nat)
    (w : gmap string Weight) : gmap string Weight :=
  foldl (λ w i, delete (bn L i) (delete (gop L i) w)) w idxs.
Definition delete_layer_ops (L : nat) (idxs : list nat)
    (ops : gmap string OpIdx) : gmap string OpIdx :=
  foldl (λ ops i, delete (gop L i) ops) ops idxs.

(** [train_states] after the layer roll-back of lines 327-336. *)
Definition layer_rolled_back (L n : nat) (out : Weight) (pre : list entry)
    (x : entry) (h : list (list Log)) (s : TrainState) : TrainState :=
  set_history h
    (set_weights
       (<["output" := out]> (delete_layer_weights L (range 0 n) (weights s)))
       (set_op_set_indices (delete_layer_ops L (range 0 n) (op_set_indices s))
          (set_topology (pre ++ [x]) s))).

(** The one error of a failed training. *)
Definition fatal : exn :=
  RuntimeError "Fail updating block weights after randomized search".

Definition is_search (e : Event) : Prop :=
  match e with EvSearch _ _ => True | _ => False end.

(** A recorded call of [block_update] returned / raised. *)
Definition trained (p : Params) (d : Data) (e : Event) : Prop :=
  match e with
  | EvBlockUpdate t ops w names =>
      ∃ r, block_update t ops w p names d = inr r
  | _ => True
  end.
Definition failed (p : Params) (d : Data) (e : Event) : Prop :=
  match e with
  | EvBlockUpdate t ops w names =>
      ∃ err, block_update t ops w p names d = inl err
  | _ => False
  end.

(** The shape of the events of a run with outcome [o]: every recorded
    training succeeded, unless the run is ended by [fatal] just after the one
    training that failed. *)
Definition run_shape {Σ A} (p : Params) (d : Data) (o : outcome Σ A)
    (evs : list Event) : Prop :=
  match o with
  | Normal _ _ => Forall (trained p d) evs
  | Raised e _ =>
      Forall (trained p d) evs ∨
      (∃ pre ev, evs = pre ++ [ev] ∧ Forall (trained p d) pre ∧
                 failed p d ev ∧ e = fatal)
  end.

(** The events of [m] from [σ] have that shape, and nothing else happens to
    the world. *)
Definition effect_ok {A} (p : Params) (d : Data) (m : M Machine A)
    (σ : Machine) : Prop :=
  ∃ evs, emits (world σ) (world (outcome_state (m σ))) evs ∧
         run_shape p d (m σ) evs.

(** *** The states of an uninterrupted growth *)

(** The output descriptor. *)
Definition dense (p : Params) : entry := Tuple "dense" (output_dim p).

(** All the blocks of a layer have the operator set of its block 0. *)
Definition homogeneous (ops : gmap string OpIdx) : Prop :=
  ∀ l b i, ops !! gop l b = Some i → ops !! gop l 0 = Some i.

(** The keys of the blocks of [layers]: [key] is the operator-index key,
    or a weight key, of a block of one of them. *)
Definition block_key (layers : list (list (string * Z))) (key : string)
    : Prop :=
  ∃ l b bl, key = gop l b ∧ layers !! l = Some bl ∧ b < length bl.
Definition weight_key (layers : list (list (string * Z))) (key : string)
    : Prop :=
  ∃ l b bl, (key = gop l b ∨ key = bn l b) ∧ layers !! l = Some bl ∧
            b < length bl.

(** [train_states] holds exactly the layers [layers] (the list of blocks of
    each) on top of the initial topology [base]: the shape of the topology,
    one history and one measure per block, and the operator indices of
    exactly these blocks. *)
Record built (p : Params) (base : list entry)
    (layers : list (list (string * Z))) (s : TrainState) : Prop := {
  built_topology : topology s = base ++ (Blocks <$> layers) ++ [dense p];
  built_history : length (history s) = length layers;
  built_blocks : ∀ l bl, layers !! l = Some bl →
    ∃ hl ml, history s !! l = Some hl ∧ measure s !! l = Some ml ∧
             length hl = length bl ∧ length ml = length bl;
  built_ops : ∀ key, is_Some (op_set_indices s !! key) ↔ block_key layers key;
  built_homogeneous : homogeneous (op_set_indices s)
}.

(** No layer yet. *)
Definition unbuilt (base : list entry) (s : TrainState) : Prop :=
  topology s = base ∧ history s = [] ∧ measure s = [] ∧ op_set_indices s = ∅.

(** A fresh [train_states], as [misc.initialize_states] makes it when there
    is no checkpoint: nothing learnt, both cursors at 0. *)
Definition fresh (s : TrainState) : Prop :=
  weights s = ∅ ∧ op_set_indices s = ∅ ∧ history s = [] ∧ measure s = [] ∧
  layer_iter s = 0 ∧ block_iter s = 0 ∧ is_finished s = false.

(** The only keys of the weights are ["output"] and those of the blocks of
    [layers]. *)
Definition weight_keys (layers : list (list (string * Z)))
    (w : gmap string Weight) : Prop :=
  ∀ key, is_Some (w !! key) → key = "output" ∨ weight_key layers key.

(** [block_update] changes no entry of the weights but those of the blocks
    it is asked to train. *)
Definition frames (p : Params) (d : Data) : Prop :=
  ∀ t ops w names nm h w',
    block_update t ops w p names d = inr (nm, h, w') →
    ∀ key, key ∉ names → w' !! key = w !! key.

(** From one checkpoint to the next: [block_iter] goes up by one or back to
    0, [layer_iter] stays or goes up by one. *)
Definition cursor_step (s1 s2 : TrainState) : Prop :=
  (block_iter s2 = block_iter s1 + 1 ∨ block_iter s2 = 0) ∧
  (layer_iter s2 = layer_iter s1 ∨ layer_iter s2 = layer_iter s1 + 1).

Definition adjacent {A} (R : A → A → Prop) (l : list A) : Prop :=
  ∀ i a b, l !! i = Some a → l !! S i = Some b → R a b.

(** What holds of every checkpoint of a growth from the topology [base]. *)
Definition checkpoint_ok (p : Params) (base : list entry) (s : TrainState)
    : Prop :=
  (block_iter s < max_block p) ∧ (layer_iter s ≤ max_layer p)%nat ∧
  (unbuilt base s ∨
   ∃ layers, layers ≠ [] ∧ Forall (λ bl, bl ≠ []) layers ∧
     built p base layers s ∧
     (length (measure s) = length layers ∨
      length (measure s) = S (length layers))).

Definition dumps_ok (p : Params) (base : list entry) (tr : list Event)
    : Prop :=
  Forall (checkpoint_ok p base) (dumps tr) ∧ adjacent cursor_step (dumps tr).

(** The checkpoints so far, and how the last one relates to the cursors of
    [s], the state in memory. *)
Definition trace_ok (p : Params) (base : list entry) (s : TrainState)
    (tr : list Event) : Prop :=
  dumps_ok p base tr ∧
  ∀ sd, last (dumps tr) = Some sd →
    block_iter sd = block_iter s ∧
    (layer_iter sd ≤ layer_iter s ≤ layer_iter sd + 1)%nat ∧
    (0 < block_iter s → layer_iter sd = layer_iter s).

(** [s] is at the head of a layer: the layers [layers] are closed, the next
    one has the index [length layers]. *)
Record layer_head (p : Params) (d : Data) (base : list entry)
    (layers : list (list (string * Z))) (s : TrainState) : Prop := {
  lh_layer_iter : layer_iter s = length layers;
  lh_block_iter : block_iter s = 0;
  lh_built : if decide (layers = []) then unbuilt base s
             else built p base layers s;
  lh_nonempty : Forall (λ bl, bl ≠ []) layers;
  lh_measure : length (measure s) = length layers;
  lh_snapshot : layers ≠ [] →
    ∃ out, layer_output_weight s = Some out ∧ weights s !! "output" = Some out;
  lh_weights : frames p d → weight_keys layers (weights s)
}.

(** [s] is in layer [length layers], whose blocks so far are [bl], the
    layer having been entered in the state [sL]. *)
Record layer_state (p : Params) (d : Data) (base : list entry)
    (layers : list (list (string * Z))) (sL : TrainState)
    (bl : list (string * Z)) (s : TrainState) : Prop := {
  ls_head : layer_head p d base layers sL;
  ls_built : built p base (layers ++ [bl]) s;
  ls_measure : length (measure s) = S (length layers);
  ls_history_old : ∃ hl, history s = history sL ++ [hl];
  ls_measure_old : ∃ ml, measure s = measure sL ++ [ml];
  ls_ops_old : ∀ key, (∀ b, key ≠ gop (length layers) b) →
    op_set_indices s !! key = op_set_indices sL !! key;
  ls_snapshot : layer_output_weight s = layer_output_weight sL;
  ls_weights : frames p d → weight_keys (layers ++ [bl]) (weights s);
  ls_weights_old : frames p d →
    ∀ key, (∀ b, key ≠ gop (length layers) b ∧ key ≠ bn (length layers) b) →
           key ≠ "output" → weights s !! key = weights sL !! key
}.

(** The same, at the head of the body of the block loop for a block that
    is not the first of its layer: the last block is committed. *)
Definition in_layer (p : Params) (d : Data) (base : list entry)
    (layers : list (list (string * Z))) (sL : TrainState)
    (bl : list (string * Z)) (s : TrainState) : Prop :=
  layer_state p d base layers sL bl s ∧ bl ≠ [] ∧
  ∃ out, block_output_weight s = Some out ∧ weights s !! "output" = Some out.

(** [s] is at the head of the body of the block loop, in layer
    [length layers], for the block [length bl]. *)
Definition block_head (p : Params) (d : Data) (base : list entry)
    (layers : list (list (string * Z))) (sL : TrainState)
    (bl : list (string * Z)) (s : TrainState) : Prop :=
  layer_iter s = length layers ∧ block_iter s = length bl ∧
  if decide (bl = []) then layer_head p d base layers s ∧ sL = s
  else in_layer p d base layers sL bl s.

(** [s] is the state left by the block loop of layer [length layers], the
    flag [block_stop] being [bs]. *)
Definition after_blocks (p : Params) (d : Data) (base : list entry)
    (layers : list (list (string * Z))) (sL : TrainState)
    (bl : list (string * Z)) (bs : bool) (s : TrainState) : Prop :=
  in_layer p d base layers sL bl s ∧ block_iter s = 0 ∧
  layer_iter s = (if bs then S (length layers) else length layers).

(** The events of the world [w] since the trace was [tr0] satisfy [P]. *)
Definition traced (tr0 : list Event) (w : World) (P : list Event → Prop)
    : Prop :=
  ∃ evs, trace w = tr0 ++ evs ∧ P evs.

(** [s] is the state left by the layer convergence that rejects the layer
    [length layers], entered in the state [sL]. *)
Definition layer_rejected (p : Params) (d : Data) (base : list entry)
    (layers : list (list (string * Z))) (sL s : TrainState) : Prop :=
  layers ≠ [] ∧ layer_head p d base layers sL ∧ built p base layers s ∧
  topology s = topology sL ∧ op_set_indices s = op_set_indices sL ∧
  history s = history sL ∧ (∃ ml, measure s = measure sL ++ [ml]) ∧
  weights s !! "output" = layer_output_weight sL ∧
  (frames p d → weights s = weights sL) ∧
  block_iter s = 0 ∧
  (layer_iter s = length layers ∨ layer_iter s = S (length layers)).

(** The state in which the layer loop ends: after a layer convergence
    ([stop]) the layers [layers] are left and one more layer was measured;
    otherwise all the [max_layer] layers are there. *)
Definition layers_done (p : Params) (d : Data) (base : list entry)
    (stop : bool) (layers : list (list (string * Z))) (s : TrainState)
    : Prop :=
  block_iter s = 0 ∧ layer_iter s ≤ max_layer p ∧
  Forall (λ bl, bl ≠ []) layers ∧
  if stop then
    layers ≠ [] ∧ length layers < max_layer p ∧ built p base layers s ∧
    length (measure s) = S (length layers)
  else
    length layers = max_layer p ∧
    (if decide (layers = []) then unbuilt base s else built p base layers s) ∧
    length (measure s) = length layers.

(** The machine states that an uninterrupted growth from [σ0] goes through:
    [layer_reached p d σ0 L σ] when [σ] is at the head of the body of the
    layer loop for the layer [L], and [block_reached p d L σL k σ] when [σ]
    is at the head of the body of the block loop for the block [k] of the
    layer [L], entered in [σL]. *)
Inductive layer_reached (p : Params) (d : Data) (σ0 : Machine)
    : nat → Machine → Prop :=
  | layer_first : layer_reached p d σ0 (layer_iter (states σ0)) σ0
  | layer_next L σ σ' :
      layer_reached p d σ0 L σ → S L < max_layer p →
      layer_body p d L σ = Normal false σ' →
      layer_reached p d σ0 (S L) σ'.

Inductive block_reached (p : Params) (d : Data) (L : nat) (σL : Machine)
    : nat → Machine → Prop :=
  | block_first : block_reached p d L σL (block_iter (states σL)) σL
  | block_next k σ σ' :
      block_reached p d L σL k σ → S k < max_block p →
      block_body p d L k σ = Normal false σ' →
      block_reached p d L σL (S k) σ'.

(** The length of the topology: the initial entries, one list of blocks per
    layer, and the output descriptor once there is a layer. *)
Definition topology_count (n0 : nat) (s : TrainState) : Prop :=
  length (topology s)
  = n0 + length (history s) + (match history s with [] => 0 | _ => 1 end).

(** In the topology that starts with [n0] initial entries, every block of
    every layer has the operator set of block 0 of its layer. *)
Definition same_operator_sets (n0 : nat) (s : TrainState) : Prop :=
  ∀ l bl b, topology s !! (n0 + l) = Some (Blocks bl) → b < length bl →
    ∃ i, op_set_indices s !! gop l b = Some i ∧
         op_set_indices s !! gop l 0 = Some i.

(** *** The claims of the specification that the code does not keep, as
    they are stated *)

(** The length of the topology is even and twice the number of layers. *)
Definition topology_parity (s : TrainState) : Prop :=
  Nat.Even (length (topology s)) ∧
  length (topology s) = 2 * length (history s).

(** Both cursors of a checkpoint lie below their bounds. *)
Definition cursors_in_range (p : Params) (s : TrainState) : Prop :=
  block_iter s < max_block p ∧ layer_iter s < max_layer p.

(** The two roll-backs as the specification words them: the state after
    the roll-back of block [k] is exactly the state after the commit of
    block [k-1]; the state after the roll-back of layer [L] is exactly the
    state with which layer [L] was entered. *)
Definition block_rollback_exact (p : Params) (d : Data) : Prop :=
  ∀ σ0 L σL k σ1 σ2,
    fresh (states σ0) →
    layer_reached p d σ0 L σL → L < max_layer p →
    block_reached p d L σL k σ1 → 0 < k → k < max_block p →
    block_body p d L k σ1 = Normal true σ2 →
    topology (states σ2) = topology (states σ1) ∧
    weights (states σ2) = weights (states σ1) ∧
    op_set_indices (states σ2) = op_set_indices (states σ1).

Definition layer_rollback_exact (p : Params) (d : Data) : Prop :=
  ∀ σ0 L σL σ',
    fresh (states σ0) → 0 < max_block p →
    layer_reached p d σ0 L σL → 0 < L → L < max_layer p →
    layer_body p d L σL = Normal true σ' →
    topology (states σ') = topology (states σL) ∧
    weights (states σ') = weights (states σL) ∧
    history (states σ') = history (states σL).

(** *** The run of [fit] *)

(** The generators that the caller supplied, in the order of lines 192-196. *)
Definition supplied (d : Data) : list Gen :=
  train_gen d :: option_list (val_gen d) ++ option_list (test_gen d).

(** The parameters of the growth: those that [check_parameters] returned,
    with the convergence measure prefixed (lines 186-190). *)
Definition growth_params (d : Data) (pc : Params) : Params :=
  set_convergence_measure
    ((match val_gen d with Some _ => "val_" | None => "train_" end)
     +:+ convergence_measure pc)
    pc.

(** The world after the generators were tested. *)
Definition generators_tested (d : Data) (w : World) : World :=
  mkWorld (cuda w) (workdir w) (model_data w)
    (trace w ++ (EvTestGenerator <$> supplied d)).

(** What [initialize_states] returns in the world [w]. *)
Definition initial_states (p : Params) (w : World) : TrainState :=
  match workdir w with
  | Some (Some s) => s
  | _ => new_states p
  end.

(** *** Further vocabulary *)

(** The network that [s] holds, on a topology that starts with [n0] initial
    entries, is consistent: every layer of the history has a list of blocks,
    not empty, with one training log and one measure per block, and the
    operator indices are those of exactly these blocks. *)
Definition consistent (n0 : nat) (s : TrainState) : Prop :=
  (∀ l hl, history s !! l = Some hl →
     ∃ bl ml, topology s !! (n0 + l) = Some (Blocks bl) ∧
              measure s !! l = Some ml ∧ bl ≠ [] ∧
              length hl = length bl ∧ length ml = length bl) ∧
  (∀ key, is_Some (op_set_indices s !! key) ↔
     ∃ l b bl, key = gop l b ∧ l < length (history s) ∧
               topology s !! (n0 + l) = Some (Blocks bl) ∧ b < length bl).

(** The trainings and the searches among a list of events. *)
Definition is_training (e : Event) : bool :=
  match e with EvBlockUpdate _ _ _ _ => true | _ => false end.
Definition is_searching (e : Event) : bool :=
  match e with EvSearch _ _ => true | _ => false end.
Definition count (f : Event → bool) (evs : list Event) : nat :=
  length (List.filter f evs).

(** [block_update] returns a dictionary that has every key of the one it
    was given, and [block_update] never raises. *)
Definition keeps (p : Params) (d : Data) : Prop :=
  ∀ t ops w names nm h w',
    block_update t ops w p names d = inr (nm, h, w') →
    ∀ key, is_Some (w !! key) → is_Some (w' !! key).
Definition reliable (p : Params) (d : Data) : Prop :=
  ∀ t ops w names, ∃ r, block_update t ops w p names d = inr r.

(** The weights hold both entries of every block of [layers]. *)
Definition present (layers : list (list (string * Z)))
    (w : gmap string Weight) : Prop :=
  ∀ key, weight_key layers key → is_Some (w !! key).

(** A layer of [j] blocks as the growth makes it, and the topology of a
    network of layers of the sizes [sizes] on the initial topology [base]. *)
Definition layer_of (p : Params) (j : nat) : list (string * Z) :=
  replicate j ("gop", block_size p).
Definition network (p : Params) (base : list entry) (sizes : list nat)
    : list entry :=
  base ++ ((λ j, Blocks (layer_of p j)) <$> sizes)
  ++ match sizes with [] => [] | _ => [dense p] end.

(** Lines 205-282: the body of the block loop up to the end of the training
    of the block, that is, up to the convergence test of line 288. *)
Definition block_training (p : Params) (d : Data) (layer_i block_i : nat)
    : M Machine (Score * Log) :=
  (if decide (block_i = 0) then open_layer p layer_i else mret ());;
  '(block_weights, block_op_set_idx) ← initial_block p d layer_i block_i;
  add_block p layer_i block_i block_weights block_op_set_idx;;
  train_block p d layer_i block_i.

(** The weights of [s] hold both entries of every block of the layer [L],
    whose block list is [topology[-2]]. *)
Definition layer_present (L : nat) (s : TrainState) : Prop :=
  ∀ bl, topology s !! (length (topology s) - 2) = Some (Blocks bl) →
    ∀ i, i < length bl →
      is_Some (weights s !! gop L i) ∧ is_Some (weights s !! bn L i).

End Vocabulary.

(** ** A concrete configuration, to run the model *)

Module Demo.

#[local] Instance domains : Domains :=
  {| Weight := Z; OpIdx := nat; Score := Z; Log := nat; Gen := nat;
     Env := string; Ops := nat; Perf := Z; FLog := nat |}.

Definition params (layers blocks : nat) : Params :=
  {| max_layer := layers; max_block := blocks; block_size := 20%Z;
     input_dim := 8%Z; output_dim := 2%Z; direction := "lower";
     block_threshold := 1%Z; layer_threshold := 1%Z;
     convergence_measure := "mse"; cluster := false;
     search_computation := mkComputation "cpu" [8%Z];
     finetune_computation := mkComputation "cpu" [8%Z];
     tmp_dir := "tmp"; model_name := "HoMLGOP" |}.

Definition data : Data :=
  {| train_gen := 0%nat; val_gen := None; test_gen := None |}.

(** A fresh [train_states] whose topology is the given list. *)
Definition blank (t : list entry) : TrainState :=
  {| topology := t; weights := ∅; op_set_indices := ∅; history := [];
     measure := []; layer_iter := 0; block_iter := 0; is_finished := false;
     block_output_weight := None; layer_output_weight := None;
     use_bias := true; output_activation := None |}.

Definition world0 : World :=
  {| cuda := "host"; workdir := Some None; model_data := None; trace := [] |}.

(** The search always returns operator index 3 and the weights 1, 2, 3, on
    whatever device; the training is the parameter [update]; convergence is
    declared when the new measure does not improve on the old one by at
    least the threshold (lower is better). *)
Definition collaborators (t0 : list entry)
    (update : list entry → gmap string Z → exn + (Z * nat * gmap string Z))
    : Collaborators :=
  {| check_parameters := inr;
     test_generator := λ _ _ _, true;
     new_states := λ _, blank t0;
     search_cpu := λ _ _ _, ((1, 2, 3)%Z, 3%nat);
     search_gpu := λ _ _ _, ((1, 2, 3)%Z, 3%nat);
     search_cluster := λ _ _ _, ((1, 2, 3)%Z, 3%nat);
     get_random_block_weights := λ '(a, b, c), (a + 10, b + 10, c + 10)%Z;
     block_update := λ t _ w _ _ _, update t w;
     check_convergence := λ new old _ thr, bool_decide (old - new < thr)%Z;
     cuda_of := λ c, device c;
     map_operator_from_index := λ ops _, ops;
     finetune := λ _ _ md, inr (0%nat, 0%Z, md) |}.

(** The same collaborators, but only the generator 0 passes the test and
    the fine-tuning fails. *)
Definition strict (t0 : list entry)
    (update : list entry → gmap string Z → exn + (Z * nat * gmap string Z))
    : Collaborators :=
  {| check_parameters := inr;
     test_generator := λ g _ _, bool_decide (g = 0%nat);
     new_states := λ _, blank t0;
     search_cpu := λ _ _ _, ((1, 2, 3)%Z, 3%nat);
     search_gpu := λ _ _ _, ((1, 2, 3)%Z, 3%nat);
     search_cluster := λ _ _ _, ((1, 2, 3)%Z, 3%nat);
     get_random_block_weights := λ '(a, b, c), (a + 10, b + 10, c + 10)%Z;
     block_update := λ t _ w _ _ _, update t w;
     check_convergence := λ new old _ thr, bool_decide (old - new < thr)%Z;
     cuda_of := λ c, device c;
     map_operator_from_index := λ ops _, ops;
     finetune := λ _ _ _, inl (Failure "finetune") |}.

(** Data with a validation generator, the generator 1. *)
Definition data_val : Data :=
  {| train_gen := 0%nat; val_gen := Some 1%nat; test_gen := None |}.

(** The number of blocks in the topology. *)
Definition blocks_of (t : list entry) : nat :=
  sum_list ((λ e, match e with Blocks l => length l | _ => 0 end) <$> t).

(** A training that keeps the weights it is given and always improves: the
    measure is 100 minus ten times the number of blocks. *)
Definition improving (t : list entry) (w : gmap string Z)
    : exn + (Z * nat * gmap string Z) :=
  inr ((100 - 10 * Z.of_nat (blocks_of t))%Z, 7%nat, w).

(** A training that keeps the weights and never improves. *)
Definition steady (t : list entry) (w : gmap string Z)
    : exn + (Z * nat * gmap string Z) :=
  inr (50%Z, 7%nat, w).

(** A training that never improves and moves every weight of the network. *)
Definition drifting (t : list entry) (w : gmap string Z)
    : exn + (Z * nat * gmap string Z) :=
  inr (50%Z, 7%nat, (λ x, x + 1)%Z <$> w).

(** A training that fails on the second block of the network. *)
Definition failing (t : list entry) (w : gmap string Z)
    : exn + (Z * nat * gmap string Z) :=
  if decide (blocks_of t = 2) then inl (Failure "out of memory")
  else improving t w.

(** The growth of a network from a fresh state with the topology [t0]. *)
Definition start (t0 : list entry) : Machine := mkMachine (blank t0) world0.

Definition grown (layers blocks : nat) (t0 : list entry)
    (update : list entry → gmap string Z → exn + (Z * nat * gmap string Z))
    : outcome Machine bool :=
  grow (C := collaborators t0 update) (params layers blocks) data (start t0).

(** The run of [progressive_learn] on a world whose working directory holds
    the checkpoint [c], if any. *)
Definition learnt (layers blocks : nat) (t0 : list entry)
    (update : list entry → gmap string Z → exn + (Z * nat * gmap string Z))
    (c : option TrainState) : outcome World (list (list nat)) :=
  progressive_learn (C := collaborators t0 update) (params layers blocks) data
    (set_workdir (Some c) world0).

(** The checkpoints that a growth wrote, oldest first. *)
Definition checkpoints {A} (o : outcome Machine A) : list TrainState :=
  dumps (trace (world (outcome_state o))).

(** The topology and the weights of the assembled model, if any. *)
Definition model_of {A} (o : outcome World A)
    : option (list entry * list (string * Z)) :=
  (λ md, (md_topology md, map_to_list (md_weights md)))
    <$> model_data (outcome_state o).

(** The initial topology of a network of 8 inputs: the one entry
    [input_dim]. *)
Definition inputs : list entry := [Scalar 8].

(** Collaborators whose search depends on the state it is given: the
    operator index that it returns is twice the number of layers of the
    history. *)
Definition exploring (t0 : list entry)
    (update : list entry → gmap string Z → exn + (Z * nat * gmap string Z))
    : Collaborators :=
  {| check_parameters := inr;
     test_generator := λ _ _ _, true;
     new_states := λ _, blank t0;
     search_cpu := λ _ s _, ((1, 2, 3)%Z, 2 * length (history s));
     search_gpu := λ _ s _, ((1, 2, 3)%Z, 2 * length (history s));
     search_cluster := λ _ s _, ((1, 2, 3)%Z, 2 * length (history s));
     get_random_block_weights := λ '(a, b, c), (a + 10, b + 10, c + 10)%Z;
     block_update := λ t _ w _ _ _, update t w;
     check_convergence := λ new old _ thr, bool_decide (old - new < thr)%Z;
     cuda_of := λ c, device c;
     map_operator_from_index := λ ops _, ops;
     finetune := λ _ _ md, inr (0%nat, 0%Z, md) |}.

(** A training that keeps the weights and improves for the first three
    blocks of the network only. *)
Definition saturating (t : list entry) (w : gmap string Z)
    : exn + (Z * nat * gmap string Z) :=
  if decide (blocks_of t ≤ 3) then improving t w else inr (95%Z, 7%nat, w).

(** A training that never improves and returns the weights without the
    block entry of the second block of the network. *)
Definition forgetting (t : list entry) (w : gmap string Z)
    : exn + (Z * nat * gmap string Z) :=
  inr (50%Z, 7%nat,
       if decide (blocks_of t = 2) then delete "gop_0_1" (delete "gop_1_0" w)
       else w).

(** The world in which the working directory holds the checkpoint [c]. *)
Definition interrupted (c : TrainState) : World :=
  set_workdir (Some (Some c)) world0.

End Demo.

(** * Proofs *)

(** ** The keys of the dictionaries *)

Lemma string_of_uint_sep u1 u2 s1 s2 :
  NilEmpty.string_of_uint u1 +:+ String "_"%char s1
  = NilEmpty.string_of_uint u2 +:+ String "_"%char s2 →
  u1 = u2 ∧ s1 = s2.
Proof.
  revert u2;
    induction u1 as [|u1 IH|u1 IH|u1 IH|u1 IH|u1 IH|u1 IH|u1 IH|u1 IH|u1 IH|u1 IH];
    intros [|u2|u2|u2|u2|u2|u2|u2|u2|u2|u2]; simpl; intros Heq;
    try discriminate Heq;
    try (injection Heq as Heq; destruct (IH _ Heq) as [-> ->]; done).
  by injection Heq as ->.
Qed.

Lemma str_inj n m : str n = str m → n = m.
Proof.
  unfold str. intros Heq. apply Unsigned.to_uint_inj.
  apply (f_equal NilEmpty.uint_of_string) in Heq.
  rewrite !NilEmpty.usu in Heq. congruence.
Qed.

Lemma suffix_inj l b l' b' : suffix l b = suffix l' b' → l = l' ∧ b = b'.
Proof.
  unfold suffix. intros Heq%(inj (String.app "_")).
  change ("_" +:+ str b) with (String "_"%char (str b)) in Heq.
  change ("_" +:+ str b') with (String "_"%char (str b')) in Heq.
  apply string_of_uint_sep in Heq as [Hl Hb].
  split; [by apply Unsigned.to_uint_inj | by apply str_inj].
Qed.

Lemma gop_inj l b l' b' : gop l b = gop l' b' → l = l' ∧ b = b'.
Proof. unfold gop. intros Heq%(inj (String.app "gop")). by apply suffix_inj. Qed.
Lemma bn_inj l b l' b' : bn l b = bn l' b' → l = l' ∧ b = b'.
Proof. unfold bn. intros Heq%(inj (String.app "bn")). by apply suffix_inj. Qed.
Lemma gop_ne_bn l b l' b' : gop l b ≠ bn l' b'.
Proof. unfold gop, bn, String.append. discriminate. Qed.
Lemma gop_ne_output l b : gop l b ≠ "output".
Proof. unfold gop, suffix, String.append. discriminate. Qed.
Lemma bn_ne_output l b : bn l b ≠ "output".
Proof. unfold bn, String.append. discriminate. Qed.

Lemma gop_ne l b l' b' : (l, b) ≠ (l', b') → gop l b ≠ gop l' b'.
Proof. intros Hne Heq. apply gop_inj in Heq as [-> ->]. done. Qed.
Lemma bn_ne l b l' b' : (l, b) ≠ (l', b') → bn l b ≠ bn l' b'.
Proof. intros Hne Heq. apply bn_inj in Heq as [-> ->]. done. Qed.

(** ** Python's list operations *)

Lemma py_pop_inr {A} (l l' : list A) x : py_pop l = inr (x, l') → l = l' ++ [x].
Proof.
  unfold py_pop. destruct l as [|a l0] using rev_ind; [done|].
  rewrite last_snoc, removelast_last. by intros [= -> ->].
Qed.
Lemma py_pop_snoc {A} (l : list A) x : py_pop (l ++ [x]) = inr (x, l).
Proof. unfold py_pop. by rewrite last_snoc, removelast_last. Qed.
Lemma py_last_inr {A} (l : list A) x : py_last l = inr x → last l = Some x.
Proof. unfold py_last. by destruct (last l); intros [= ->]. Qed.
Lemma py_index_inr {A} (l : list A) i x : py_index l i = inr x → l !! i = Some x.
Proof. unfold py_index. by destruct (l !! i); intros [= ->]. Qed.

Lemma py_index_m2_inr {A} (l : list A) e :
  py_index_m2 l = inr e → ∃ pre x, l = pre ++ [e; x].
Proof.
  unfold py_index_m2. case_decide as Hlen; [done|].
  intros Hi%py_index_inr.
  destruct l as [|x l _] using rev_ind; [simpl in Hlen; lia|].
  destruct l as [|y l _] using rev_ind; [simpl in Hlen; lia|].
  rewrite !length_app in Hi. simpl in Hi.
  replace (length l + 1 + 1 - 2) with (length l + 0) in Hi by lia.
  rewrite <- app_assoc in Hi. rewrite lookup_app_r in Hi by lia.
  replace (length l + 0 - length l) with 0 in Hi by lia. simpl in Hi.
  injection Hi as ->. exists l, x. by rewrite <- app_assoc.
Qed.
Lemma py_index_m2_app {A} (pre : list A) e x : py_index_m2 (pre ++ [e; x]) = inr e.
Proof.
  unfold py_index_m2. rewrite length_app. simpl. case_decide; [lia|].
  unfold py_index. replace (length pre + 2 - 2) with (length pre + 0) by lia.
  by rewrite lookup_app_r, Nat.add_0_r, Nat.sub_diag by lia.
Qed.
Lemma insert_m2 {A} (pre : list A) e e' x :
  <[length (pre ++ [e; x]) - 2 := e']> (pre ++ [e; x]) = pre ++ [e'; x].
Proof.
  rewrite length_app. simpl.
  replace (length pre + 2 - 2) with (length pre + 0) by lia.
  by rewrite insert_app_r.
Qed.
Lemma delete_m2 {A} (pre : list A) e x :
  delete (length (pre ++ [e; x]) - 2) (pre ++ [e; x]) = pre ++ [x].
Proof.
  rewrite length_app. simpl.
  replace (length pre + 2 - 2) with (length pre) by lia.
  by rewrite delete_middle.
Qed.
Lemma py_pop_m2_inr {A} (l l' : list A) e :
  py_pop_m2 l = inr (e, l') → ∃ pre x, l = pre ++ [e; x] ∧ l' = pre ++ [x].
Proof.
  unfold py_pop_m2. destruct (py_index_m2 l) as [|e0] eqn:Hi; [done|].
  intros [= -> <-]. apply py_index_m2_inr in Hi as (pre & x & ->).
  exists pre, x. by rewrite delete_m2.
Qed.

Lemma py_getitem_inr {V} (m : gmap string V) k v : py_getitem m k = inr v → m !! k = Some v.
Proof. unfold py_getitem. by destruct (m !! k); intros [= ->]. Qed.
Lemma py_delitem_inr {V} (m m' : gmap string V) k :
  py_delitem m k = inr m' → is_Some (m !! k) ∧ m' = delete k m.
Proof. unfold py_delitem. destruct (m !! k) eqn:?; intros [= <-]; eauto. Qed.

Lemma entry_append_inr v e e' :
  entry_append v e = inr e' → ∃ bl, e = Blocks bl ∧ e' = Blocks (bl ++ [v]).
Proof. destruct e; simpl; intros [= <-]; eauto. Qed.
Lemma entry_pop_inr e e' :
  entry_pop e = inr e' → ∃ bl g, e = Blocks (bl ++ [g]) ∧ e' = Blocks bl.
Proof.
  destruct e as [l| |]; simpl; try done.
  destruct (py_pop l) as [|[g l']] eqn:Hp; [done|]. intros [= <-].
  apply py_pop_inr in Hp as ->. eauto.
Qed.

(** ** Running the monad *)

Section Run.
Context {D : Domains} {C : Collaborators}.

Lemma bind_read {A B} (f : TrainState → A) (k : A → M Machine B) σ :
  (read f ≫= k) σ = k (f (states σ)) σ.
Proof. reflexivity. Qed.
Lemma bind_update {B} (f : TrainState → TrainState) (k : unit → M Machine B) σ :
  (update f ≫= k) σ = k () (mkMachine (f (states σ)) (world σ)).
Proof. reflexivity. Qed.
Lemma bind_outside {B} (f : World → World) (k : unit → M Machine B) σ :
  (outside f ≫= k) σ = k () (mkMachine (states σ) (f (world σ))).
Proof. reflexivity. Qed.
Lemma bind_ret {Σ A B} (a : A) (k : A → M Σ B) (σ : Σ) : (mret a ≫= k) σ = k a σ.
Proof. reflexivity. Qed.
Lemma bind_get {Σ B} (k : Σ → M Σ B) (σ : Σ) : (get ≫= k) σ = k σ σ.
Proof. reflexivity. Qed.
Lemma bind_modify {Σ B} (f : Σ → Σ) (k : unit → M Σ B) (σ : Σ) :
  (modify f ≫= k) σ = k () (f σ).
Proof. reflexivity. Qed.
Lemma bind_lift_inr {Σ A B} (a : A) (k : A → M Σ B) (σ : Σ) :
  (lift_exn (inr a) ≫= k) σ = k a σ.
Proof. reflexivity. Qed.
Lemma bind_lift_inl {Σ A B} e (k : A → M Σ B) (σ : Σ) :
  (lift_exn (inl e) ≫= k) σ = Raised e σ.
Proof. reflexivity. Qed.
Lemma bind_raise {Σ A B} e (k : A → M Σ B) (σ : Σ) :
  (raise e ≫= k) σ = Raised e σ.
Proof. reflexivity. Qed.
Lemma bind_assoc {Σ A B B'} (m : M Σ A) (f : A → M Σ B) (g : B → M Σ B') (σ : Σ) :
  ((m ≫= f) ≫= g) σ = (m ≫= (λ a, f a ≫= g)) σ.
Proof. unfold mbind, M_bind. by destruct (m σ). Qed.
Lemma bind_normal {Σ A B} (m : M Σ A) (k : A → M Σ B) (σ σ' : Σ) b :
  (m ≫= k) σ = Normal b σ' → ∃ a σ1, m σ = Normal a σ1 ∧ k a σ1 = Normal b σ'.
Proof. unfold mbind, M_bind. destruct (m σ); naive_solver. Qed.
Lemma bind_raised {Σ A B} (m : M Σ A) (k : A → M Σ B) (σ σ' : Σ) e :
  (m ≫= k) σ = Raised e σ' →
  m σ = Raised e σ' ∨ ∃ a σ1, m σ = Normal a σ1 ∧ k a σ1 = Raised e σ'.
Proof. unfold mbind, M_bind. destruct (m σ); naive_solver. Qed.

Lemma run_ret {Σ A} (a : A) (σ : Σ) : mret (M := M Σ) a σ = Normal a σ.
Proof. reflexivity. Qed.
Lemma run_raise {Σ A} e (σ : Σ) : raise (A := A) e σ = Raised e σ.
Proof. reflexivity. Qed.
Lemma run_lift_inr {Σ A} (a : A) (σ : Σ) : lift_exn (inr a) σ = Normal a σ.
Proof. reflexivity. Qed.
Lemma run_lift_inl {Σ A} e (σ : Σ) : lift_exn (A := A) (inl e) σ = Raised e σ.
Proof. reflexivity. Qed.
Lemma run_update (f : TrainState → TrainState) σ :
  update f σ = Normal () (mkMachine (f (states σ)) (world σ)).
Proof. reflexivity. Qed.
Lemma run_outside (f : World → World) σ :
  outside f σ = Normal () (mkMachine (states σ) (f (world σ))).
Proof. reflexivity. Qed.
Lemma run_modify {Σ} (f : Σ → Σ) (σ : Σ) : modify f σ = Normal () (f σ).
Proof. reflexivity. Qed.

End Run.

(** Projections of updated records. *)
Ltac rsimpl_in H :=
  cbn [states world topology weights op_set_indices history measure
       layer_iter block_iter is_finished block_output_weight
       layer_output_weight use_bias output_activation
       set_topology set_weights set_op_set_indices set_history set_measure
       set_layer_iter set_block_iter set_is_finished set_block_output_weight
       set_layer_output_weight
       cuda workdir model_data trace set_cuda set_workdir set_model_data emit]
    in H.
Ltac rsimpl :=
  cbn [states world topology weights op_set_indices history measure
       layer_iter block_iter is_finished block_output_weight
       layer_output_weight use_bias output_activation
       set_topology set_weights set_op_set_indices set_history set_measure
       set_layer_iter set_block_iter set_is_finished set_block_output_weight
       set_layer_output_weight
       cuda workdir model_data trace set_cuda set_workdir set_model_data emit].

Ltac mrun H :=
  repeat first
    [ rewrite bind_assoc in H
    | rewrite bind_read in H
    | rewrite bind_update in H
    | rewrite bind_outside in H
    | rewrite bind_ret in H
    | rewrite bind_get in H
    | rewrite bind_modify in H
    | rewrite bind_lift_inr in H
    | rewrite bind_lift_inl in H
    | rewrite bind_raise in H
    | rewrite run_ret in H
    | rewrite run_raise in H
    | rewrite run_lift_inr in H
    | rewrite run_lift_inl in H
    | rewrite run_update in H
    | rewrite run_outside in H
    | rewrite run_modify in H ];
  rsimpl_in H.

(** One step of a run: case analysis on the next fallible operation. *)
Ltac mcase H x Hx :=
  match type of H with
  | (lift_exn ?r ≫= _) _ = _ =>
      destruct r as [?|x] eqn:Hx; mrun H; [try discriminate H|]
  | lift_exn ?r _ = _ =>
      destruct r as [?|x] eqn:Hx; mrun H; [try discriminate H|]
  end.

(** ** What each part of the block body does when it returns *)

Section Parts.
Context {D : Domains} {C : Collaborators}.
Implicit Types (σ : Machine) (p : Params) (d : Data).

Lemma open_layer_normal p L σ u σ' :
  open_layer p L σ = Normal u σ' →
  ∃ base,
    (if decide (0 < L) then ∃ x, topology (states σ) = base ++ [x]
     else base = topology (states σ)) ∧
    σ' = mkMachine
           (set_measure (measure (states σ) ++ [[]])
              (set_history (history (states σ) ++ [[]])
                 (set_topology
                    (base ++ [Blocks []; Tuple "dense" (output_dim p)])
                    (states σ))))
           (world σ).
Proof.
  unfold open_layer. intros H0. destruct (decide (0 < L)).
  - mrun H0. mcase H0 r Hr. destruct r as [x t']. mrun H0.
    apply py_pop_inr in Hr. injection H0 as _ <-.
    exists t'. split; [eauto|]. by rewrite <- app_assoc.
  - mrun H0. injection H0 as _ <-.
    eexists. split; [done|]. by rewrite <- app_assoc.
Qed.

Lemma search_routine_run p d σ :
  ∃ r res, search_routine p d σ
           = Normal res (mkMachine (states σ)
                           (emit (EvSearch r (states σ)) (world σ))).
Proof.
  unfold search_routine. rewrite bind_read.
  destruct (cluster p); [|case_bool_decide]; rewrite bind_outside; eauto.
Qed.

Lemma initial_block_normal p d L k σ bw idx σ' :
  initial_block p d L k σ = Normal (bw, idx) σ' →
  states σ' = states σ ∧
  (k = 0 → ∃ r, world σ' = emit (EvSearch r (states σ)) (world σ)) ∧
  (k ≠ 0 →
     world σ' = world σ ∧
     op_set_indices (states σ) !! gop L (k - 1) = Some idx ∧
     ∃ w0 w1 w2,
       weights (states σ) !! gop L (k - 1) = Some w0 ∧
       weights (states σ) !! bn L (k - 1) = Some w1 ∧
       weights (states σ) !! "output" = Some w2 ∧
       bw = get_random_block_weights (w0, w1, w2)).
Proof.
  unfold initial_block. intros H0. destruct (decide (k = 0)) as [->|Hk].
  - destruct (search_routine_run p d σ) as (r & res & Hs).
    rewrite Hs in H0. injection H0 as _ <-. simpl. split_and!; eauto; done.
  - cbv zeta in H0. mrun H0.
    mcase H0 i Hi. mcase H0 w0 Hw0. mcase H0 w1 Hw1. mcase H0 w2 Hw2.
    injection H0 as <- <- <-.
    apply py_getitem_inr in Hi, Hw0, Hw1, Hw2.
    split_and!; [done..|]. intros _. split_and!; [done..|]. eauto 10.
Qed.

Lemma add_block_normal p L k bw idx σ u σ' :
  add_block p L k bw idx σ = Normal u σ' →
  ∃ pre bl x,
    topology (states σ) = pre ++ [Blocks bl; x] ∧
    σ' = mkMachine
           (set_weights
              (<["output" := bw.2]>
                 (<[bn L k := bw.1.2]>
                    (<[gop L k := bw.1.1]> (weights (states σ)))))
              (set_op_set_indices
                 (<[gop L k := idx]> (op_set_indices (states σ)))
                 (set_topology
                    (pre ++ [Blocks (bl ++ [("gop", block_size p)]); x])
                    (states σ))))
           (world σ).
Proof.
  unfold add_block. cbv zeta. intros H0. mrun H0.
  mcase H0 e He. mcase H0 e' He'. injection H0 as _ <-.
  apply py_index_m2_inr in He as (pre & x & Ht).
  apply entry_append_inr in He' as (bl & -> & ->).
  exists pre, bl, x. split; [done|]. by rewrite Ht, insert_m2.
Qed.

Lemma train_block_normal p d L k σ nm h σ' :
  train_block p d L k σ = Normal (nm, h) σ' →
  ∃ w',
    block_update (topology (states σ)) (op_set_indices (states σ))
      (weights (states σ)) p (block_names L k) d = inr (nm, h, w') ∧
    σ' = mkMachine (set_weights w' (states σ))
           (emit (EvBlockUpdate (topology (states σ))
                    (op_set_indices (states σ)) (weights (states σ))
                    (block_names L k))
              (world σ)).
Proof.
  unfold train_block, set_cuda_variable, call_block_update, reset_cuda_variable.
  intros H0. mrun H0.
  destruct (block_update _ _ _ _ _ _) as [err|[[nm' h'] w']] eqn:Hb;
    mrun H0; [done|].
  injection H0 as <- <- <-. exists w'. split; [done|]. by destruct σ as [s []].
Qed.

Lemma block_converged_normal p L k nm σ b σ' :
  block_converged p L k nm σ = Normal b σ' →
  σ' = σ ∧
  (k = 0 → b = false) ∧
  (0 < k →
     ∃ ml previous,
       measure (states σ) !! L = Some ml ∧ ml !! (k - 1) = Some previous ∧
       b = check_convergence nm previous (direction p) (block_threshold p)).
Proof.
  unfold block_converged. intros H0. destruct (decide (0 < k)) as [Hk|Hk].
  - mrun H0. mcase H0 ml Hml. mcase H0 pr Hpr. injection H0 as <- <-.
    apply py_index_inr in Hml, Hpr. split_and!; [done|lia|eauto].
  - injection H0 as <- <-. split_and!; [done..|lia].
Qed.

Lemma dump_normal σ u σ' :
  dump σ = Normal u σ' →
  is_Some (workdir (world σ)) ∧
  σ' = mkMachine (states σ)
         (emit (EvDump (states σ)) (set_workdir (Some (Some (states σ))) (world σ))).
Proof.
  unfold dump. intros H0. mrun H0.
  destruct (workdir (world σ)) eqn:Hw; [|done].
  injection H0 as _ <-. split; [eauto|done].
Qed.

Lemma rollback_block_normal L k σ u σ' :
  rollback_block L k σ = Normal u σ' →
  ∃ pre bl g x out,
    topology (states σ) = pre ++ [Blocks (bl ++ [g]); x] ∧
    is_Some (weights (states σ) !! gop L k) ∧
    is_Some (weights (states σ) !! bn L k) ∧
    is_Some (op_set_indices (states σ) !! gop L k) ∧
    block_output_weight (states σ) = Some out ∧
    is_Some (workdir (world σ)) ∧
    let s' :=
      set_layer_iter (layer_iter (states σ) + 1)
        (set_block_iter 0
           (set_weights
              (<["output" := out]>
                 (delete (bn L k) (delete (gop L k) (weights (states σ)))))
              (set_op_set_indices
                 (delete (gop L k) (op_set_indices (states σ)))
                 (set_topology (pre ++ [Blocks bl; x]) (states σ))))) in
    σ' = mkMachine s' (emit (EvDump s') (set_workdir (Some (Some s')) (world σ))).
Proof.
  unfold rollback_block. cbv zeta. intros H0. mrun H0.
  mcase H0 e He. mcase H0 e' He'. cbn [weights set_topology] in H0.
  mcase H0 wa Hwa. cbn [weights set_weights] in H0.
  mcase H0 wb Hwb. cbn [op_set_indices set_weights] in H0.
  mcase H0 oa Hoa. cbn [block_output_weight set_op_set_indices] in H0.
  destruct (block_output_weight (states σ)) as [out|] eqn:Hout;
    cbn [from_option] in H0; mrun H0; [|done].
  apply dump_normal in H0 as [Hwd ->].
  apply py_index_m2_inr in He as (pre & x & Ht).
  apply entry_pop_inr in He' as (bl & g & -> & ->).
  apply py_delitem_inr in Hwa as [Ha ->].
  apply py_delitem_inr in Hwb as [Hb ->].
  apply py_delitem_inr in Hoa as [Ho ->].
  rewrite lookup_delete_ne in Hb by apply gop_ne_bn.
  exists pre, bl, g, x, out. split_and!; [done..|].
  cbn [states world]. rewrite Ht, insert_m2. reflexivity.
Qed.

Lemma commit_block_normal p L k nm h σ u σ' :
  commit_block p L k nm h σ = Normal u σ' →
  ∃ out ml hl,
    weights (states σ) !! "output" = Some out ∧
    measure (states σ) !! L = Some ml ∧
    history (states σ) !! L = Some hl ∧
    is_Some (workdir (world σ)) ∧
    let s' :=
      set_block_iter
        (if bool_decide (Z.of_nat k = (Z.of_nat (max_block p) - 1)%Z)
         then 0 else k + 1)
        (set_history (<[L := hl ++ [h]]> (history (states σ)))
           (set_measure (<[L := ml ++ [nm]]> (measure (states σ)))
              (set_block_output_weight (Some out) (states σ)))) in
    σ' = mkMachine s' (emit (EvDump s') (set_workdir (Some (Some s')) (world σ))).
Proof.
  unfold commit_block. intros H0. mrun H0.
  mcase H0 out Hout. cbn [measure set_block_output_weight] in H0.
  mcase H0 ml Hml. cbn [history set_measure set_block_output_weight] in H0.
  mcase H0 hl Hhl.
  apply dump_normal in H0 as [Hwd ->].
  apply py_getitem_inr in Hout. apply py_index_inr in Hml, Hhl.
  exists out, ml, hl. split_and!; done.
Qed.

End Parts.

(** ** What the block body, the layer check and the layer closing do *)

Section Bodies.
Context {D : Domains} {C : Collaborators}.
Implicit Types (σ : Machine) (p : Params) (d : Data).

Lemma layer_base_snoc L (t : list entry) y :
  0 < L → layer_base L (t ++ [y]) = t.
Proof. intros. unfold layer_base. case_decide; [|lia]. apply removelast_last. Qed.

Lemma opened_ne p L k (s : TrainState) : k ≠ 0 → opened p L k s = s.
Proof. intros. unfold opened. by case_decide. Qed.

Lemma block_body_normal p d L k σ b σ' :
  block_body p d L k σ = Normal b σ' →
  ∃ pre bl x bw idx nm h w' sev,
    let s1 := opened p L k (states σ) in
    let s2 := added p L k bw idx pre bl x s1 in
    let s3 := set_weights w' s2 in
    topology s1 = pre ++ [Blocks bl; x] ∧
    (k = 0 → pre = layer_base L (topology (states σ)) ∧ bl = [] ∧
             (0 < L → topology (states σ) ≠ []) ∧
             ∃ r, sev = [EvSearch r s1]) ∧
    (k ≠ 0 →
       sev = [] ∧
       op_set_indices (states σ) !! gop L (k - 1) = Some idx ∧
       ∃ w0 w1 w2,
         weights (states σ) !! gop L (k - 1) = Some w0 ∧
         weights (states σ) !! bn L (k - 1) = Some w1 ∧
         weights (states σ) !! "output" = Some w2 ∧
         bw = get_random_block_weights (w0, w1, w2)) ∧
    block_update (topology s2) (op_set_indices s2) (weights s2) p
      (block_names L k) d = inr (nm, h, w') ∧
    is_Some (workdir (world σ)) ∧
    (if b then
       0 < k ∧
       (∃ ml previous,
          measure s1 !! L = Some ml ∧ ml !! (k - 1) = Some previous ∧
          check_convergence nm previous (direction p) (block_threshold p)
          = true) ∧
       is_Some (w' !! gop L k) ∧ is_Some (w' !! bn L k) ∧
       ∃ out, block_output_weight s1 = Some out ∧
              states σ' = rolled_back L k out pre bl x s3
     else
       (0 < k →
          ∃ ml previous,
            measure s1 !! L = Some ml ∧ ml !! (k - 1) = Some previous ∧
            check_convergence nm previous (direction p) (block_threshold p)
            = false) ∧
       ∃ out ml hl,
         w' !! "output" = Some out ∧ measure s1 !! L = Some ml ∧
         history s1 !! L = Some hl ∧
         states σ' = committed p L k out ml nm hl h s3) ∧
    cuda (world σ') = cuda (world σ) ∧
    model_data (world σ') = model_data (world σ) ∧
    workdir (world σ') = Some (Some (states σ')) ∧
    trace (world σ')
    = trace (world σ) ++ sev
      ++ [EvBlockUpdate (topology s2) (op_set_indices s2) (weights s2)
            (block_names L k);
          EvDump (states σ')].
Proof.
  unfold block_body. intros H0.
  apply bind_normal in H0 as ([] & σ1 & Hopen & H0).
  apply bind_normal in H0 as ([bw idx] & σ2 & Hinit & H0).
  apply bind_normal in H0 as ([] & σ3 & Hadd & H0).
  apply bind_normal in H0 as ([nm h] & σ4 & Htrain & H0).
  apply bind_normal in H0 as (c & σ5 & Hconv & H0).
  apply initial_block_normal in Hinit as (Hs2 & Hi0 & Hi1).
  apply add_block_normal in Hadd as (pre & bl & x & Ht & ->).
  apply train_block_normal in Htrain as (w' & Hbu & ->).
  apply block_converged_normal in Hconv as (-> & Hc0 & Hc1).
  rsimpl_in Hbu. rsimpl_in Hc1.
  assert (Hs1 : states σ1 = opened p L k (states σ) ∧ world σ1 = world σ ∧
                (k = 0 → pre = layer_base L (topology (states σ)) ∧ bl = [] ∧
                   (0 < L → topology (states σ) ≠ []))).
  { unfold opened. destruct (decide (k = 0)) as [->|Hk].
    - apply open_layer_normal in Hopen as (base & Hbase & ->). rsimpl.
      rewrite Hs2 in Ht. rsimpl_in Ht.
      assert (base = layer_base L (topology (states σ))) as Hb.
      { unfold layer_base. destruct (decide (0 < L)); [|done].
        destruct Hbase as [y ->]. by rewrite removelast_last. }
      split_and!; [by rewrite Hb|done|]. intros _.
      change [Blocks []; Tuple "dense" (output_dim p)]
        with ([Blocks []] ++ [Tuple "dense" (output_dim p)]) in Ht.
      change [Blocks bl; x] with ([Blocks bl] ++ [x]) in Ht.
      rewrite !app_assoc in Ht.
      apply app_inj_tail in Ht as [Ht _]. apply app_inj_tail in Ht as [Ht Hbl].
      injection Hbl as <-. split_and!; [congruence|done|].
      intros HL. destruct (decide (0 < L)); [|lia].
      destruct Hbase as [y ->]. by destruct base.
    - injection Hopen as <-. split_and!; done. }
  destruct Hs1 as (Hs1 & Hw1 & Hk0).
  assert (∃ sev, trace (world σ2) = trace (world σ) ++ sev ∧
                 cuda (world σ2) = cuda (world σ) ∧
                 model_data (world σ2) = model_data (world σ) ∧
                 workdir (world σ2) = workdir (world σ) ∧
                 (k = 0 → ∃ r, sev = [EvSearch r (opened p L k (states σ))]) ∧
                 (k ≠ 0 → sev = [])) as (sev & Htr & Hcu & Hmd & Hwd & Hsev0 & Hsev1).
  { destruct (decide (k = 0)) as [Hk|Hk].
    - destruct (Hi0 Hk) as [r Hr]. exists [EvSearch r (states σ1)].
      rewrite Hr, <- Hw1, <- Hs1. rsimpl. split_and!; eauto; done.
    - destruct (Hi1 Hk) as (Hr & _). exists [].
      rewrite Hr, Hw1, app_nil_r. split_and!; done. }
  rewrite Hs2, Hs1 in *. clear Hs2 Hs1.
  exists pre, bl, x, bw, idx, nm, h, w', sev. cbv zeta.
  split; [done|]. split.
  { intros Hk. destruct (Hk0 Hk) as (? & ? & ?). split_and!; auto. }
  split.
  { intros Hk. destruct (Hi1 Hk) as (_ & Hi & Hw). rewrite opened_ne in Hi, Hw by done.
    split_and!; auto. }
  split; [done|].
  destruct c.
  - apply bind_normal in H0 as ([] & σ6 & Hrb & H0). injection H0 as <- <-.
    apply rollback_block_normal in Hrb
      as (pre' & bl' & g & x' & out & Ht' & Hg & Hb & Ho & Hout & Hdir & ->).
    rsimpl_in Ht'. rsimpl_in Hg. rsimpl_in Hb. rsimpl_in Hout. rsimpl_in Hdir.
    change [Blocks (bl' ++ [g]); x'] with ([Blocks (bl' ++ [g])] ++ [x']) in Ht'.
    change [Blocks (bl ++ [("gop", block_size p)]); x]
      with ([Blocks (bl ++ [("gop", block_size p)])] ++ [x]) in Ht'.
    rewrite !app_assoc in Ht'.
    apply app_inj_tail in Ht' as [Ht' <-]. apply app_inj_tail in Ht' as [<- Hbl].
    injection Hbl as Hbl. apply app_inj_tail in Hbl as [<- _].
    assert (0 < k) as Hk by (destruct k; [by specialize (Hc0 eq_refl)|lia]).
    destruct (Hc1 Hk) as (ml & pr & Hml & Hpr & Hcc).
    split; [by rewrite <- Hwd|]. split.
    { split_and!; [done|eauto|done|done|]. exists out. split; [done|].
      rsimpl. reflexivity. }
    rsimpl. rewrite Hcu, Hmd, Htr. split_and!; [done..|].
    by rewrite <- !app_assoc.
  - apply bind_normal in H0 as ([] & σ6 & Hcm & H0). injection H0 as <- <-.
    apply commit_block_normal in Hcm as (out & ml & hl & Hout & Hml & Hhl & Hdir & ->).
    rsimpl_in Hout. rsimpl_in Hml. rsimpl_in Hhl. rsimpl_in Hdir.
    split; [by rewrite <- Hwd|]. split.
    { split.
      - intros Hk. destruct (Hc1 Hk) as (ml' & pr & ? & ? & ?). eauto.
      - exists out, ml, hl. split_and!; [done..|]. rsimpl. reflexivity. }
    rsimpl. rewrite Hcu, Hmd, Htr. split_and!; [done..|].
    by rewrite <- !app_assoc.
Qed.


Lemma delete_blocks_normal L idxs σ u σ' :
  delete_blocks L idxs σ = Normal u σ' →
  σ' = mkMachine
         (set_op_set_indices
            (delete_layer_ops L idxs (op_set_indices (states σ)))
            (set_weights (delete_layer_weights L idxs (weights (states σ)))
               (states σ)))
         (world σ).
Proof.
  revert σ. induction idxs as [|i idxs IH]; intros σ H0.
  - injection H0 as _ <-. by destruct σ as [[] ?].
  - cbn [delete_blocks] in H0. cbv zeta in H0. mrun H0.
    mcase H0 wa Hwa. mcase H0 wb Hwb. mcase H0 oa Hoa.
    apply py_delitem_inr in Hwa as [_ ->]. apply py_delitem_inr in Hwb as [_ ->].
    apply py_delitem_inr in Hoa as [_ ->].
    apply IH in H0 as ->. reflexivity.
Qed.

Lemma delete_layer_weights_cons L i idxs (w : gmap string Weight) :
  delete_layer_weights L (i :: idxs) w
  = delete_layer_weights L idxs (delete (bn L i) (delete (gop L i) w)).
Proof. reflexivity. Qed.
Lemma delete_layer_ops_cons L i idxs (ops : gmap string OpIdx) :
  delete_layer_ops L (i :: idxs) ops
  = delete_layer_ops L idxs (delete (gop L i) ops).
Proof. reflexivity. Qed.

Lemma delete_layer_weights_other L idxs (w : gmap string Weight) key :
  (∀ i, i ∈ idxs → key ≠ gop L i ∧ key ≠ bn L i) →
  delete_layer_weights L idxs w !! key = w !! key.
Proof.
  revert w. induction idxs as [|i idxs IH]; intros w Hk; [done|].
  rewrite delete_layer_weights_cons.
  rewrite IH by (intros; apply Hk; by right).
  destruct (Hk i) as [??]; [by left|].
  by rewrite !lookup_delete_ne.
Qed.
Lemma delete_layer_weights_gone L idxs (w : gmap string Weight) i :
  i ∈ idxs →
  delete_layer_weights L idxs w !! gop L i = None ∧
  delete_layer_weights L idxs w !! bn L i = None.
Proof.
  revert w. induction idxs as [|j idxs IH]; intros w Hi; [by inversion Hi|].
  rewrite delete_layer_weights_cons.
  destruct (decide (i ∈ idxs)) as [Hin|Hnin]; [by apply IH|].
  assert (i = j) as -> by (by inversion Hi).
  rewrite !delete_layer_weights_other.
  - rewrite lookup_delete_ne by (apply not_eq_sym, gop_ne_bn).
    by rewrite !lookup_delete_eq.
  - intros i Hi'. split; [apply not_eq_sym, gop_ne_bn|].
    apply bn_ne. congruence.
  - intros i Hi'. split; [|apply gop_ne_bn]. apply gop_ne. congruence.
Qed.
Lemma delete_layer_ops_other L idxs (ops : gmap string OpIdx) key :
  (∀ i, i ∈ idxs → key ≠ gop L i) →
  delete_layer_ops L idxs ops !! key = ops !! key.
Proof.
  revert ops. induction idxs as [|i idxs IH]; intros ops Hk; [done|].
  rewrite delete_layer_ops_cons.
  rewrite IH by (intros; apply Hk; by right).
  rewrite lookup_delete_ne; [done|]. apply not_eq_sym, Hk. by left.
Qed.
Lemma delete_layer_ops_gone L idxs (ops : gmap string OpIdx) i :
  i ∈ idxs → delete_layer_ops L idxs ops !! gop L i = None.
Proof.
  revert ops. induction idxs as [|j idxs IH]; intros ops Hi; [by inversion Hi|].
  rewrite delete_layer_ops_cons.
  destruct (decide (i ∈ idxs)) as [Hin|Hnin]; [by apply IH|].
  assert (i = j) as -> by (by inversion Hi).
  rewrite delete_layer_ops_other, lookup_delete_eq; [done|].
  intros i Hi'. apply gop_ne. congruence.
Qed.

Lemma layer_check_first p σ : layer_check p 0 σ = Normal false σ.
Proof. reflexivity. Qed.

Lemma layer_check_normal p L σ b σ' :
  layer_check p L σ = Normal b σ' →
  (b = false ∧ σ' = σ) ∨
  (b = true ∧ 0 < L ∧
   ∃ ml new ml' old pre e x n out h hl,
     measure (states σ) !! L = Some ml ∧ last ml = Some new ∧
     measure (states σ) !! (L - 1) = Some ml' ∧ last ml' = Some old ∧
     check_convergence new old (direction p) (layer_threshold p) = true ∧
     topology (states σ) = pre ++ [e; x] ∧ entry_len e = inr n ∧
     layer_output_weight (states σ) = Some out ∧
     history (states σ) = h ++ [hl] ∧
     σ' = mkMachine (layer_rolled_back L n out pre x h (states σ)) (world σ)).
Proof.
  unfold layer_check. intros H0. destruct (decide (0 < L)) as [HL|HL].
  2:{ injection H0 as <- <-. by left. }
  mrun H0. mcase H0 ml Hml. mcase H0 new Hnew. mcase H0 ml' Hml'.
  mcase H0 old Hold.
  destruct (check_convergence _ _ _ _) eqn:Hcc.
  2:{ injection H0 as <- <-. by left. }
  mrun H0. mcase H0 r Hr. destruct r as [e t']. mrun H0.
  mcase H0 n Hn.
  apply bind_normal in H0 as ([] & σ1 & Hdel & H0).
  apply delete_blocks_normal in Hdel as ->. mrun H0.
  destruct (layer_output_weight (states σ)) as [out|] eqn:Hout;
    cbn [from_option] in H0; mrun H0; [|done].
  mcase H0 r Hh. destruct r as [hl h]. mrun H0. injection H0 as <- <-.
  apply py_index_inr in Hml, Hml'. apply py_last_inr in Hnew, Hold.
  apply py_pop_m2_inr in Hr as (pre & x & Ht & ->).
  apply py_pop_inr in Hh.
  right. split_and!; [done..|].
  exists ml, new, ml', old, pre, e, x, n, out, h, hl. split_and!; done.
Qed.

Lemma layer_close_normal p L bs σ b σ' :
  layer_close p L bs σ = Normal b σ' →
  (b = true ∧ layer_check p L σ = Normal true σ') ∨
  (b = false ∧ layer_check p L σ = Normal false σ ∧
   ∃ out, weights (states σ) !! "output" = Some out ∧
     σ' = mkMachine
            (set_layer_output_weight (Some out)
               (set_layer_iter
                  (if bs then layer_iter (states σ)
                   else layer_iter (states σ) + 1) (states σ)))
            (world σ)).
Proof.
  unfold layer_close. intros H0.
  apply bind_normal in H0 as (c & σ1 & Hc & H0). destruct c.
  - injection H0 as <- <-. by left.
  - assert (σ1 = σ) as ->.
    { apply layer_check_normal in Hc as [[_ ?]|[? _]]; done. }
    right. destruct bs; mrun H0; mcase H0 out Hout; injection H0 as <- <-;
      apply py_getitem_inr in Hout; split_and!; try done;
      exists out; (split; [done|]); by destruct σ as [[] ?].
Qed.

End Bodies.

(** ** What an exception leaves behind *)

(** A step of a run that ends with an exception: either the next fallible
    operation raises, leaving the world as it is, or the run goes on. *)
Ltac mquiet H :=
  first [ injection H as <- <-; reflexivity | idtac ].
Ltac mraise H x Hx :=
  match type of H with
  | (lift_exn ?r ≫= _) _ = _ =>
      destruct r as [?|x] eqn:Hx; mrun H; [mquiet H|]
  | lift_exn ?r _ = _ =>
      destruct r as [?|x] eqn:Hx; mrun H; [mquiet H|]
  end.

Section Raised.
Context {D : Domains} {C : Collaborators}.
Implicit Types (σ : Machine) (p : Params) (d : Data).

Lemma open_layer_raised p L σ e σ' :
  open_layer p L σ = Raised e σ' → world σ' = world σ.
Proof.
  unfold open_layer. intros H0. destruct (decide (0 < L)); mrun H0; [|done].
  mraise H0 r Hr. by destruct r.
Qed.

Lemma initial_block_raised p d L k σ e σ' :
  initial_block p d L k σ = Raised e σ' → world σ' = world σ.
Proof.
  unfold initial_block. intros H0. destruct (decide (k = 0)).
  - destruct (search_routine_run p d σ) as (r & res & Hs). congruence.
  - cbv zeta in H0. mrun H0.
    mraise H0 i Hi. mraise H0 w0 Hw0. mraise H0 w1 Hw1. mraise H0 w2 Hw2. done.
Qed.

Lemma add_block_raised p L k bw idx σ e σ' :
  add_block p L k bw idx σ = Raised e σ' → world σ' = world σ.
Proof.
  unfold add_block. cbv zeta. intros H0. mrun H0.
  mraise H0 x Hx. mraise H0 x' Hx'. done.
Qed.

Lemma train_block_raised p d L k σ e σ' :
  train_block p d L k σ = Raised e σ' →
  e = fatal ∧
  (∃ err, block_update (topology (states σ)) (op_set_indices (states σ))
            (weights (states σ)) p (block_names L k) d = inl err) ∧
  states σ' = states σ ∧
  world σ' = emit (EvBlockUpdate (topology (states σ))
                     (op_set_indices (states σ)) (weights (states σ))
                     (block_names L k)) (world σ).
Proof.
  unfold train_block, set_cuda_variable, call_block_update, reset_cuda_variable.
  intros H0. mrun H0.
  destruct (block_update _ _ _ _ _ _) as [err|[[nm' h'] w']] eqn:Hb;
    mrun H0; [|done].
  injection H0 as <- <-. split_and!; eauto; by destruct σ as [s []].
Qed.

Lemma block_converged_raised p L k nm σ e σ' :
  block_converged p L k nm σ = Raised e σ' → world σ' = world σ.
Proof.
  unfold block_converged. intros H0. destruct (decide (0 < k)); [|done].
  mrun H0. mraise H0 ml Hml. mraise H0 pr Hpr. done.
Qed.

Lemma dump_raised σ e σ' :
  dump σ = Raised e σ' → σ' = σ ∧ e = IOError.
Proof.
  unfold dump. intros H0. mrun H0.
  destruct (workdir (world σ)); [done|]. by injection H0 as <- <-.
Qed.

Lemma rollback_block_raised L k σ e σ' :
  rollback_block L k σ = Raised e σ' → world σ' = world σ.
Proof.
  unfold rollback_block. cbv zeta. intros H0. mrun H0.
  mraise H0 x Hx. mraise H0 x' Hx'. mraise H0 wa Hwa. mraise H0 wb Hwb.
  mraise H0 oa Hoa. mraise H0 out Hout.
  by apply dump_raised in H0 as [-> ->].
Qed.

Lemma commit_block_raised p L k nm h σ e σ' :
  commit_block p L k nm h σ = Raised e σ' → world σ' = world σ.
Proof.
  unfold commit_block. intros H0. mrun H0.
  mraise H0 out Hout. mraise H0 ml Hml. mraise H0 hl Hhl.
  by apply dump_raised in H0 as [-> ->].
Qed.

Lemma emits_refl (w : World) : emits w w [].
Proof. unfold emits. by rewrite app_nil_r. Qed.
Lemma emits_trans (w1 w2 w3 : World) e1 e2 :
  emits w1 w2 e1 → emits w2 w3 e2 → emits w1 w3 (e1 ++ e2).
Proof.
  unfold emits, disk_after. intros (-> & -> & Ht1 & Hd1) (-> & -> & Ht2 & Hd2).
  rewrite foldl_app, <- Hd1, <- Hd2, Ht2, Ht1, app_assoc. done.
Qed.
Lemma emits_same (w w' : World) : w' = w → emits w w' [].
Proof. intros ->. apply emits_refl. Qed.

Lemma dumps_app (e1 e2 : list Event) : dumps (e1 ++ e2) = dumps e1 ++ dumps e2.
Proof. unfold dumps. apply omap_app. Qed.

Lemma run_shape_app {Σ A} p d (o : outcome Σ A) e1 e2 :
  Forall (trained p d) e1 → run_shape p d o e2 → run_shape p d o (e1 ++ e2).
Proof.
  intros H1. destruct o as [a σ|e σ]; simpl.
  - intros H2. by apply Forall_app.
  - intros [H2|(pre & ev & -> & H2 & Hf & ->)].
    + left. by apply Forall_app.
    + right. exists (e1 ++ pre), ev. rewrite app_assoc.
      split_and!; [done| by apply Forall_app |done..].
Qed.

Lemma block_body_effect p d L k σ :
  ∃ evs,
    emits (world σ) (world (outcome_state (block_body p d L k σ))) evs ∧
    run_shape p d (block_body p d L k σ) evs ∧
    dumps evs = match block_body p d L k σ with
                | Normal _ σ' => [states σ']
                | Raised _ _ => []
                end.
Proof.
  destruct (block_body p d L k σ) as [b σ'|e σ'] eqn:H0.
  - apply block_body_normal in H0
      as (pre & bl & x & bw & idx & nm & h & w' & sev & H0).
    cbv zeta in H0.
    destruct H0 as (_ & Hk0 & Hk1 & Hbu & _ & _ & Hcu & Hmd & Hwd & Htr).
    eexists. split_and!.
    + split_and!; [done..|exact Htr|].
      unfold disk_after. rewrite foldl_app. simpl. by rewrite Hwd.
    + simpl. apply Forall_app. split.
      * destruct (decide (k = 0)) as [Hk|Hk].
        -- destruct (Hk0 Hk) as (_ & _ & _ & r & ->). by repeat constructor.
        -- destruct (Hk1 Hk) as (-> & _). constructor.
      * repeat constructor. simpl. eauto.
    + rewrite dumps_app. simpl.
      destruct (decide (k = 0)) as [Hk|Hk].
      * by destruct (Hk0 Hk) as (_ & _ & _ & r & ->).
      * by destruct (Hk1 Hk) as (-> & _).
  - unfold block_body in H0. simpl.
    assert (∀ σ1, world σ1 = world σ → world σ' = world σ1 →
              ∃ evs, emits (world σ) (world σ') evs ∧
                     run_shape p d (Raised (A := bool) e σ') evs ∧
                     dumps evs = []) as Hquiet.
    { intros σ1 H1 H2. exists []. split_and!; [|by left|done].
      apply emits_same. congruence. }
    apply bind_raised in H0 as [H0|([] & σ1 & Hopen & H0)].
    { destruct (decide (k = 0)); [|done].
      apply open_layer_raised in H0. by eapply (Hquiet σ). }
    assert (world σ1 = world σ) as Hw1.
    { destruct (decide (k = 0)).
      - by apply open_layer_normal in Hopen as (? & _ & ->).
      - by injection Hopen as <-. }
    apply bind_raised in H0 as [H0|([bw idx] & σ2 & Hinit & H0)].
    { apply initial_block_raised in H0. by eapply (Hquiet σ1). }
    assert (∃ sev, emits (world σ) (world σ2) sev ∧ Forall (trained p d) sev
                   ∧ dumps sev = []) as (sev & Hsev & Hsevt & Hsevd).
    { apply initial_block_normal in Hinit as (_ & Hi0 & Hi1).
      destruct (decide (k = 0)) as [Hk|Hk].
      - destruct (Hi0 Hk) as [r Hr]. exists [EvSearch r (states σ1)].
        split_and!; [|by repeat constructor|done].
        rewrite Hr, Hw1. by split_and!.
      - destruct (Hi1 Hk) as [Hr _]. exists []. split_and!; [|done..].
        apply emits_same. congruence. }
    assert (∀ σ3, world σ3 = world σ2 → world σ' = world σ3 →
              ∃ evs, emits (world σ) (world σ') evs ∧
                     run_shape p d (Raised (A := bool) e σ') evs ∧
                     dumps evs = []) as Hquiet2.
    { intros σ3 H3 H4. exists sev. split_and!; [|by left|done].
      rewrite H4, H3. done. }
    apply bind_raised in H0 as [H0|([] & σ3 & Hadd & H0)].
    { apply add_block_raised in H0. by eapply (Hquiet2 σ2). }
    apply add_block_normal in Hadd as (pre & bl & x & _ & Hσ3).
    assert (world σ3 = world σ2) as Hw3 by by subst σ3.
    apply bind_raised in H0 as [H0|([nm h] & σ4 & Htrain & H0)].
    { apply train_block_raised in H0 as (-> & Herr & _ & Hw).
      eexists (sev ++ [_]). split_and!.
      - eapply emits_trans; [exact Hsev|]. rewrite Hw, Hw3. by split_and!.
      - right. eexists _, _. split_and!; [done..|exact Herr|done].
      - rewrite dumps_app, Hsevd. done. }
    apply train_block_normal in Htrain as (w' & Hbu & Hσ4).
    set (ev := EvBlockUpdate (topology (states σ3)) (op_set_indices (states σ3))
                 (weights (states σ3)) (block_names L k)) in *.
    assert (emits (world σ) (world σ4) (sev ++ [ev])) as Hev.
    { eapply emits_trans; [exact Hsev|]. rewrite Hσ4, <- Hw3. by split_and!. }
    assert (world σ' = world σ4 →
              ∃ evs, emits (world σ) (world σ') evs ∧
                     run_shape p d (Raised (A := bool) e σ') evs ∧
                     dumps evs = []) as Hquiet4.
    { intros H4. exists (sev ++ [ev]). split_and!.
      - by rewrite H4.
      - left. apply Forall_app. split; [done|].
        repeat constructor. simpl. eauto.
      - by rewrite dumps_app, Hsevd. }
    apply bind_raised in H0 as [H0|(c & σ5 & Hconv & H0)].
    { apply block_converged_raised in H0. by eapply Hquiet4. }
    apply block_converged_normal in Hconv as (-> & _).
    destruct c.
    + apply bind_raised in H0 as [H0|([] & σ6 & _ & H0)]; [|done].
      apply rollback_block_raised in H0. by eapply Hquiet4.
    + apply bind_raised in H0 as [H0|([] & σ6 & _ & H0)]; [|done].
      apply commit_block_raised in H0. by eapply Hquiet4.
Qed.

(** *** The effect of the loops *)

Lemma effect_ok_bind {A B} p d (m : M Machine A) (k : A → M Machine B) σ :
  effect_ok p d m σ →
  (∀ a σ1, m σ = Normal a σ1 → effect_ok p d (k a) σ1) →
  effect_ok p d (m ≫= k) σ.
Proof.
  intros (e1 & Hem & Hsh) Hk. unfold effect_ok, mbind, M_bind.
  destruct (m σ) as [a σ1|e σ1] eqn:Hm; simpl in *.
  - destruct (Hk a σ1 eq_refl) as (e2 & Hem2 & Hsh2).
    exists (e1 ++ e2). split; [by eapply emits_trans|by apply run_shape_app].
  - by exists e1.
Qed.

Lemma effect_ok_quiet {A} p d (m : M Machine A) σ :
  world (outcome_state (m σ)) = world σ → effect_ok p d m σ.
Proof.
  intros Hw. exists []. split; [by apply emits_same|].
  destruct (m σ); simpl; [done|by left].
Qed.

Lemma effect_ok_read {A B} p d (f : TrainState → A) (k : A → M Machine B) σ :
  effect_ok p d (k (f (states σ))) σ → effect_ok p d (read f ≫= k) σ.
Proof. intros H0. exact H0. Qed.

Lemma block_body_effect_ok p d L k σ : effect_ok p d (block_body p d L k) σ.
Proof.
  destruct (block_body_effect p d L k σ) as (evs & ? & ? & _). by exists evs.
Qed.

Lemma block_loop_effect_ok p d L its σ : effect_ok p d (block_loop p d L its) σ.
Proof.
  revert σ. induction its as [|k its IH]; intros σ.
  - by apply effect_ok_quiet.
  - cbn [block_loop]. apply effect_ok_bind; [apply block_body_effect_ok|].
    intros [] σ1 _; [by apply effect_ok_quiet|apply IH].
Qed.

Lemma delete_blocks_raised L idxs σ e σ' :
  delete_blocks L idxs σ = Raised e σ' → world σ' = world σ.
Proof.
  revert σ. induction idxs as [|i idxs IH]; intros σ H0; [done|].
  cbn [delete_blocks] in H0. cbv zeta in H0. mrun H0.
  mraise H0 wa Hwa. mraise H0 wb Hwb. mraise H0 oa Hoa.
  by apply IH in H0.
Qed.

Lemma layer_check_quiet p L σ :
  world (outcome_state (layer_check p L σ)) = world σ.
Proof.
  destruct (layer_check p L σ) as [b σ'|e σ'] eqn:H0; simpl.
  - apply layer_check_normal in H0 as [[_ ->]|(_ & _ & H0)]; [done|].
    destruct H0 as (?&?&?&?&?&?&?&?&?&?&?&H0). by destruct_and!; subst σ'.
  - unfold layer_check in H0. destruct (decide (0 < L)); [|done].
    mrun H0. mraise H0 ml Hml. mraise H0 new Hnew. mraise H0 ml' Hml'.
    mraise H0 old Hold. destruct (check_convergence _ _ _ _); [|done].
    mrun H0. mraise H0 r Hr. destruct r as [x t']. mrun H0.
    mraise H0 n Hn.
    apply bind_raised in H0 as [H0|([] & σ1 & Hdel & H0)].
    { by apply delete_blocks_raised in H0. }
    apply delete_blocks_normal in Hdel as ->. mrun H0.
    mraise H0 out Hout. mraise H0 r Hh. by destruct r.
Qed.

Lemma layer_close_quiet p L bs σ :
  world (outcome_state (layer_close p L bs σ)) = world σ.
Proof.
  pose proof (layer_check_quiet p L σ) as Hq.
  destruct (layer_close p L bs σ) as [b σ'|e σ'] eqn:H0; simpl.
  - apply layer_close_normal in H0 as [[_ Hc]|(_ & _ & out & _ & ->)]; [|done].
    by rewrite Hc in Hq.
  - unfold layer_close in H0.
    apply bind_raised in H0 as [H0|(c & σ1 & Hc & H0)].
    { by rewrite H0 in Hq. }
    rewrite Hc in Hq. simpl in Hq. rewrite <- Hq.
    destruct c; [done|].
    destruct bs; mrun H0; mraise H0 out Hout; done.
Qed.

Lemma layer_body_effect_ok p d L σ : effect_ok p d (layer_body p d L) σ.
Proof.
  unfold layer_body. apply effect_ok_read.
  apply effect_ok_bind; [apply block_loop_effect_ok|].
  intros bs σ1 _. apply effect_ok_quiet, layer_close_quiet.
Qed.

Lemma layer_loop_effect_ok p d its σ : effect_ok p d (layer_loop p d its) σ.
Proof.
  revert σ. induction its as [|L its IH]; intros σ.
  - by apply effect_ok_quiet.
  - cbn [layer_loop]. apply effect_ok_bind; [apply layer_body_effect_ok|].
    intros [] σ1 _; [by apply effect_ok_quiet|apply IH].
Qed.

Lemma dump_effect_ok p d σ : effect_ok p d dump σ.
Proof.
  destruct (dump σ) as [u σ'|e σ'] eqn:H0.
  - apply dump_normal in H0 as H1. destruct H1 as [_ ->].
    exists [EvDump (states σ)]. unfold effect_ok. rewrite H0.
    split; [by split_and!|]. by repeat constructor.
  - apply dump_raised in H0 as H1. destruct H1 as [-> _].
    apply effect_ok_quiet. by rewrite H0.
Qed.

Lemma grow_effect_ok p d σ : effect_ok p d (grow p d) σ.
Proof.
  unfold grow. apply effect_ok_read.
  destruct (is_finished (states σ)); [by apply effect_ok_quiet|].
  apply effect_ok_read.
  apply effect_ok_bind; [apply layer_loop_effect_ok|]. intros stop σ1 _.
  apply effect_ok_bind; [by apply effect_ok_quiet|]. intros [] σ2 _.
  apply effect_ok_bind; [apply dump_effect_ok|]. intros [] σ3 _.
  by apply effect_ok_quiet.
Qed.

End Raised.

(** ** The invariant of an uninterrupted growth *)

Section Keys.
Context {D : Domains}.
Implicit Types (layers : list (list (string * Z))) (bl : list (string * Z)).

Lemma block_key_snoc layers bl key :
  block_key (layers ++ [bl]) key ↔
  block_key layers key ∨ ∃ b, key = gop (length layers) b ∧ b < length bl.
Proof.
  unfold block_key. split.
  - intros (l & b & bl' & -> & Hl & Hb).
    apply lookup_app_Some in Hl as [Hl|[Hlen Hl]]; [left; eauto 10|].
    apply list_lookup_singleton_Some in Hl as [Hl ->]. right.
    exists b. split; [|done]. f_equal. lia.
  - intros [(l & b & bl' & -> & Hl & Hb)|(b & -> & Hb)].
    + exists l, b, bl'. split_and!; [done| |done]. by apply lookup_app_l_Some.
    + exists (length layers), b, bl. split_and!; [done| |done].
      by rewrite lookup_app_r, Nat.sub_diag by lia.
Qed.
Lemma weight_key_snoc layers bl key :
  weight_key (layers ++ [bl]) key ↔
  weight_key layers key ∨
  ∃ b, (key = gop (length layers) b ∨ key = bn (length layers) b) ∧
       b < length bl.
Proof.
  unfold weight_key. split.
  - intros (l & b & bl' & Hk & Hl & Hb).
    apply lookup_app_Some in Hl as [Hl|[Hlen Hl]]; [left; eauto 10|].
    apply list_lookup_singleton_Some in Hl as [Hl ->]. right.
    exists b. replace (length layers) with l by lia. done.
  - intros [(l & b & bl' & Hk & Hl & Hb)|(b & Hk & Hb)].
    + exists l, b, bl'. split_and!; [done| |done]. by apply lookup_app_l_Some.
    + exists (length layers), b, bl. split_and!; [done| |done].
      by rewrite lookup_app_r, Nat.sub_diag by lia.
Qed.
Lemma block_key_old layers key b :
  block_key layers key → key ≠ gop (length layers) b.
Proof.
  intros (l & b' & bl' & -> & Hl & _) [-> _]%gop_inj.
  apply lookup_lt_Some in Hl. lia.
Qed.
Lemma weight_key_old layers key b :
  weight_key layers key →
  key ≠ gop (length layers) b ∧ key ≠ bn (length layers) b.
Proof.
  intros (l & b' & bl' & Hk & Hl%lookup_lt_Some & _).
  destruct Hk as [-> | ->]; split; intros Heq.
  - apply gop_inj in Heq as [-> _]. lia.
  - by apply gop_ne_bn in Heq.
  - symmetry in Heq. by apply gop_ne_bn in Heq.
  - apply bn_inj in Heq as [-> _]. lia.
Qed.
Lemma weight_key_not_output layers : ¬ weight_key layers "output".
Proof.
  intros (l & b & bl & [Hk|Hk] & _); symmetry in Hk;
    [by apply gop_ne_output in Hk|by apply bn_ne_output in Hk].
Qed.

Lemma weight_keys_mono layers bl (w : gmap string Weight) :
  weight_keys layers w → weight_keys (layers ++ [bl]) w.
Proof.
  intros Hw key Hk. destruct (Hw key Hk) as [?|?]; [by left|right].
  apply weight_key_snoc. by left.
Qed.

End Keys.

Section Steps.
Context {D : Domains} {C : Collaborators}.
Implicit Types (σ : Machine) (p : Params) (d : Data) (s : TrainState).
Implicit Types (layers : list (list (string * Z))) (bl : list (string * Z)).

(** What a layer head knows, whether it is the first or not. *)
Lemma layer_head_facts p d base layers s :
  layer_head p d base layers s →
  layer_base (length layers) (topology s) = base ++ (Blocks <$> layers) ∧
  length (history s) = length layers ∧
  (∀ l bl, layers !! l = Some bl →
     ∃ hl ml, history s !! l = Some hl ∧ measure s !! l = Some ml ∧
              length hl = length bl ∧ length ml = length bl) ∧
  (∀ key, is_Some (op_set_indices s !! key) ↔ block_key layers key) ∧
  homogeneous (op_set_indices s).
Proof.
  intros [_ _ Hb _ _ _ _]. destruct (decide (layers = [])) as [->|Hne].
  - destruct Hb as (Ht & Hh & _ & Ho). rewrite Ht, Hh, Ho. simpl.
    split_and!; [by rewrite app_nil_r|done|done| |].
    + intros key. rewrite lookup_empty. split; [by intros []|].
      by intros (l & b & bl & _ & Hl & _).
    + intros l b i. by rewrite lookup_empty.
  - destruct Hb as [Ht Hh Hbl Ho Hhom]. split_and!; try done.
    unfold layer_base. rewrite decide_True by (destruct layers; simpl; [done|lia]).
    by rewrite Ht, app_assoc, removelast_last.
Qed.

Lemma opened_layer_state p d base layers s :
  layer_head p d base layers s →
  layer_state p d base layers s [] (opened p (length layers) 0 s).
Proof.
  intros Hh. pose proof Hh as [_ _ _ _ Hm _ Hw].
  destruct (layer_head_facts _ _ _ _ _ Hh) as (Ht & Hlen & Hbl & Ho & Hhom).
  unfold opened. rewrite decide_True by done. split; rsimpl; try done.
  - split; rsimpl.
    + rewrite Ht, fmap_app, <- !app_assoc. done.
    + rewrite !length_app. simpl. lia.
    + intros l bl [Hl|[Hl1 Hl2]]%lookup_app_Some.
      * destruct (Hbl l bl Hl) as (hl & ml & H1 & H2 & H3 & H4).
        exists hl, ml. split_and!; [by apply lookup_app_l_Some..|done|done].
      * apply list_lookup_singleton_Some in Hl2 as [Hl2 <-].
        assert (l = length layers) as -> by lia.
        exists [], []. split_and!; [| |done..].
        -- by rewrite lookup_app_r, Hlen, Nat.sub_diag by lia.
        -- by rewrite lookup_app_r, Hm, Nat.sub_diag by lia.
    + intros key. rewrite Ho, block_key_snoc. split; [by left|].
      intros [?|(b & _ & Hb)]; [done|simpl in Hb; lia].
    + done.
  - rewrite length_app. simpl. lia.
  - eauto.
  - eauto.
  - intros Hf. by apply weight_keys_mono, Hw.
Qed.

(** The topology of a state in a layer, read from its end. *)
Lemma layer_state_topology p d base layers sL bl s pre bl0 x :
  layer_state p d base layers sL bl s →
  topology s = pre ++ [Blocks bl0; x] →
  pre = base ++ (Blocks <$> layers) ∧ bl0 = bl ∧ x = dense p.
Proof.
  intros [_ [Ht _ _ _ _] _ _ _ _ _ _ _] Hpre. rewrite Ht in Hpre.
  rewrite fmap_app in Hpre. cbn [fmap list_fmap] in Hpre.
  change [Blocks bl0; x] with ([Blocks bl0] ++ [x]) in Hpre.
  rewrite !app_assoc in Hpre.
  apply app_inj_tail in Hpre as [Hpre <-].
  apply app_inj_tail in Hpre as [Hpre [= <-]]. done.
Qed.

Lemma layer_state_topology_entry p d base layers sL bl s pre e x :
  layer_state p d base layers sL bl s →
  topology s = pre ++ [e; x] →
  pre = base ++ (Blocks <$> layers) ∧ e = Blocks bl ∧ x = dense p.
Proof.
  intros [_ [Ht _ _ _ _] _ _ _ _ _ _ _] Hpre. rewrite Ht in Hpre.
  rewrite fmap_app in Hpre. cbn [fmap list_fmap] in Hpre.
  change [e; x] with ([e] ++ [x]) in Hpre.
  rewrite !app_assoc in Hpre.
  apply app_inj_tail in Hpre as [Hpre <-].
  apply app_inj_tail in Hpre as [Hpre <-]. done.
Qed.

Lemma layer_state_fresh_key p d base layers sL bl s :
  layer_state p d base layers sL bl s →
  op_set_indices s !! gop (length layers) (length bl) = None.
Proof.
  intros [_ [_ _ _ Ho _] _ _ _ _ _ _ _].
  apply eq_None_not_Some. rewrite Ho, block_key_snoc.
  intros [Hk|(b & [_ Hk]%gop_inj & Hb)]; [|lia].
  by eapply block_key_old.
Qed.

Lemma layer_state_fresh_weights p d base layers sL bl s :
  frames p d →
  layer_state p d base layers sL bl s →
  weights s !! gop (length layers) (length bl) = None ∧
  weights s !! bn (length layers) (length bl) = None.
Proof.
  intros Hf [_ _ _ _ _ _ _ Hw _]. specialize (Hw Hf).
  split; apply eq_None_not_Some; intros [Hk|Hk]%Hw.
  - by apply gop_ne_output in Hk.
  - apply weight_key_snoc in Hk as [Hk|(b & [Hk|Hk] & Hb)].
    + by eapply weight_key_old in Hk as [Hk _].
    + apply gop_inj in Hk as [_ Hk]. lia.
    + by apply gop_ne_bn in Hk.
  - by apply bn_ne_output in Hk.
  - apply weight_key_snoc in Hk as [Hk|(b & [Hk|Hk] & Hb)].
    + by eapply weight_key_old in Hk as [_ Hk].
    + symmetry in Hk. by apply gop_ne_bn in Hk.
    + apply bn_inj in Hk as [_ Hk]. lia.
Qed.

(** The weights returned by the training, when it keeps to its blocks. *)
Lemma trained_weights p d L k (w w' : gmap string Weight) t ops bw nm h key :
  frames p d →
  block_update t ops
    (<["output" := bw.2]> (<[bn L k := bw.1.2]> (<[gop L k := bw.1.1]> w)))
    p (block_names L k) d = inr (nm, h, w') →
  key ≠ gop L k → key ≠ bn L k → key ≠ "output" →
  w' !! key = w !! key.
Proof.
  intros Hf Hbu H1 H2 H3. rewrite (Hf _ _ _ _ _ _ _ Hbu).
  - by rewrite !lookup_insert_ne.
  - unfold block_names. fold (gop L k) (bn L k).
    rewrite !not_elem_of_cons. split_and!; [done..|apply not_elem_of_nil].
Qed.

Lemma commit_layer_state p d base layers sL bl s pre bl0 x bw idx nm h w' out ml hl :
  let L := length layers in
  let k := length bl in
  let s2 := added p L k bw idx pre bl0 x s in
  layer_state p d base layers sL bl s →
  topology s = pre ++ [Blocks bl0; x] →
  (k ≠ 0 → op_set_indices s !! gop L (k - 1) = Some idx) →
  block_update (topology s2) (op_set_indices s2) (weights s2) p
    (block_names L k) d = inr (nm, h, w') →
  w' !! "output" = Some out →
  measure s !! L = Some ml →
  history s !! L = Some hl →
  in_layer p d base layers sL (bl ++ [("gop", block_size p)])
    (committed p L k out ml nm hl h (set_weights w' s2)).
Proof.
  intros L k s2 Hls Htop Hidx Hbu Hout Hml Hhl. subst L k s2.
  set (L := length layers) in *. set (k := length bl) in *.
  destruct (layer_state_topology _ _ _ _ _ _ _ _ _ _ Hls Htop) as (-> & -> & ->).
  pose proof (layer_state_fresh_key _ _ _ _ _ _ _ Hls) as Hfresh.
  pose proof Hls as [Hh [Ht Hlen Hbl Ho Hhom] Hm [hl0 Hho] [ml0 Hmo] Hoo Hsn Hw Hwo].
  destruct (layer_head_facts _ _ _ _ _ Hh) as (_ & HlenL & _ & _ & _).
  assert (length (measure sL) = L) as HmL by by destruct Hh.
  fold L in HlenL, Hm, Hoo, Hwo.
  assert (hl0 = hl) as ->.
  { rewrite Hho in Hhl. rewrite lookup_app_r in Hhl by lia.
    rewrite HlenL, Nat.sub_diag in Hhl. by injection Hhl. }
  assert (ml0 = ml) as ->.
  { rewrite Hmo in Hml. rewrite lookup_app_r in Hml by lia.
    rewrite HmL, Nat.sub_diag in Hml. by injection Hml. }
  assert (length hl = k ∧ length ml = k) as [Hhk Hmk].
  { destruct (Hbl L bl) as (hl' & ml' & H1 & H2 & H3 & H4).
    - unfold L. by rewrite lookup_app_r, Nat.sub_diag by lia.
    - rewrite Hho, Hmo in *. fold k in H3, H4. split; congruence. }
  rewrite length_app in Hlen. simpl in Hlen. fold L in Hlen.
  split_and!.
  - split; unfold committed, added; rsimpl.
    + done.
    + split; rsimpl.
      * by rewrite !fmap_app, <- !app_assoc.
      * rewrite length_insert, !length_app. simpl. fold L. lia.
      * intros l bl' [Hl|[Hl1 Hl2]]%lookup_app_Some.
        -- destruct (Hbl l bl') as (hl' & ml' & H1 & H2 & H3 & H4).
           { by apply lookup_app_l_Some. }
           apply lookup_lt_Some in Hl. fold L in Hl.
           exists hl', ml'.
           rewrite !list_lookup_insert_ne by lia. done.
        -- apply list_lookup_singleton_Some in Hl2 as [Hl2 <-].
           assert (l = L) as -> by (unfold L; lia).
           exists (hl ++ [h]), (ml ++ [nm]).
           rewrite !list_lookup_insert_eq by lia.
           rewrite !length_app. simpl. fold k. split_and!; [done|done|lia|lia].
      * intros key. rewrite lookup_insert_is_Some', Ho, !block_key_snoc.
        fold L k. rewrite length_app. simpl. fold k. split.
        -- intros [<-|[?|(b & -> & Hb)]]; [|by left|].
           ++ right. exists k. split; [done|lia].
           ++ right. exists b. split; [done|lia].
        -- intros [?|(b & -> & Hb)]; [by right; left|].
           destruct (decide (b = k)) as [->|Hne]; [by left|].
           right; right. exists b. split; [done|lia].
      * intros l b i. destruct (decide ((l, b) = (L, k))) as [[= -> ->]|Hne].
        -- rewrite lookup_insert_eq. intros [= <-].
           destruct (decide (k = 0)) as [Hk0|Hk0].
           ++ by rewrite Hk0, lookup_insert_eq.
           ++ rewrite lookup_insert_ne by (apply gop_ne; congruence).
              eapply Hhom, Hidx, Hk0.
        -- rewrite lookup_insert_ne by by apply gop_ne.
           intros Hi. destruct (decide ((L, k) = (l, 0))) as [[= <- Hk0]|Hne0].
           ++ exfalso. assert (is_Some (op_set_indices s !! gop L b)) as Hs by eauto.
              apply Ho, block_key_snoc in Hs as [Hs|(b' & [_ <-]%gop_inj & Hb)].
              ** by eapply block_key_old.
              ** fold k in Hb. assert (b = 0) by lia. congruence.
           ++ rewrite lookup_insert_ne by by apply gop_ne. by eapply Hhom.
    + by rewrite length_insert.
    + exists (hl ++ [h]). rewrite Hho. rewrite <- HlenL.
      rewrite <- (Nat.add_0_r (length (history sL))) at 1.
      by rewrite insert_app_r.
    + exists (ml ++ [nm]). rewrite Hmo. rewrite <- HmL.
      rewrite <- (Nat.add_0_r (length (measure sL))) at 1.
      by rewrite insert_app_r.
    + intros key Hk. rewrite lookup_insert_ne by (apply not_eq_sym, Hk).
      by apply Hoo.
    + done.
    + intros Hf key Hkey.
      destruct (decide (key = "output")) as [->|H3]; [by left|].
      destruct (decide (key = gop L k)) as [->|H1].
      { right. apply weight_key_snoc. right. exists k.
        rewrite length_app. simpl. fold k. split; [by left|lia]. }
      destruct (decide (key = bn L k)) as [->|H2].
      { right. apply weight_key_snoc. right. exists k.
        rewrite length_app. simpl. fold k. split; [by right|lia]. }
      unfold added in Hbu. rsimpl_in Hbu.
      rewrite (trained_weights _ _ _ _ _ _ _ _ _ _ _ _ Hf Hbu H1 H2 H3) in Hkey.
      destruct (Hw Hf key Hkey) as [?|Hwk]; [done|]. right.
      apply weight_key_snoc in Hwk as [?|(b & ? & Hb)];
        apply weight_key_snoc; [by left|right].
      exists b. rewrite length_app. simpl. split; [done|lia].
    + intros Hf key Hk H3. destruct (Hk k) as [H1 H2].
      unfold added in Hbu. rsimpl_in Hbu.
      rewrite (trained_weights _ _ _ _ _ _ _ _ _ _ _ _ Hf Hbu H1 H2 H3).
      by apply Hwo.
  - by destruct bl.
  - unfold committed. rsimpl. eauto.
Qed.

Lemma layer_state_ext p d base layers sL bl s s' :
  layer_state p d base layers sL bl s →
  topology s' = topology s → history s' = history s →
  measure s' = measure s → op_set_indices s' = op_set_indices s →
  layer_output_weight s' = layer_output_weight s →
  (frames p d → weights s' = weights s) →
  layer_state p d base layers sL bl s'.
Proof.
  intros [Hh [Ht Hlen Hbl Ho Hhom] Hm Hho Hmo Hoo Hsn Hw Hwo] E1 E2 E3 E4 E5 E6.
  split; [done|split| | | | | | |]; rewrite ?E1, ?E2, ?E3, ?E4, ?E5; try done.
  - intros Hf. rewrite (E6 Hf). by apply Hw.
  - intros Hf. rewrite (E6 Hf). by apply Hwo.
Qed.

Lemma rollback_layer_state p d base layers sL bl s pre bl0 x bw idx nm h w' out :
  let L := length layers in
  let k := length bl in
  let s2 := added p L k bw idx pre bl0 x s in
  let s' := rolled_back L k out pre bl0 x (set_weights w' s2) in
  in_layer p d base layers sL bl s →
  topology s = pre ++ [Blocks bl0; x] →
  block_update (topology s2) (op_set_indices s2) (weights s2) p
    (block_names L k) d = inr (nm, h, w') →
  block_output_weight s = Some out →
  in_layer p d base layers sL bl s' ∧
  topology s' = topology s ∧ op_set_indices s' = op_set_indices s ∧
  history s' = history s ∧ measure s' = measure s ∧
  layer_output_weight s' = layer_output_weight s ∧
  weights s' !! "output" = block_output_weight s ∧
  (frames p d → weights s' = weights s).
Proof.
  intros L k s2 s' (Hls & Hne & out0 & Hsnap & Hout0) Htop Hbu Hout.
  assert (out0 = out) as -> by congruence.
  subst s' s2. unfold rolled_back, added in *. rsimpl_in Hbu. rsimpl.
  assert (delete (gop L k) (<[gop L k:=idx]> (op_set_indices s))
          = op_set_indices s) as Eops.
  { apply delete_insert_id. by eapply layer_state_fresh_key. }
  assert (frames p d →
          <["output":=out]> (delete (bn L k) (delete (gop L k) w')) = weights s)
    as Ew.
  { intros Hf. destruct (layer_state_fresh_weights _ _ _ _ _ _ _ Hf Hls) as [Hg Hb].
    apply map_eq. intros key.
    destruct (decide (key = "output")) as [->|H3].
    { by rewrite lookup_insert_eq. }
    rewrite lookup_insert_ne by done.
    destruct (decide (key = bn L k)) as [->|H2].
    { by rewrite lookup_delete_eq. }
    rewrite lookup_delete_ne by done.
    destruct (decide (key = gop L k)) as [->|H1].
    { by rewrite lookup_delete_eq. }
    rewrite lookup_delete_ne by done.
    by eapply trained_weights. }
  split_and!; try done.
  - split_and!; [|done|].
    + eapply layer_state_ext; [exact Hls|rsimpl; done..].
    + exists out. rsimpl. by rewrite lookup_insert_eq.
  - by rewrite lookup_insert_eq.
Qed.

End Steps.

(** ** The checkpoints of the block loop *)

Section Checkpoints.
Context {D : Domains} {C : Collaborators}.
Implicit Types (σ : Machine) (p : Params) (d : Data) (s : TrainState).
Implicit Types (layers : list (list (string * Z))) (bl : list (string * Z)).

Lemma adjacent_snoc {A} (R : A → A → Prop) (l : list A) (y : A) :
  adjacent R l → (∀ a, last l = Some a → R a y) → adjacent R (l ++ [y]).
Proof.
  intros Hl Hy i a b Ha Hb.
  apply lookup_app_Some in Hb as [Hb|[Hlen Hb]].
  - apply lookup_lt_Some in Hb as Hlt.
    rewrite lookup_app_l in Ha by lia. by eapply Hl.
  - apply list_lookup_singleton_Some in Hb as [Hi <-].
    assert (S i = length l) as Hi' by lia.
    rewrite lookup_app_l in Ha by lia.
    apply Hy. rewrite last_lookup. rewrite <- Hi'. simpl. done.
Qed.

Lemma dumps_ok_snoc p base (tr : list Event) s :
  dumps_ok p base tr → checkpoint_ok p base s →
  (∀ sd, last (dumps tr) = Some sd → cursor_step sd s) →
  dumps_ok p base (tr ++ [EvDump s]).
Proof.
  intros [Hall Hadj] Hs Hstep. unfold dumps_ok.
  rewrite dumps_app. simpl. split.
  - apply Forall_app. split; [done|by constructor].
  - by apply adjacent_snoc.
Qed.

Lemma in_layer_checkpoint p d base layers sL bl s :
  in_layer p d base layers sL bl s →
  block_iter s < max_block p → layer_iter s ≤ max_layer p →
  checkpoint_ok p base s.
Proof.
  intros ([Hh Hb Hm _ _ _ _ _ _] & Hne & _) H1 H2.
  split_and!; [done..|]. right. exists (layers ++ [bl]).
  split_and!.
  - by destruct layers.
  - apply Forall_app. split; [by destruct Hh|by constructor].
  - done.
  - left. rewrite length_app. simpl. lia.
Qed.

Lemma dumps_ok_dump p base (tr tr' : list Event) s :
  dumps tr' = dumps tr ++ [s] →
  dumps_ok p base tr → checkpoint_ok p base s →
  (∀ sd, last (dumps tr) = Some sd → cursor_step sd s) →
  dumps_ok p base tr' ∧ last (dumps tr') = Some s.
Proof.
  intros Htr [Hall Hadj] Hs Hstep. unfold dumps_ok. rewrite Htr. split_and!.
  - apply Forall_app. split; [done|by constructor].
  - by apply adjacent_snoc.
  - apply last_snoc.
Qed.

Lemma wrap_cursor p k :
  k < max_block p →
  (if bool_decide (Z.of_nat k = (Z.of_nat (max_block p) - 1)%Z)
   then 0 else k + 1)
  = (if decide (S k = max_block p) then 0 else S k).
Proof. intros. case_bool_decide; case_decide; lia. Qed.

Lemma block_step p d base layers sL bl tr0 σ b σ' :
  block_head p d base layers sL bl (states σ) →
  length layers < max_layer p → length bl < max_block p →
  traced tr0 (world σ) (trace_ok p base (states σ)) →
  block_body p d (length layers) (length bl) σ = Normal b σ' →
  traced tr0 (world σ')
    (λ evs, dumps_ok p base evs ∧ last (dumps evs) = Some (states σ')) ∧
  workdir (world σ') = Some (Some (states σ')) ∧
  if b then
    bl ≠ [] ∧ after_blocks p d base layers sL bl true (states σ') ∧
    topology (states σ') = topology (states σ) ∧
    op_set_indices (states σ') = op_set_indices (states σ) ∧
    history (states σ') = history (states σ) ∧
    measure (states σ') = measure (states σ) ∧
    layer_output_weight (states σ') = layer_output_weight (states σ) ∧
    weights (states σ') !! "output" = block_output_weight (states σ) ∧
    (frames p d → weights (states σ') = weights (states σ))
  else
    in_layer p d base layers sL (bl ++ [("gop", block_size p)]) (states σ') ∧
    layer_iter (states σ') = length layers ∧
    block_iter (states σ')
    = (if decide (S (length bl) = max_block p) then 0 else S (length bl)).
Proof.
  intros (HL & Hk & Hhead) HLmax Hkmax (evs0 & Htr0 & Hdok & Hlast) H0.
  apply block_body_normal in H0
    as (pre & bl0 & x & bw & idx & nm & h & w' & sev & H0).
  cbv zeta in H0.
  destruct H0 as (Htop & Hk0 & Hk1 & Hbu & _ & Hb & _ & _ & Hwd & Htr).
  set (L := length layers) in *. set (k := length bl) in *.
  set (s1 := opened p L k (states σ)) in *.
  assert (layer_state p d base layers sL bl s1) as Hls.
  { destruct (decide (bl = [])) as [->|Hne].
    - destruct Hhead as [Hh ->]. by apply opened_layer_state.
    - unfold s1. rewrite opened_ne by (intros Hz; apply Hne, nil_length_inv; exact Hz).
      by destruct Hhead as (? & _). }
  assert (layer_iter s1 = L ∧ block_iter s1 = k
          ∧ block_output_weight s1 = block_output_weight (states σ))
    as (HL1 & Hk1' & Hbo1).
  { unfold s1, opened. destruct (decide (k = 0)); rsimpl; split_and!; done. }
  assert (dumps sev = []) as Hsev.
  { destruct (decide (k = 0)) as [Hz|Hz].
    - by destruct (Hk0 Hz) as (_ & _ & _ & r & ->).
    - by destruct (Hk1 Hz) as [-> _]. }
  set (evs1 := evs0 ++ sev
        ++ [EvBlockUpdate (topology (added p L k bw idx pre bl0 x s1))
              (op_set_indices (added p L k bw idx pre bl0 x s1))
              (weights (added p L k bw idx pre bl0 x s1)) (block_names L k);
            EvDump (states σ')]).
  assert (trace (world σ') = tr0 ++ evs1) as Htr1.
  { rewrite Htr, Htr0. unfold evs1. by rewrite <- !app_assoc. }
  assert (dumps evs1 = dumps evs0 ++ [states σ']) as Hd.
  { unfold evs1. rewrite !dumps_app, Hsev. done. }
  destruct b.
  - destruct Hb as (Hkpos & _ & _ & _ & out & Hout & Hs').
    assert (bl ≠ []) as Hne.
    { intros Hz. unfold k in Hkpos. rewrite Hz in Hkpos. simpl in Hkpos. lia. }
    rewrite decide_False in Hhead by done.
    assert (s1 = states σ) as Es by (unfold s1; apply opened_ne; lia).
    rewrite Es in *.
    destruct (rollback_layer_state p d base layers sL bl (states σ) pre bl0 x
                bw idx nm h w' out Hhead Htop Hbu Hout)
      as (Hin & E1 & E2 & E3 & E4 & E5 & E6 & E7).
    fold L k in Hin, E1, E2, E3, E4, E5, E6, E7. rewrite <- Hs' in *.
    assert (block_iter (states σ') = 0 ∧ layer_iter (states σ') = S L)
      as [Hbi Hli].
    { rewrite Hs'. unfold rolled_back. rsimpl. split; [done|]. unfold added.
      rsimpl. lia. }
    destruct (dumps_ok_dump p base _ _ _ Hd Hdok) as [Hdok' Hlast'].
    { eapply in_layer_checkpoint; [done|lia..]. }
    { intros sd Hsd. destruct (Hlast sd Hsd) as (Hb1 & Hb2 & Hb3).
      split; [by right|right]. rewrite Hli, Hb3 by lia. lia. }
    split_and!; try done. by exists evs1.
  - destruct Hb as (_ & out & ml & hl & Hout & Hml & Hhl & Hs').
    pose proof (commit_layer_state p d base layers sL bl s1 pre bl0 x bw idx
                  nm h w' out ml hl Hls Htop) as Hin.
    cbv zeta in Hin. fold L k in Hin. rewrite <- Hs' in Hin.
    assert (in_layer p d base layers sL (bl ++ [("gop", block_size p)])
              (states σ')) as Hin'.
    { apply Hin; try done. intros Hz. destruct (Hk1 Hz) as (_ & Hi & _).
      unfold s1. by rewrite opened_ne. }
    assert (block_iter (states σ')
            = (if decide (S k = max_block p) then 0 else S k)
            ∧ layer_iter (states σ') = L) as [Hbi Hli].
    { rewrite Hs'. unfold committed, added. rsimpl.
      by rewrite wrap_cursor. }
    destruct (dumps_ok_dump p base _ _ _ Hd Hdok) as [Hdok' Hlast'].
    { eapply in_layer_checkpoint; [done| |lia].
      rewrite Hbi. case_decide; lia. }
    { intros sd Hsd. destruct (Hlast sd Hsd) as (Hb1 & Hb2 & Hb3).
      split.
      - rewrite Hbi, Hb1, Hk. case_decide; [by right|left; lia].
      - rewrite Hli, <- HL. lia. }
    split_and!; try done. by exists evs1.
Qed.

End Checkpoints.

(** ** The loops *)

Section Loops.
Context {D : Domains} {C : Collaborators}.
Implicit Types (σ : Machine) (p : Params) (d : Data) (s : TrainState).
Implicit Types (layers : list (list (string * Z))) (bl : list (string * Z)).

Lemma dumps_ok_ext p base (tr tr' : list Event) :
  dumps tr' = dumps tr → dumps_ok p base tr → dumps_ok p base tr'.
Proof. unfold dumps_ok. by intros ->. Qed.

Lemma trace_ok_last p base s (tr : list Event) :
  dumps_ok p base tr → last (dumps tr) = Some s → trace_ok p base s tr.
Proof. intros Hd Hl. split; [done|]. intros sd. rewrite Hl. intros [= <-]. lia. Qed.

Lemma traced_weaken tr0 (w : World) (P Q : list Event → Prop) :
  (∀ evs, P evs → Q evs) → traced tr0 w P → traced tr0 w Q.
Proof. intros HPQ (evs & ? & ?). exists evs. eauto. Qed.

Lemma traced_same tr0 (w w' : World) (P : list Event → Prop) :
  trace w' = trace w → traced tr0 w P → traced tr0 w' P.
Proof. intros Hw (evs & ? & ?). exists evs. split; congruence. Qed.

Lemma block_body_raised_dumps p d base tr0 L k σ e σ' :
  traced tr0 (world σ) (dumps_ok p base) →
  block_body p d L k σ = Raised e σ' →
  traced tr0 (world σ') (dumps_ok p base).
Proof.
  intros (evs0 & Htr0 & Hd) H0.
  destruct (block_body_effect p d L k σ) as (evs & Hem & _ & Hdumps).
  rewrite H0 in Hem, Hdumps. simpl in Hem. destruct Hem as (_ & _ & Htr & _).
  exists (evs0 ++ evs). split; [by rewrite Htr, Htr0, app_assoc|].
  eapply dumps_ok_ext; [|done]. by rewrite dumps_app, Hdumps, app_nil_r.
Qed.

Lemma block_loop_inv p d base layers sL tr0 n : ∀ bl σ,
  block_head p d base layers sL bl (states σ) →
  length layers < max_layer p → length bl + S n = max_block p →
  traced tr0 (world σ) (trace_ok p base (states σ)) →
  match block_loop p d (length layers) (seq (length bl) (S n)) σ with
  | Normal bs σ' =>
      traced tr0 (world σ')
        (λ evs, dumps_ok p base evs ∧ last (dumps evs) = Some (states σ')) ∧
      workdir (world σ') = Some (Some (states σ')) ∧
      ∃ bl', after_blocks p d base layers sL bl' bs (states σ')
  | Raised e σ' => traced tr0 (world σ') (dumps_ok p base)
  end.
Proof.
  induction n as [|n IH]; intros bl σ Hhead HL Hn Htr.
  - cbn [seq block_loop]. unfold mbind, M_bind.
    destruct (block_body p d (length layers) (length bl) σ) as [b σ1|e σ1] eqn:Hb.
    2:{ eapply block_body_raised_dumps; [|done].
        eapply traced_weaken; [|done]. by intros ? []. }
    eapply block_step in Hb as (Hd & Hw & Hb); [|done|done|lia|done].
    destruct b.
    + destruct Hb as (_ & Hab & _). split_and!; eauto.
    + destruct Hb as (Hin & Hli & Hbi). rewrite decide_True in Hbi by lia.
      split_and!; [done..|]. exists (bl ++ [("gop", block_size p)]).
      by split_and!.
  - cbn [seq block_loop]. unfold mbind, M_bind.
    destruct (block_body p d (length layers) (length bl) σ) as [b σ1|e σ1] eqn:Hb.
    2:{ eapply block_body_raised_dumps; [|done].
        eapply traced_weaken; [|done]. by intros ? []. }
    eapply block_step in Hb as (Hd & Hw & Hb); [|done|done|lia|done].
    destruct b.
    + destruct Hb as (_ & Hab & _). split_and!; eauto.
    + destruct Hb as (Hin & Hli & Hbi). rewrite decide_False in Hbi by lia.
      specialize (IH (bl ++ [("gop", block_size p)]) σ1).
      rewrite length_app in IH. simpl in IH.
      rewrite Nat.add_1_r in IH. apply IH.
      * unfold block_head. rewrite length_app, Nat.add_1_r.
        split_and!; [done|done|].
        rewrite decide_False by (by destruct bl). done.
      * done.
      * lia.
      * eapply traced_weaken; [|done]. intros ? []. by apply trace_ok_last.
Qed.

Lemma delete_layer_ops_None L idxs (ops : gmap string OpIdx) key :
  ops !! key = None → delete_layer_ops L idxs ops !! key = None.
Proof.
  revert ops. induction idxs as [|i idxs IH]; intros ops Hk; [done|].
  rewrite delete_layer_ops_cons. apply IH.
  rewrite lookup_delete. by case_decide.
Qed.
Lemma delete_layer_weights_None L idxs (w : gmap string Weight) key :
  w !! key = None → delete_layer_weights L idxs w !! key = None.
Proof.
  revert w. induction idxs as [|i idxs IH]; intros w Hk; [done|].
  rewrite delete_layer_weights_cons. apply IH.
  rewrite !lookup_delete. by repeat case_decide.
Qed.

(** The operator indices after the deletion of a whole layer are those
    with which the layer was entered. *)
Lemma layer_ops_restored p d base layers sL bl s :
  layer_state p d base layers sL bl s →
  delete_layer_ops (length layers) (range 0 (length bl)) (op_set_indices s)
  = op_set_indices sL.
Proof.
  intros Hls. pose proof Hls as [Hh [_ _ _ Ho _] _ _ _ Hoo _ _ _].
  destruct (layer_head_facts _ _ _ _ _ Hh) as (_ & _ & _ & HoL & _).
  apply map_eq. intros key.
  destruct (op_set_indices s !! key) as [i|] eqn:Hk.
  - assert (is_Some (op_set_indices s !! key)) as Hs by eauto.
    apply Ho, block_key_snoc in Hs as [Hold|(b & -> & Hb)].
    + rewrite delete_layer_ops_other.
      * rewrite Hoo; [done|]. intros b. by eapply block_key_old.
      * intros i' _. by eapply block_key_old.
    + rewrite delete_layer_ops_gone by (apply elem_of_seq; lia).
      symmetry. apply eq_None_not_Some. intros Hs%HoL.
      by eapply block_key_old.
  - rewrite delete_layer_ops_None by done.
    symmetry. apply eq_None_not_Some. intros Hs.
    pose proof Hs as Hs'%HoL.
    rewrite <- Hoo, Hk in Hs; [by destruct Hs|].
    intros b. by eapply block_key_old.
Qed.

Lemma layer_weights_restored p d base layers sL bl s out :
  frames p d →
  layer_state p d base layers sL bl s →
  layers ≠ [] →
  layer_output_weight s = Some out →
  <["output" := out]>
    (delete_layer_weights (length layers) (range 0 (length bl)) (weights s))
  = weights sL.
Proof.
  intros Hf Hls Hne Hout.
  pose proof Hls as [Hh _ _ _ _ _ Hsn Hw Hwo].
  pose proof Hh as [_ _ _ _ _ HsnL HwL].
  specialize (Hw Hf). specialize (Hwo Hf). specialize (HwL Hf).
  destruct (HsnL Hne) as (out' & Ho1 & Ho2).
  assert (out' = out) as -> by congruence.
  apply map_eq. intros key.
  destruct (decide (key = "output")) as [->|Hno].
  { by rewrite lookup_insert_eq. }
  rewrite lookup_insert_ne by done.
  assert (∀ k', weight_key layers k' →
                ∀ b, k' ≠ gop (length layers) b ∧ k' ≠ bn (length layers) b)
    as Hold.
  { intros k' Hk' b. by eapply weight_key_old. }
  destruct (weights s !! key) as [v|] eqn:Hk.
  - assert (is_Some (weights s !! key)) as [?|Hs]%Hw by eauto; [done|].
    apply weight_key_snoc in Hs as [Hs|(b & Hkb & Hb)].
    + rewrite delete_layer_weights_other by (intros i' _; by apply Hold).
      rewrite <- Hwo by (by auto). done.
    + assert (b ∈ range 0 (length bl)) as Hin by (apply elem_of_seq; lia).
      destruct (delete_layer_weights_gone (length layers) _ (weights s) b Hin)
        as [Hg Hb'].
      assert (weights sL !! key = None) as ->.
      { apply eq_None_not_Some. intros [?|Hs]%HwL; [done|].
        destruct (Hold key Hs b). by destruct Hkb. }
      by destruct Hkb as [-> | ->].
  - rewrite delete_layer_weights_None by done.
    symmetry. apply eq_None_not_Some. intros Hs.
    pose proof Hs as [?|Hs']%HwL; [done|].
    rewrite <- Hwo, Hk in Hs by (by auto). by destruct Hs.
Qed.

Lemma layer_close_step p d base layers sL bl bs σ b σ' :
  after_blocks p d base layers sL bl bs (states σ) →
  layer_close p (length layers) bs σ = Normal b σ' →
  world σ' = world σ ∧
  if b then
    layer_rejected p d base layers sL (states σ') ∧
    layer_iter (states σ') = layer_iter (states σ)
  else layer_head p d base (layers ++ [bl]) (states σ').
Proof.
  intros ((Hls & Hne & _) & Hbi & Hli) H0.
  pose proof Hls as [Hh Hb Hm [hl0 Hho] [ml0 Hmo] Hoo Hsn Hw Hwo].
  destruct (layer_head_facts _ _ _ _ _ Hh) as (_ & HlenL & HblL & HoL & HhomL).
  apply layer_close_normal in H0 as [[-> Hc]|(-> & _ & out & Hout & ->)].
  - apply layer_check_normal in Hc as [[? _]|(_ & HL & Hc)]; [done|].
    destruct Hc as (ml & new & ml' & old & pre & e & x & n & out & h & hl & Hc).
    destruct Hc as (_ & _ & _ & _ & _ & Htop & Hn & Hout & Hhist & ->).
    destruct (layer_state_topology_entry _ _ _ _ _ _ _ _ _ _ Hls Htop)
      as (-> & -> & ->).
    injection Hn as <-.
    assert (layers ≠ []) as HneL by (intros ->; simpl in HL; lia).
    assert (h = history sL) as ->.
    { rewrite Hho in Hhist. by apply app_inj_tail in Hhist as [-> _]. }
    pose proof (layer_ops_restored _ _ _ _ _ _ _ Hls) as Eops.
    pose proof Hh as [_ _ HbL _ _ _ _]. rewrite decide_False in HbL by done.
    destruct HbL as [HtL _ _ _ _].
    unfold layer_rolled_back. rsimpl. split; [done|]. split; [|done].
    split_and!; rsimpl; try done.
    + split; rsimpl.
      * by rewrite <- app_assoc.
      * done.
      * intros l bl' Hl. destruct (HblL l bl' Hl) as (hl' & ml'' & ? & ? & ? & ?).
        exists hl', ml''. split_and!; try done.
        rewrite Hmo. by apply lookup_app_l_Some.
      * intros key. by rewrite Eops.
      * by rewrite Eops.
    + rewrite HtL. by rewrite <- app_assoc.
    + eauto.
    + rewrite lookup_insert_eq. congruence.
    + intros Hf. by eapply layer_weights_restored.
    + destruct bs; [by right|by left].
  - rsimpl. split; [done|]. split; rsimpl.
    + rewrite length_app. simpl. destruct bs; lia.
    + done.
    + rewrite decide_False by (by destruct layers). destruct Hb. by split.
    + apply Forall_app. split; [by destruct Hh|by constructor].
    + rewrite length_app. simpl. lia.
    + eauto.
    + done.
Qed.

Lemma layer_body_inv p d base layers tr0 σ :
  layer_head p d base layers (states σ) →
  length layers < max_layer p → 0 < max_block p →
  traced tr0 (world σ) (trace_ok p base (states σ)) →
  match layer_body p d (length layers) σ with
  | Normal stop σ' =>
      traced tr0 (world σ') (trace_ok p base (states σ')) ∧
      is_Some (workdir (world σ')) ∧
      if stop then layer_rejected p d base layers (states σ) (states σ')
      else ∃ bl, layer_head p d base (layers ++ [bl]) (states σ')
  | Raised e σ' => traced tr0 (world σ') (dumps_ok p base)
  end.
Proof.
  intros Hh HL Hmb Htr. unfold layer_body. rewrite bind_read.
  rewrite (lh_block_iter _ _ _ _ _ Hh). unfold range. rewrite Nat.sub_0_r.
  destruct (max_block p) as [|n] eqn:Hn; [lia|].
  pose proof (block_loop_inv p d base layers (states σ) tr0 n [] σ) as Hloop.
  cbn [length] in Hloop. unfold mbind, M_bind.
  assert (block_head p d base layers (states σ) [] (states σ)) as Hbh.
  { split_and!; [by destruct Hh|by destruct Hh|done]. }
  specialize (Hloop Hbh HL (eq_sym Hn) Htr).
  destruct (block_loop p d (length layers) (seq 0 (S n)) σ) as [bs σ1|e σ1];
    [|done].
  destruct Hloop as (Htr1 & Hwd & bl & Hab).
  pose proof (layer_close_quiet p (length layers) bs σ1) as Hq.
  destruct (layer_close p (length layers) bs σ1) as [b σ'|e σ'] eqn:Hc;
    simpl in Hq.
  2:{ eapply traced_same; [by rewrite Hq|].
      eapply traced_weaken; [|done]. by intros ? []. }
  pose proof Hab as (_ & Hbi & Hli).
  eapply layer_close_step in Hc as [Hw Hc]; [|done].
  split_and!.
  - eapply traced_same; [by rewrite Hw|].
    eapply traced_weaken; [|done]. intros evs [Hd Hl].
    split; [done|]. intros sd. rewrite Hl. intros [= <-].
    destruct b.
    + destruct Hc as [(_ & _ & _ & _ & _ & _ & _ & _ & _ & Hb0 & _) Hl0].
      rewrite Hb0, Hl0, Hbi. lia.
    + destruct Hc as [Hl0 Hb0 _ _ _ _ _]. rewrite Hb0, Hl0, Hbi, Hli.
      rewrite length_app. simpl. destruct bs; lia.
  - rewrite Hw, Hwd. eauto.
  - destruct b; [by destruct Hc|eauto].
Qed.

Lemma built_ext p base layers s s' :
  built p base layers s →
  topology s' = topology s → history s' = history s →
  measure s' = measure s → op_set_indices s' = op_set_indices s →
  built p base layers s'.
Proof. intros [] E1 E2 E3 E4. split; rewrite ?E1, ?E2, ?E3, ?E4; done. Qed.

Lemma layer_loop_inv p d base tr0 n : ∀ layers σ,
  layer_head p d base layers (states σ) →
  length layers + n = max_layer p → 0 < max_block p →
  traced tr0 (world σ) (trace_ok p base (states σ)) →
  match layer_loop p d (seq (length layers) n) σ with
  | Normal stop σ' =>
      traced tr0 (world σ') (trace_ok p base (states σ')) ∧
      ∃ layers', layers_done p d base stop layers' (states σ') ∧
                 length layers ≤ length layers'
  | Raised e σ' => traced tr0 (world σ') (dumps_ok p base)
  end.
Proof.
  induction n as [|n IH]; intros layers σ Hh Hn Hmb Htr.
  - simpl. split; [done|]. exists layers. split; [|done].
    pose proof Hh as [Hli Hbi Hb Hne Hm _ _].
    unfold layers_done. split_and!; try done; lia.
  - cbn [seq layer_loop]. unfold mbind, M_bind.
    pose proof (layer_body_inv p d base layers tr0 σ Hh) as Hbody.
    destruct (layer_body p d (length layers) σ) as [stop σ1|e σ1].
    2:{ apply Hbody; [lia|done..]. }
    destruct Hbody as (Htr1 & _ & Hs); [lia|done..|].
    destruct stop.
    + split; [done|]. exists layers. split; [|done].
      destruct Hs as (HneL & HhL & Hb & _ & _ & Hhist & [ml Hml] & _ & _ & Hbi & Hli).
      pose proof HhL as [_ _ _ Hne HmL _ _].
      unfold layers_done. split_and!; try done; try lia.
      rewrite Hml, length_app, HmL. simpl. lia.
    + destruct Hs as [bl Hh1].
      specialize (IH (layers ++ [bl]) σ1 Hh1).
      rewrite length_app in IH. simpl in IH. rewrite Nat.add_1_r in IH.
      destruct (layer_loop p d (seq (S (length layers)) n) σ1) as [stop σ'|e σ'].
      * destruct IH as (Htr' & layers' & Hdone & Hlen); [lia|done..|].
        split; [done|]. exists layers'. split; [done|lia].
      * apply IH; [lia|done..].
Qed.

End Loops.

(** ** The whole growth *)

Section Growth.
Context {D : Domains} {C : Collaborators}.
Implicit Types (σ : Machine) (p : Params) (d : Data) (s : TrainState).
Implicit Types (layers : list (list (string * Z))) (bl : list (string * Z)).

Lemma range_cons a b : a < b → range a b = a :: range (S a) b.
Proof.
  intros. unfold range. replace (b - a) with (S (b - S a)) by lia. done.
Qed.

Lemma fresh_layer_head p d s :
  fresh s → layer_head p d (topology s) [] s.
Proof.
  intros (Hw & Ho & Hh & Hm & Hl & Hb & _). split; simpl; try done.
  - by rewrite Hm.
  - intros _ key. rewrite Hw, lookup_empty. by intros [].
Qed.

Lemma traced_start p base s (w : World) :
  traced (trace w) w (trace_ok p base s).
Proof.
  exists []. split; [by rewrite app_nil_r|]. split; [|done].
  split; [constructor|]. by intros i a b.
Qed.

Lemma layers_done_checkpoint p d base stop layers s :
  layers_done p d base stop layers s → 0 < max_block p →
  checkpoint_ok p base (set_is_finished true s).
Proof.
  intros (Hbi & Hli & Hne & Hs) Hmb. split_and!; rsimpl; [lia|done|].
  destruct stop.
  - destruct Hs as (HneL & _ & Hb & Hm). right. exists layers.
    split_and!; [done..| |by right]. by eapply built_ext.
  - destruct Hs as (_ & Hb & Hm). destruct (decide (layers = [])) as [->|HneL].
    + by left.
    + right. exists layers. split_and!; [done..| |by left]. by eapply built_ext.
Qed.

(** The growth from a fresh state: its checkpoints, and its last state. *)
Lemma grow_inv p d s0 w :
  fresh s0 → 0 < max_block p →
  let base := topology s0 in
  match grow p d (mkMachine s0 w) with
  | Normal stop σ' =>
      traced (trace w) (world σ')
        (λ evs, dumps_ok p base evs ∧ last (dumps evs) = Some (states σ')) ∧
      workdir (world σ') = Some (Some (states σ')) ∧
      ∃ layers s', layers_done p d base stop layers s' ∧
                   states σ' = set_is_finished true s'
  | Raised e σ' => traced (trace w) (world σ') (dumps_ok p base)
  end.
Proof.
  intros Hf Hmb base. pose proof Hf as (_ & _ & _ & _ & Hli & _ & Hfin).
  unfold grow. rewrite bind_read. cbn [states]. rewrite Hfin.
  rewrite bind_read. cbn [states]. rewrite Hli. unfold range.
  rewrite Nat.sub_0_r.
  pose proof (layer_loop_inv p d base (trace w) (max_layer p) []
                (mkMachine s0 w)) as Hloop.
  cbn [length states world] in Hloop. unfold mbind at 1, M_bind at 1.
  destruct (layer_loop p d (seq 0 (max_layer p)) (mkMachine s0 w))
    as [stop σ1|e σ1].
  2:{ apply Hloop; [by apply fresh_layer_head|done..|apply traced_start]. }
  destruct Hloop as ((evs & Htr & [Hd Hall] & Hl) & layers & Hdone & _);
    [by apply fresh_layer_head|done..|apply traced_start|].
  rewrite bind_update. unfold mbind, M_bind.
  destruct (dump (mkMachine (set_is_finished true (states σ1)) (world σ1)))
    as [[] σ2|e σ2] eqn:Hdump.
  - apply dump_normal in Hdump as [_ ->]. rewrite run_ret. rsimpl.
    split_and!; [|done|eauto].
    exists (evs ++ [EvDump (set_is_finished true (states σ1))]).
    split; [rsimpl; by rewrite Htr, app_assoc|].
    eapply dumps_ok_dump; [by rewrite dumps_app|done| |].
    + by eapply layers_done_checkpoint.
    + intros sd Hsd. destruct (Hl sd Hsd) as (H1 & H2 & H3).
      destruct Hdone as (Hbi & _). unfold cursor_step. rsimpl. split; [by right|lia].
  - apply dump_raised in Hdump as [-> _]. exists evs. by split.
Qed.

(** *** The states that the growth goes through *)

Lemma layer_reached_loop p d σ0 L σ :
  layer_reached p d σ0 L σ →
  layer_loop p d (range (layer_iter (states σ0)) (max_layer p)) σ0
  = layer_loop p d (range L (max_layer p)) σ.
Proof.
  induction 1 as [|L σ σ' _ IH HL Hbody]; [done|].
  rewrite IH, range_cons by lia. cbn [layer_loop]. unfold mbind, M_bind.
  by rewrite Hbody.
Qed.

Lemma block_reached_loop p d L σL k σ :
  block_reached p d L σL k σ →
  block_loop p d L (range (block_iter (states σL)) (max_block p)) σL
  = block_loop p d L (range k (max_block p)) σ.
Proof.
  induction 1 as [|k σ σ' _ IH Hk Hbody]; [done|].
  rewrite IH, range_cons by lia. cbn [block_loop]. unfold mbind, M_bind.
  by rewrite Hbody.
Qed.

Lemma layer_reached_head p d σ0 L σ :
  fresh (states σ0) → 0 < max_block p →
  layer_reached p d σ0 L σ →
  ∃ layers,
    length layers = L ∧
    layer_head p d (topology (states σ0)) layers (states σ) ∧
    traced (trace (world σ0)) (world σ)
      (trace_ok p (topology (states σ0)) (states σ)).
Proof.
  intros Hf Hmb. induction 1 as [|L σ σ' _ IH HL Hbody].
  - exists []. split_and!.
    + by destruct Hf as (_ & _ & _ & _ & -> & _).
    + by apply fresh_layer_head.
    + apply traced_start.
  - destruct IH as (layers & <- & Hh & Htr).
    pose proof (layer_body_inv p d _ layers (trace (world σ0)) σ Hh) as Hinv.
    rewrite Hbody in Hinv. destruct Hinv as (Htr' & _ & bl & Hh'); [lia|done..|].
    exists (layers ++ [bl]). split_and!; [|done..].
    rewrite length_app. simpl. lia.
Qed.

Lemma block_reached_head p d base layers tr0 σL k σ :
  layer_head p d base layers (states σL) → length layers < max_layer p →
  traced tr0 (world σL) (trace_ok p base (states σL)) →
  block_reached p d (length layers) σL k σ → k < max_block p →
  ∃ bl,
    length bl = k ∧
    block_head p d base layers (states σL) bl (states σ) ∧
    traced tr0 (world σ) (trace_ok p base (states σ)).
Proof.
  intros Hh HL Htr. induction 1 as [|k σ σ' _ IH Hk Hbody]; intros Hkm.
  - exists []. rewrite (lh_block_iter _ _ _ _ _ Hh). split_and!; [done| |done].
    split_and!; [by destruct Hh|by destruct Hh|done].
  - destruct IH as (bl & <- & Hbh & Htr'); [lia|].
    eapply block_step in Hbody as (Htr2 & _ & Hin & Hli & Hbi);
      [|done|done|lia|done].
    rewrite decide_False in Hbi by lia.
    exists (bl ++ [("gop", block_size p)]).
    rewrite length_app, Nat.add_1_r. split_and!; [done| |].
    + unfold block_head. rewrite length_app, Nat.add_1_r.
      split_and!; [done..|]. rewrite decide_False by (by destruct bl). done.
    + eapply traced_weaken; [|done]. intros ? []. by apply trace_ok_last.
Qed.

End Growth.

(** * The claims *)

Section Claims.
Context {D : Domains} {C : Collaborators}.
Implicit Types (σ : Machine) (p : Params) (d : Data) (s : TrainState).
Implicit Types (layers : list (list (string * Z))) (bl : list (string * Z)).

Lemma built_topology_count p base layers s :
  built p base layers s → layers ≠ [] → topology_count (length base) s.
Proof.
  intros [Ht Hh _ _ _] Hne. unfold topology_count.
  rewrite Ht, !length_app, length_fmap, Hh. simpl.
  destruct (history s) eqn:E; [|lia].
  destruct layers; [done|]. simpl in Hh. lia.
Qed.

Lemma checkpoint_topology_count p base s :
  checkpoint_ok p base s → topology_count (length base) s.
Proof.
  intros (_ & _ & [(Ht & Hh & _)|(layers & Hne & _ & Hb & _)]).
  - unfold topology_count. rewrite Ht, Hh. simpl. lia.
  - by eapply built_topology_count.
Qed.

Lemma built_same_operator_sets p base layers s :
  built p base layers s → same_operator_sets (length base) s.
Proof.
  intros [Ht _ _ Ho Hhom] l bl b Hl Hb.
  rewrite Ht, lookup_app_r in Hl by lia.
  replace (length base + l - length base) with l in Hl by lia.
  apply lookup_app_Some in Hl as [Hl|[_ Hl]].
  - rewrite list_lookup_fmap in Hl.
    destruct (layers !! l) as [bl'|] eqn:Hl'; [|done]. injection Hl as ->.
    assert (is_Some (op_set_indices s !! gop l b)) as [i Hi].
    { apply Ho. by exists l, b, bl. }
    exists i. split; [done|]. by eapply Hhom.
  - by apply list_lookup_singleton_Some in Hl as [_ ?].
Qed.

Lemma checkpoint_same_operator_sets p base s :
  checkpoint_ok p base s → same_operator_sets (length base) s.
Proof.
  intros (_ & _ & [(Ht & _)|(layers & _ & _ & Hb & _)]).
  - intros l bl b Hl. rewrite Ht in Hl.
    apply lookup_lt_Some in Hl. lia.
  - by eapply built_same_operator_sets.
Qed.

(** C1, as the code has it: in an uninterrupted growth from a fresh state
    whose topology has [n0] entries, every checkpoint and the last state
    have a topology of [n0 + L + 1] entries, [L >= 1] being the number of
    layers (the length of the history), and of [n0] entries as long as no
    layer is open.  A fresh topology holds one entry, the input dimension:
    the length is then [L + 2], which is twice the number of layers for two
    layers only; two layers give exactly four entries. *)
Theorem topology_length p d s0 w :
  fresh s0 → 0 < max_block p →
  traced (trace w) (world (outcome_state (grow p d (mkMachine s0 w))))
    (λ evs, Forall (topology_count (length (topology s0))) (dumps evs)) ∧
  (∀ stop σ', grow p d (mkMachine s0 w) = Normal stop σ' →
     topology_count (length (topology s0)) (states σ') ∧
     (length (history (states σ')) = 2 →
      length (topology (states σ')) = length (topology s0) + 3) ∧
     (length (topology s0) = 1 →
      (history (states σ') ≠ [] →
       length (topology (states σ')) = length (history (states σ')) + 2) ∧
      (length (history (states σ')) = 2 →
       length (topology (states σ')) = 4 ∧ topology_parity (states σ')) ∧
      (topology_parity (states σ') → length (history (states σ')) = 2))).
Proof.
  intros Hf Hmb. pose proof (grow_inv p d s0 w Hf Hmb) as Hinv.
  cbv zeta in Hinv.
  destruct (grow p d (mkMachine s0 w)) as [stop σ1|e σ1]; simpl.
  - destruct Hinv as ((evs & Htr & [Hall _] & Hlast) & _). split.
    + exists evs. split; [done|].
      eapply Forall_impl; [done|]. apply checkpoint_topology_count.
    + intros ? ? [= <- <-].
      assert (topology_count (length (topology s0)) (states σ1)) as Hc.
      { eapply checkpoint_topology_count, Forall_forall; [done|].
        apply last_Some_elem_of, Hlast. }
      split; [done|]. unfold topology_count in Hc. split.
      { intros H2. destruct (history (states σ1)); simpl in *; lia. }
      intros H1. rewrite H1 in Hc. split_and!.
      * intros Hne. destruct (history (states σ1)); [done|]. simpl in *. lia.
      * intros H2. rewrite H2 in Hc.
        assert (length (topology (states σ1)) = 4) as H4.
        { destruct (history (states σ1)); simpl in *; lia. }
        split; [done|]. unfold topology_parity. rewrite H4, H2.
        split; [by exists 2|done].
      * intros [_ Hp]. destruct (history (states σ1)); simpl in *; lia.
  - destruct Hinv as (evs & Htr & [Hall _]). split; [|done].
    exists evs. split; [done|].
    eapply Forall_impl; [done|]. apply checkpoint_topology_count.
Qed.


(** X15: a block that is not the first of its layer is trained with the
    operator set of the previous block of the layer and with the weights
    that [get_random_block_weights] derives from the weights of that block
    and of the output layer; and in an uninterrupted growth from a fresh
    state every block of every layer, in every checkpoint and in the last
    state, has the operator set of block 0 of its layer. *)
Theorem operator_sets_reused p d :
  (∀ L k σ b σ', k ≠ 0 → block_body p d L k σ = Normal b σ' →
     ∃ idx w0 w1 w2 t,
       op_set_indices (states σ) !! gop L (k - 1) = Some idx ∧
       weights (states σ) !! gop L (k - 1) = Some w0 ∧
       weights (states σ) !! bn L (k - 1) = Some w1 ∧
       weights (states σ) !! "output" = Some w2 ∧
       EvBlockUpdate t
         (<[gop L k := idx]> (op_set_indices (states σ)))
         (<["output" := (get_random_block_weights (w0, w1, w2)).2]>
            (<[bn L k := (get_random_block_weights (w0, w1, w2)).1.2]>
               (<[gop L k := (get_random_block_weights (w0, w1, w2)).1.1]>
                  (weights (states σ)))))
         (block_names L k) ∈ trace (world σ')) ∧
  (∀ s0 w, fresh s0 → 0 < max_block p →
     traced (trace w) (world (outcome_state (grow p d (mkMachine s0 w))))
       (λ evs, Forall (same_operator_sets (length (topology s0))) (dumps evs)) ∧
     ∀ stop σ', grow p d (mkMachine s0 w) = Normal stop σ' →
       same_operator_sets (length (topology s0)) (states σ')).
Proof.
  split.
  - intros L k σ b σ' Hk H0.
    apply block_body_normal in H0
      as (pre & bl & x & bw & idx & nm & h & w' & sev & H0).
    cbv zeta in H0. destruct H0 as (_ & _ & Hk1 & _ & _ & _ & _ & _ & _ & Htr).
    destruct (Hk1 Hk) as (_ & Hidx & w0 & w1 & w2 & H0 & H1 & H2 & ->).
    rewrite opened_ne in Htr by done. unfold added in Htr. rsimpl_in Htr.
    exists idx, w0, w1, w2. eexists. split_and!; [done..|].
    rewrite Htr, !elem_of_app. right; right. apply elem_of_cons. by left.
  - intros s0 w Hf Hmb. pose proof (grow_inv p d s0 w Hf Hmb) as Hinv.
    cbv zeta in Hinv.
    destruct (grow p d (mkMachine s0 w)) as [stop σ1|e σ1]; simpl.
    + destruct Hinv as ((evs & Htr & [Hall _] & Hlast) & _). split.
      * exists evs. split; [done|].
        eapply Forall_impl; [done|]. apply checkpoint_same_operator_sets.
      * intros ? ? [= <- <-].
        eapply checkpoint_same_operator_sets, Forall_forall; [done|].
        apply last_Some_elem_of, Hlast.
    + destruct Hinv as (evs & Htr & [Hall _]). split; [|done].
      exists evs. split; [done|].
      eapply Forall_impl; [done|]. apply checkpoint_same_operator_sets.
Qed.

(** C9: for layer 0 the layer convergence check returns at once, without a
    call of [check_convergence] and without touching the state, so the body
    of the layer loop never ends the growth there; and a growth from a fresh
    state that allows a layer keeps its first layer, with at least one
    block. *)
Theorem first_layer_accepted p d :
  (∀ σ, layer_check p 0 σ = Normal false σ) ∧
  (∀ bs σ σ', layer_close p 0 bs σ ≠ Normal true σ') ∧
  (∀ σ σ', layer_body p d 0 σ ≠ Normal true σ') ∧
  (∀ s0 w stop σ',
     fresh s0 → 0 < max_block p → 0 < max_layer p →
     grow p d (mkMachine s0 w) = Normal stop σ' →
     history (states σ') ≠ [] ∧
     ∃ bl, bl ≠ [] ∧
           topology (states σ') !! length (topology s0) = Some (Blocks bl)).
Proof.
  assert (∀ bs σ σ', layer_close p 0 bs σ ≠ Normal true σ') as Hclose.
  { intros bs σ σ' [[_ Hc]|[? _]]%layer_close_normal; [|done].
    by rewrite layer_check_first in Hc. }
  split_and!; [done|done| |].
  - intros σ σ' H0. unfold layer_body in H0. rewrite bind_read in H0.
    apply bind_normal in H0 as (bs & σ1 & _ & H0). by apply Hclose in H0.
  - intros s0 w stop σ' Hf Hmb Hml H0.
    pose proof (grow_inv p d s0 w Hf Hmb) as Hinv. cbv zeta in Hinv.
    rewrite H0 in Hinv.
    destruct Hinv as (_ & _ & layers & s' & (_ & _ & Hne & Hdone) & ->).
    assert (layers ≠ [] ∧ built p (topology s0) layers s') as [HneL Hb].
    { destruct stop.
      - by destruct Hdone as (? & _ & ? & _).
      - destruct Hdone as (Hlen & Hb & _).
        destruct (decide (layers = [])) as [->|?]; [simpl in Hlen; lia|done]. }
    destruct Hb as [Ht Hh _ _ _]. rsimpl.
    destruct layers as [|bl layers]; [done|]. split.
    + intros Hnil. rewrite Hnil in Hh. done.
    + exists bl. split; [by inversion Hne|].
      rewrite Ht. by rewrite lookup_app_r, Nat.sub_diag by lia.
Qed.

(** X16: the layer convergence that rejects a layer deletes the last entry
    of the history and nothing else of the history, and leaves the measures
    as they are.  In an uninterrupted growth from a fresh state the entry
    deleted is the one of the rejected layer [L]: the history is left with
    the [L] entries with which the layer was entered, and the measures have
    these and the entry of layer [L].  So a growth from a fresh state that
    ends by a layer convergence ends with one more measure entry than
    history entries, and any other growth with as many. *)
Theorem measure_kept p d :
  (∀ L σ σ', layer_check p L σ = Normal true σ' →
     measure (states σ') = measure (states σ) ∧
     ∃ hl, history (states σ) = history (states σ') ++ [hl]) ∧
  (∀ σ0 L σL bs σb σ',
     fresh (states σ0) → 0 < max_block p →
     layer_reached p d σ0 L σL → L < max_layer p →
     block_loop p d L (range (block_iter (states σL)) (max_block p)) σL
     = Normal bs σb →
     layer_check p L σb = Normal true σ' →
     length (history (states σ')) = L ∧
     history (states σ') = history (states σL) ∧
     (∃ hl, history (states σb) = history (states σL) ++ [hl]) ∧
     measure (states σ') = measure (states σb) ∧
     length (measure (states σ')) = S L ∧
     ∃ ml, measure (states σ') = measure (states σL) ++ [ml]) ∧
  (∀ s0 w stop σ',
     fresh s0 → 0 < max_block p →
     grow p d (mkMachine s0 w) = Normal stop σ' →
     length (measure (states σ'))
     = if stop then S (length (history (states σ')))
       else length (history (states σ'))).
Proof.
  assert (∀ L σ σ', layer_check p L σ = Normal true σ' →
            measure (states σ') = measure (states σ) ∧
            ∃ hl, history (states σ) = history (states σ') ++ [hl]) as Hcheck.
  { intros L σ σ' [[? _]|(_ & _ & Hc)]%layer_check_normal; [done|].
    destruct Hc as (?&?&?&?&?&?&?&?&?&h&hl&Hc).
    destruct Hc as (_ & _ & _ & _ & _ & _ & _ & _ & Hh & ->).
    unfold layer_rolled_back. rsimpl. eauto. }
  split_and!; [done| |].
  - intros σ0 L σL bs σb σ' Hf Hmb HσL HLm Hloop Hc.
    destruct (layer_reached_head p d σ0 L σL Hf Hmb HσL)
      as (layers & <- & Hh & Htr).
    assert (layer_body p d (length layers) σL = Normal true σ') as H0.
    { unfold layer_body. rewrite bind_read.
      unfold mbind at 1, M_bind at 1. rewrite Hloop.
      unfold layer_close, mbind, M_bind. by rewrite Hc. }
    pose proof (layer_body_inv p d _ layers _ σL Hh HLm Hmb Htr) as Hinv.
    rewrite H0 in Hinv. destruct Hinv as (_ & _ & Hrej).
    destruct Hrej as (_ & _ & _ & _ & _ & E3 & [ml E4] & _).
    destruct (layer_head_facts _ _ _ _ _ Hh) as (_ & Hlen & _).
    destruct (Hcheck _ _ _ Hc) as (Hm & hl & Hhl).
    split_and!; [congruence|done| |done| |by exists ml].
    + exists hl. by rewrite Hhl, E3.
    + rewrite E4, length_app. simpl.
      rewrite (lh_measure _ _ _ _ _ Hh). lia.
  - intros s0 w stop σ' Hf Hmb H0.
    pose proof (grow_inv p d s0 w Hf Hmb) as Hinv. cbv zeta in Hinv.
    rewrite H0 in Hinv.
    destruct Hinv as (_ & _ & layers & s' & (_ & _ & _ & Hdone) & ->). rsimpl.
    destruct stop.
    + destruct Hdone as (_ & _ & [_ Hh _ _ _] & Hm). lia.
    + destruct Hdone as (_ & Hb & Hm).
      destruct (decide (layers = [])) as [->|?].
      * destruct Hb as (_ & -> & -> & _). done.
      * destruct Hb as [_ Hh _ _ _]. lia.
Qed.

(** The roll-back of a block: when the body of the block loop leaves the loop
    for a block [k > 0], [check_convergence] has returned true for the
    measure of the training of block [k] against the measure of block
    [k-1]; the topology and the operator indices are those of the
    state after the commit of block [k-1], the entries of block [k] are gone,
    the output weights are those of the snapshot of block [k-1], the block
    cursor is 0, the layer cursor is advanced, a checkpoint of this state is
    written and the block loop of the layer ends; the weights as a whole are
    those after the commit of block [k-1] when [block_update] changes no
    entry but those of the blocks it is given. *)
Lemma block_rollback_state p d σ0 L σL k σ1 σ2 :
  fresh (states σ0) →
  layer_reached p d σ0 L σL → L < max_layer p →
  block_reached p d L σL k σ1 → 0 < k → k < max_block p →
  block_body p d L k σ1 = Normal true σ2 →
  (∃ t ops w nm h w' ml previous,
     EvBlockUpdate t ops w (block_names L k) ∈ trace (world σ2) ∧
     block_update t ops w p (block_names L k) d = inr (nm, h, w') ∧
     measure (states σ1) !! L = Some ml ∧ ml !! (k - 1) = Some previous ∧
     check_convergence nm previous (direction p) (block_threshold p) = true) ∧
  topology (states σ2) = topology (states σ1) ∧
  op_set_indices (states σ2) = op_set_indices (states σ1) ∧
  op_set_indices (states σ2) !! gop L k = None ∧
  weights (states σ2) !! gop L k = None ∧
  weights (states σ2) !! bn L k = None ∧
  weights (states σ2) !! "output" = block_output_weight (states σ1) ∧
  block_output_weight (states σ1) = weights (states σ1) !! "output" ∧
  (frames p d → weights (states σ2) = weights (states σ1)) ∧
  block_iter (states σ2) = 0 ∧
  layer_iter (states σ2) = S (layer_iter (states σ1)) ∧
  workdir (world σ2) = Some (Some (states σ2)) ∧
  last (trace (world σ2)) = Some (EvDump (states σ2)) ∧
  block_loop p d L (range k (max_block p)) σ1 = Normal true σ2 ∧
  block_loop p d L (range (block_iter (states σL)) (max_block p)) σL
  = Normal true σ2.
Proof.
  intros Hf HσL HL Hσ1 Hk Hkm H0.
  assert (0 < max_block p) as Hmb by lia.
  destruct (layer_reached_head p d σ0 L σL Hf Hmb HσL) as (layers & <- & Hh & Htr).
  pose proof (block_reached_loop p d _ σL k σ1 Hσ1) as Hloop.
  destruct (block_reached_head p d _ layers _ σL k σ1 Hh HL Htr Hσ1 Hkm)
    as (bl & <- & Hbh & Htr1).
  assert (block_loop p d (length layers) (range (length bl) (max_block p)) σ1
          = Normal true σ2) as Hrest.
  { rewrite range_cons by done. cbn [block_loop]. unfold mbind, M_bind.
    by rewrite H0. }
  pose proof H0 as H1.
  apply block_body_normal in H1
    as (pre & bl0 & x & bw & idx & nm & h & w' & sev & H1).
  cbv zeta in H1.
  destruct H1 as (_ & _ & _ & Hbu & _ & Hb & _ & _ & _ & Htrace).
  destruct Hb as (_ & (ml & previous & Hml & Hprev & Hcc) & _ & _ & out & _ & Hs2).
  rewrite opened_ne in Hml by lia.
  eapply block_step in H0 as (_ & Hwd & Hne & Hab & E1 & E2 & _ & _ & _ & E6 & E7);
    [|done..].
  destruct Hab as ((_ & _ & _) & Hbi & Hli).
  destruct Hbh as (Hli1 & _ & Hin). rewrite decide_False in Hin by done.
  destruct Hin as (_ & _ & out1 & Hsnap & Hout1).
  split_and!; try done.
  - eexists _, _, _, nm, h, w', ml, previous. split_and!; [|exact Hbu|done..].
    rewrite Htrace, !elem_of_app. right. right. apply list_elem_of_here.
  - rewrite Hs2. unfold rolled_back. rsimpl. apply lookup_delete_eq.
  - rewrite Hs2. unfold rolled_back. rsimpl.
    rewrite lookup_insert_ne by (apply not_eq_sym, gop_ne_output).
    rewrite lookup_delete_ne by (apply not_eq_sym, gop_ne_bn).
    apply lookup_delete_eq.
  - rewrite Hs2. unfold rolled_back. rsimpl.
    rewrite lookup_insert_ne by (apply not_eq_sym, bn_ne_output).
    apply lookup_delete_eq.
  - congruence.
  - by rewrite Hli, Hli1.
  - rewrite Htrace.
    change [?a; ?b] with ([a] ++ [b]). rewrite !app_assoc. apply last_snoc.
  - by rewrite Hloop.
Qed.

Lemma layer_body_true p d L σ σ' :
  layer_body p d L σ = Normal true σ' →
  ∃ bs σb,
    block_loop p d L (range (block_iter (states σ)) (max_block p)) σ
    = Normal bs σb ∧
    layer_check p L σb = Normal true σ'.
Proof.
  unfold layer_body. rewrite bind_read. intros H0.
  apply bind_normal in H0 as (bs & σb & Hloop & Hc).
  apply layer_close_normal in Hc as [[_ Hc]|[? _]]; [|done].
  by exists bs, σb.
Qed.

(** The roll-back of a layer: when the layer convergence ends the growth at a
    layer [L > 0], [check_convergence] has returned true for the last
    measure of layer [L] against the last measure of layer [L-1]; the
    topology, the operator indices and the history are
    those with which the layer was entered (so there is no history entry
    and no operator index for layer [L]), the output weights are those of
    the snapshot of layer [L-1], and the growth ends with this state, marked
    finished; the weights as a whole are those with which the layer was
    entered when [block_update] changes no entry but those of the blocks it
    is given. *)
Lemma layer_rollback_state p d σ0 L σL σ' :
  fresh (states σ0) → 0 < max_block p →
  layer_reached p d σ0 L σL → 0 < L → L < max_layer p →
  layer_body p d L σL = Normal true σ' →
  (∃ ml new ml' old,
     measure (states σ') !! L = Some ml ∧ last ml = Some new ∧
     measure (states σ') !! (L - 1) = Some ml' ∧ last ml' = Some old ∧
     check_convergence new old (direction p) (layer_threshold p) = true) ∧
  topology (states σ') = topology (states σL) ∧
  op_set_indices (states σ') = op_set_indices (states σL) ∧
  (∀ b, op_set_indices (states σ') !! gop L b = None) ∧
  history (states σ') = history (states σL) ∧
  length (history (states σ')) = L ∧
  weights (states σ') !! "output" = layer_output_weight (states σL) ∧
  layer_output_weight (states σL) = weights (states σL) !! "output" ∧
  (frames p d →
     weights (states σ') = weights (states σL) ∧
     ∀ b, weights (states σ') !! gop L b = None ∧
          weights (states σ') !! bn L b = None) ∧
  ∃ σf, grow p d σ0 = Normal true σf ∧
        states σf = set_is_finished true (states σ').
Proof.
  intros Hf Hmb HσL HL HLm H0.
  destruct (layer_reached_head p d σ0 L σL Hf Hmb HσL) as (layers & <- & Hh & Htr).
  pose proof (layer_reached_loop p d σ0 _ σL HσL) as Hloop.
  pose proof (layer_body_inv p d _ layers _ σL Hh HLm Hmb Htr) as Hinv.
  rewrite H0 in Hinv. destruct Hinv as (_ & [wd Hwd] & Hrej).
  destruct Hrej as (Hne & _ & Hb & E1 & E2 & E3 & _ & E5 & E6 & _ & _).
  destruct (layer_head_facts _ _ _ _ _ Hh) as (_ & Hlen & _ & Ho & _).
  destruct (lh_snapshot _ _ _ _ _ Hh Hne) as (out & Hs1 & Hs2).
  split_and!; try done.
  - destruct (layer_body_true _ _ _ _ _ H0) as (bs & σb & _ & Hc).
    apply layer_check_normal in Hc
      as [[? _]|(_ & _ & ml & new & ml' & old & pre & e & x & n & out' & h & hl
                 & Hml & Hnew & Hml' & Hold & Hcc & _ & _ & _ & _ & ->)];
      [done|].
    exists ml, new, ml', old. unfold layer_rolled_back. rsimpl. done.
  - intros b. rewrite E2. apply eq_None_not_Some. intros Hs%Ho.
    by eapply block_key_old.
  - by rewrite E3.
  - congruence.
  - intros Hfr. split; [by apply E6|]. intros b. rewrite (E6 Hfr).
    pose proof (lh_weights _ _ _ _ _ Hh Hfr) as Hw.
    split; apply eq_None_not_Some; intros [Hk|Hk]%Hw.
    + by apply gop_ne_output in Hk.
    + by eapply weight_key_old in Hk as [Hk _].
    + by apply bn_ne_output in Hk.
    + by eapply weight_key_old in Hk as [_ Hk].
  - destruct Hf as (_ & _ & _ & _ & Hli & _ & Hfin).
    unfold grow. rewrite bind_read, Hfin, bind_read.
    unfold mbind at 1, M_bind at 1. rewrite Hloop.
    rewrite range_cons by done. cbn [layer_loop].
    unfold mbind at 1, M_bind at 1. rewrite H0. rewrite run_ret.
    rewrite bind_update.
    cbv [mbind M_bind dump read get outside modify mret M_ret].
    cbn [states world]. rewrite Hwd. eauto.
Qed.

(** The run of a growth in which a call of [block_update] raises: the growth
    ends there with the one error [fatal]: the failed call is the last event
    of the run (nothing is retried, nothing is written after it), every
    training before it succeeded, the CUDA setting and [self.model_data] are
    those from before the run, and the working directory holds what the
    events before the failed call left there; [train_states] itself is lost
    with the exception. *)
Lemma failed_training_run p d s w t ops wts names err evs :
  trace (outcome_state (with_states s (grow p d) w)) = trace w ++ evs →
  EvBlockUpdate t ops wts names ∈ evs →
  block_update t ops wts p names d = inl err →
  ∃ pre,
    evs = pre ++ [EvBlockUpdate t ops wts names] ∧
    Forall (trained p d) pre ∧
    with_states s (grow p d) w
    = Raised fatal
        {| cuda := cuda w; workdir := disk_after (workdir w) pre;
           model_data := model_data w; trace := trace w ++ evs |}.
Proof.
  intros Htr Hin Herr.
  destruct (grow_effect_ok p d (mkMachine s w)) as (evs' & Hem & Hsh).
  unfold with_states in *.
  assert (¬ trained p d (EvBlockUpdate t ops wts names)) as Hnt.
  { intros [r Hr]. simpl in Hr. congruence. }
  destruct (grow p d (mkMachine s w)) as [a σ|e σ]; simpl in *;
    destruct Hem as (Hc & Hm & Ht & Hw);
    rewrite Ht in Htr; apply app_inv_head in Htr as ->.
  - by rewrite Forall_forall in Hsh; apply Hsh in Hin.
  - destruct Hsh as [Hsh|(pre & ev & -> & Hpre & Hf & ->)].
    { by rewrite Forall_forall in Hsh; apply Hsh in Hin. }
    apply elem_of_app in Hin as [Hin|Hin].
    { by rewrite Forall_forall in Hpre; apply Hpre in Hin. }
    apply list_elem_of_singleton in Hin as <-.
    exists pre. split_and!; [done..|]. f_equal.
    destruct (world σ) as [c wd md tr]; simpl in *. subst.
    unfold disk_after. by rewrite foldl_app.
Qed.

Lemma call_test_generator_run g p (w : World) :
  call_test_generator g p w
  = if test_generator g (input_dim p) (output_dim p)
    then Normal () (emit (EvTestGenerator g) w)
    else Raised (Failure "test_generator") (emit (EvTestGenerator g) w).
Proof.
  unfold call_test_generator. rewrite bind_modify.
  by destruct (test_generator _ _ _).
Qed.

Lemma grow_finished p d σ stop σ' :
  grow p d σ = Normal stop σ' → is_finished (states σ') = true.
Proof.
  unfold grow. rewrite bind_read.
  destruct (is_finished (states σ)) eqn:Hfin.
  { rewrite run_ret. by intros [= _ <-]. }
  rewrite bind_read. intros H0.
  apply bind_normal in H0 as (stop' & σ1 & _ & H0).
  rewrite bind_update in H0.
  apply bind_normal in H0 as ([] & σ2 & Hd & H0).
  apply dump_normal in Hd as [_ ->]. rewrite run_ret in H0.
  by injection H0 as _ <-.
Qed.

Lemma progressive_learn_normal p d (w : World) h w' :
  progressive_learn p d w = Normal h w' →
  ∃ pc stop sf w2,
    check_parameters p = inr pc ∧
    let p' := growth_params d pc in
    let w1 := generators_tested d w in
    Forall (λ g, test_generator g (input_dim p') (output_dim p') = true)
      (supplied d) ∧
    with_states (initial_states p' w1) (grow p' d) w1 = Normal (stop, sf) w2 ∧
    h = history sf ∧
    w' = set_model_data (Some (assemble p' sf)) w2.
Proof.
  unfold progressive_learn. intros H0.
  destruct (check_parameters p) as [e|pc] eqn:Hpc;
    [by rewrite bind_lift_inl in H0|].
  rewrite bind_lift_inr in H0. fold (growth_params d pc) in H0.
  set (p' := growth_params d pc) in *.
  apply bind_normal in H0 as ([] & wa & Ha & H0).
  rewrite call_test_generator_run in Ha.
  destruct (test_generator (train_gen d) _ _) eqn:Ht; [|done].
  injection Ha as <-.
  apply bind_normal in H0 as ([] & wb & Hb & H0).
  apply bind_normal in H0 as ([] & wc & Hc & H0).
  assert (wc = generators_tested d w ∧
          Forall (λ g, test_generator g (input_dim p') (output_dim p') = true)
            (supplied d)) as [-> Hall].
  { unfold generators_tested, supplied.
    destruct (val_gen d) as [gv|], (test_gen d) as [gt|]; simpl in *;
      repeat match goal with
      | H : call_test_generator _ _ _ = _ |- _ =>
          rewrite call_test_generator_run in H
      | H : (if ?b then _ else _) = _ |- _ =>
          let E := fresh "E" in destruct b eqn:E; [|done]
      | H : Normal _ _ = Normal _ _ |- _ => injection H as <-
      | H : mret () _ = Normal _ _ |- _ => rewrite run_ret in H
      end;
      (split; [unfold emit; simpl; by rewrite <- ?app_assoc
              |by repeat constructor]). }
  unfold initialize_states in H0. rewrite bind_assoc, bind_get in H0.
  fold (initial_states p' (generators_tested d w)) in H0.
  assert ((match workdir (generators_tested d w) with
           | Some (Some s) => mret s
           | _ => mret (new_states p')
           end : M World TrainState)
          = mret (initial_states p' (generators_tested d w))) as Hini.
  { unfold initial_states. by destruct (workdir _) as [[?|]|]. }
  rewrite Hini, bind_ret in H0.
  apply bind_normal in H0 as ([stop sf] & w2 & Hg & H0).
  rewrite bind_modify, run_ret in H0. injection H0 as <- <-.
  by exists pc, stop, sf, w2.
Qed.

(** C8: a call of [fit] that returns has tested every supplied generator
    against the dimensions of the parameters, all with success and before
    anything else; has then run the growth, from the checkpoint of the
    working directory when there is one, to a finished [train_states]; has
    called [finetune] on the model assembled from that state, which holds
    the name of the class, the topology and the weights of the state, the
    operators resolved from its operator indices, and its bias and output
    activation settings; has removed the working directory; and returns the
    performance, the history of the growth and the history of the
    fine-tuning, in that order. *)
Theorem fit_sequence p d (w : World) performance p_history f_history w' :
  fit p d w = Normal (performance, p_history, f_history) w' →
  ∃ pc stop sf w2 md md' gev,
    check_parameters p = inr pc ∧
    let p' := growth_params d pc in
    let w1 := generators_tested d w in
    Forall (λ g, test_generator g (input_dim p') (output_dim p') = true)
      (supplied d) ∧
    with_states (initial_states p' w1) (grow p' d) w1 = Normal (stop, sf) w2 ∧
    trace w2 = trace w ++ (EvTestGenerator <$> supplied d) ++ gev ∧
    is_finished sf = true ∧
    md_model md = "HoMLGOP" ∧
    md_topology md = topology sf ∧
    md_op_sets md = map_operator_from_index (op_set_indices sf) p' ∧
    md_weights md = weights sf ∧
    md_use_bias md = use_bias sf ∧
    md_output_activation md = output_activation sf ∧
    finetune p d md = inr (f_history, performance, md') ∧
    p_history = history sf ∧
    w' = mkWorld (cuda w2) None (Some md')
           (trace w2 ++ EvFinetune md
            :: match workdir w2 with Some _ => [EvRmtree] | None => [] end).
Proof.
  unfold fit. intros H0.
  apply bind_normal in H0 as (h & wa & Hp & H0).
  apply progressive_learn_normal in Hp
    as (pc & stop & sf & w2 & Hpc & Hall & Hg & -> & ->).
  cbv zeta in *.
  apply bind_normal in H0 as ([fh perf] & wb & Hf & H0).
  unfold call_finetune in Hf. rewrite bind_get in Hf. cbn [model_data set_model_data] in Hf.
  rewrite bind_modify in Hf.
  destruct (finetune p d _) as [e|[[fh' perf'] md']] eqn:Hft; [done|].
  rewrite bind_modify, run_ret in Hf. injection Hf as <- <- <-.
  apply bind_normal in H0 as ([] & wc & Hr & H0).
  rewrite run_ret in H0. injection H0 as <- <- <- <-.
  assert (is_finished sf = true ∧ ∃ gev,
            trace w2 = trace (generators_tested d w) ++ gev) as [Hfin [gev Hgev]].
  { unfold with_states in Hg.
    pose proof (grow_effect_ok (growth_params d pc) d
                  (mkMachine (initial_states (growth_params d pc)
                                (generators_tested d w))
                     (generators_tested d w))) as (gev & Hem & _).
    destruct (grow _ _ _) as [a σ|e σ] eqn:Hgrow; [|done].
    injection Hg as <- <- <-. split; [by eapply grow_finished|].
    exists gev. by destruct Hem as (_ & _ & Ht & _). }
  exists pc, stop, sf, w2, (assemble (growth_params d pc) sf), md', gev.
  split_and!; try done.
  - rewrite Hgev. unfold generators_tested. cbn [trace].
    by rewrite <- app_assoc.
  - unfold remove_workdir in Hr. rewrite bind_get in Hr.
    cbn [workdir emit set_model_data] in Hr.
    destruct (workdir w2) eqn:Hwd.
    + rewrite bind_modify, run_modify in Hr. injection Hr as <-.
      unfold emit, set_workdir. simpl. by rewrite <- app_assoc.
    + rewrite run_ret in Hr. injection Hr as <-.
      unfold emit. simpl. by rewrite Hwd.
Qed.

End Claims.

(** ** The claims on concrete runs *)

Section Runs.
#[local] Existing Instance Demo.domains.
Import Demo.

Lemma blank_fresh t : fresh (blank t).
Proof. by repeat split. Qed.

Lemma improving_frames t0 p : frames (C := collaborators t0 improving) p data.
Proof. intros t ops w names nm h w' [= _ _ <-] key _. done. Qed.

Lemma steady_frames t0 p : frames (C := collaborators t0 steady) p data.
Proof. intros t ops w names nm h w' [= _ _ <-] key _. done. Qed.

(** C1, as stated, fails: a network of one layer, grown from the fresh
    topology of one entry, has a topology of three entries (the input
    dimension, the list of blocks and the output descriptor), which is
    neither even nor twice the number of layers. *)
Lemma topology_not_even :
  let o := grown 1 1 inputs improving in
  (∃ σ', o = Normal false σ') ∧
  length (history (states (outcome_state o))) = 1 ∧
  length (topology (states (outcome_state o))) = 3 ∧
  ¬ Nat.Even (length (topology (states (outcome_state o)))) ∧
  ¬ topology_parity (states (outcome_state o)).
Proof.
  cbv zeta. split_and!.
  - eexists. vm_compute. reflexivity.
  - vm_compute. reflexivity.
  - vm_compute. reflexivity.
  - assert (length (topology (states (outcome_state
                                      (grown 1 1 inputs improving)))) = 3)
      as -> by (vm_compute; reflexivity).
    intros [n H]. lia.
  - intros [_ H]. vm_compute in H. discriminate.
Qed.




(** C2 fails on the code.  With two layers of one block each, the first
    checkpoint is written after the commit of block 0 of layer 0, with the
    cursors [(0, 0)]: [block_iter] is back to 0 and [layer_iter] is not yet
    advanced (line 341 comes after the checkpoint).  The growth resumed from
    this checkpoint opens layer 0 a second time: the model has five topology
    entries where the uninterrupted growth has three, and the history
    differs. *)
Theorem resume_diverges :
  let c := head (checkpoints (grown 2 1 [] improving)) in
  (layer_iter <$> c) = Some 0 ∧ (block_iter <$> c) = Some 0 ∧
  (history <$> c) = Some [[7]] ∧
  (∃ w, learnt 2 1 [] improving None = Normal [[7]; [7]] w) ∧
  (∃ w, learnt 2 1 [] improving c = Normal [[7; 7]; [7]; []] w) ∧
  (fst <$> model_of (learnt 2 1 [] improving None))
  = Some [Blocks [("gop", 20%Z)]; Blocks [("gop", 20%Z)]; Tuple "dense" 2] ∧
  (fst <$> model_of (learnt 2 1 [] improving c))
  = Some [Blocks [("gop", 20%Z)]; Tuple "dense" 2;
          Blocks [("gop", 20%Z)]; Blocks [("gop", 20%Z)]; Tuple "dense" 2].
Proof.
  cbv zeta. split_and!; try (vm_compute; reflexivity);
    eexists; vm_compute; reflexivity.
Qed.

(** C7 fails on the code, by the defect of C2.  With one layer of three
    blocks, the checkpoint written after the commit of the last block holds
    the cursors [(0, 0)].  The growth resumed from it opens layer 0 again and
    searches again: the operator index of block 0 of the layer is written
    anew (line 253), while block 2 keeps the index of the first search.  The
    model then holds two operator sets, 4 and 2, for the blocks of layer 0;
    the uninterrupted growth gives the index 2 to all three. *)
Theorem resumed_layer_mixes_operator_sets :
  let c := checkpoints (grow (C := exploring inputs saturating) (params 1 3)
                          data (start inputs)) !! 2 in
  (layer_iter <$> c) = Some 0 ∧ (block_iter <$> c) = Some 0 ∧
  (is_finished <$> c) = Some false ∧
  ((λ s, op_set_indices s !! gop 0 0) <$> c) = Some (Some 2) ∧
  ((λ s, op_set_indices s !! gop 0 2) <$> c) = Some (Some 2) ∧
  (∃ σ', grow (C := exploring inputs saturating) (params 1 3) data
           (start inputs) = Normal false σ' ∧
         op_set_indices (states σ') !! gop 0 0 = Some 2 ∧
         op_set_indices (states σ') !! gop 0 1 = Some 2 ∧
         op_set_indices (states σ') !! gop 0 2 = Some 2) ∧
  ∃ s h w md sf,
    c = Some s ∧
    progressive_learn (C := exploring inputs saturating) (params 1 3) data
      (interrupted s) = Normal h w ∧
    model_data w = Some md ∧
    md_topology md !! 1
    = Some (Blocks [("gop", 20%Z); ("gop", 20%Z); ("gop", 20%Z)]) ∧
    md_op_sets md !! gop 0 0 = Some 4 ∧
    md_op_sets md !! gop 0 2 = Some 2 ∧
    last (dumps (trace w)) = Some sf ∧
    ¬ same_operator_sets 1 sf.
Proof.
  cbv zeta. split_and!; try (vm_compute; reflexivity).
  - eexists. split_and!; vm_compute; reflexivity.
  - pose (s := default (blank [])
                 (checkpoints (grow (C := exploring inputs saturating)
                                 (params 1 3) data (start inputs)) !! 2)).
    pose (o := progressive_learn (C := exploring inputs saturating)
                 (params 1 3) data (interrupted s)).
    pose (h := match o with Normal h _ => h | _ => [] end).
    pose (w := outcome_state o).
    pose (md := default (assemble (C := exploring inputs saturating)
                           (params 1 3) s) (model_data w)).
    pose (sf := default s (last (dumps (trace w)))).
    exists s, h, w, md, sf. split_and!; try (vm_compute; reflexivity).
    intros H.
    destruct (H 0 [("gop", 20%Z); ("gop", 20%Z); ("gop", 20%Z)] 2)
      as (i & H2 & H0); [vm_compute; reflexivity|simpl; lia|].
    vm_compute in H2. vm_compute in H0. congruence.
Qed.

(** C10 fails on the code, by the defect of C2.  With two layers of one block
    each and a training that never improves, the growth resumed from the
    first checkpoint, which holds the cursors [(0, 0)], opens layer 0 again:
    the history then has one entry more than there are layers.  When the
    layer convergence rejects layer 1, line 336 deletes the last entry of the
    history, which is not the entry of layer 1: the returned history keeps
    the log of the rejected layer, whose block and weights are gone.  The
    uninterrupted growth returns the history of layer 0 alone. *)
Theorem resumed_rollback_keeps_history :
  let c := head (checkpoints (grown 2 1 inputs steady)) in
  (layer_iter <$> c) = Some 0 ∧ (block_iter <$> c) = Some 0 ∧
  (is_finished <$> c) = Some false ∧
  (∃ σ', grown 2 1 inputs steady = Normal true σ' ∧
         history (states σ') = [[7]] ∧
         measure (states σ') = [[50]; [50]]%Z) ∧
  ∃ s σ',
    c = Some s ∧
    grow (C := collaborators inputs steady) (params 2 1) data
      (mkMachine s (interrupted s)) = Normal true σ' ∧
    history (states σ') = [[7; 7]; [7]] ∧
    measure (states σ') = [[50; 50]; [50]; []]%Z ∧
    op_set_indices (states σ') !! gop 1 0 = None ∧
    weights (states σ') !! gop 1 0 = None ∧
    topology (states σ')
    = [Scalar 8; Blocks [("gop", 20%Z)]; Tuple "dense" 2;
       Blocks [("gop", 20%Z)]; Tuple "dense" 2] ∧
    ∃ w, progressive_learn (C := collaborators inputs steady) (params 2 1)
           data (interrupted s) = Normal [[7; 7]; [7]] w.
Proof.
  cbv zeta. split_and!; try (vm_compute; reflexivity).
  - eexists. split_and!; vm_compute; reflexivity.
  - pose (s := default (blank []) (head (checkpoints (grown 2 1 inputs steady)))).
    pose (σ' := outcome_state
                  (grow (C := collaborators inputs steady) (params 2 1) data
                     (mkMachine s (interrupted s)))).
    exists s, σ'. split_and!; try (vm_compute; reflexivity).
    eexists. vm_compute. reflexivity.
Qed.

(** *** The theorems at work *)

Lemma topology_length_witness :
  fresh (blank inputs) ∧ 0 < max_block (params 2 1) ∧
  length (topology (blank inputs)) = 1 ∧
  length (history (states (outcome_state (grown 2 1 inputs improving)))) = 2 ∧
  length (topology (states (outcome_state (grown 2 1 inputs improving)))) = 4 ∧
  topology_parity (states (outcome_state (grown 2 1 inputs improving))).
Proof.
  assert (fresh (blank inputs)) as Hf by (by repeat split).
  assert (0 < max_block (params 2 1)) as Hmb by (simpl; lia).
  pose (σ' := outcome_state (grown 2 1 inputs improving)).
  assert (grow (C := collaborators inputs improving) (params 2 1) data
            (mkMachine (blank inputs) world0) = Normal false σ') as E
    by (vm_compute; reflexivity).
  assert (length (topology (blank inputs)) = 1) as H1 by reflexivity.
  assert (length (history (states σ')) = 2) as H2
    by (vm_compute; reflexivity).
  destruct (topology_length (C := collaborators inputs improving) (params 2 1)
              data (blank inputs) world0 Hf Hmb) as [_ H].
  destruct (H false σ' E) as (_ & _ & H3).
  destruct (H3 H1) as (_ & H4 & _).
  split; [exact Hf|]. split; [exact Hmb|]. split; [exact H1|].
  split; [exact H2|]. exact (H4 H2).
Defined.


Lemma operator_sets_reused_witness :
  fresh (blank inputs) ∧ 0 < max_block (params 2 3) ∧
  same_operator_sets 1 (states (outcome_state (grown 2 3 inputs improving))) ∧
  ∃ σ1 σ2 t ops w,
    block_body (C := collaborators inputs improving) (params 2 3) data 0 1 σ1
    = Normal false σ2 ∧
    Some 3 = ops !! gop 0 1 ∧
    EvBlockUpdate t ops w (block_names 0 1) ∈ trace (world σ2).
Proof.
  assert (fresh (blank inputs)) as Hf by (by repeat split).
  assert (0 < max_block (params 2 3)) as Hmb by (simpl; lia).
  destruct (operator_sets_reused (C := collaborators inputs improving)
              (params 2 3) data) as [Hblock Hrun].
  split; [exact Hf|]. split; [exact Hmb|]. split.
  - pose (σ' := outcome_state (grown 2 3 inputs improving)).
    assert (grow (C := collaborators inputs improving) (params 2 3) data
              (mkMachine (blank inputs) world0) = Normal false σ') as E
      by (vm_compute; reflexivity).
    destruct (Hrun (blank inputs) world0 Hf Hmb) as [_ H].
    exact (H false σ' E).
  - pose (σ1 := outcome_state
                  (block_body (C := collaborators inputs improving) (params 2 3)
                     data 0 0 (start inputs))).
    pose (σ2 := outcome_state
                  (block_body (C := collaborators inputs improving) (params 2 3)
                     data 0 1 σ1)).
    assert (block_body (C := collaborators inputs improving) (params 2 3) data
              0 1 σ1 = Normal false σ2) as E2 by (vm_compute; reflexivity).
    assert (1 ≠ 0) as Hk by lia.
    destruct (Hblock 0 1 σ1 false σ2 Hk E2)
      as (idx & w0 & w1 & w2 & t & Hidx & _ & _ & _ & Hev).
    assert (op_set_indices (states σ1) !! gop 0 (1 - 1) = Some 3) as H3
      by (vm_compute; reflexivity).
    exists σ1, σ2, t. eexists _, _.
    split; [exact E2|]. split; [|exact Hev].
    rewrite lookup_insert_eq. exact (eq_trans (eq_sym H3) Hidx).
Defined.

Lemma first_layer_accepted_witness :
  fresh (blank []) ∧ 0 < max_block (params 2 1) ∧
  0 < max_layer (params 2 1) ∧
  history (states (outcome_state (grown 2 1 [] steady))) ≠ [].
Proof.
  assert (fresh (blank [])) as Hf by (by repeat split).
  assert (0 < max_block (params 2 1)) as Hmb by (simpl; lia).
  assert (0 < max_layer (params 2 1)) as Hml by (simpl; lia).
  pose (σ' := outcome_state (grown 2 1 [] steady)).
  assert (grow (C := collaborators [] steady) (params 2 1) data
            (mkMachine (blank []) world0) = Normal true σ') as E
    by (vm_compute; reflexivity).
  destruct (first_layer_accepted (C := collaborators [] steady) (params 2 1)
              data) as (_ & _ & _ & H).
  destruct (H (blank []) world0 true σ' Hf Hmb Hml E) as [Hh _].
  split; [exact Hf|]. split; [exact Hmb|]. split; [exact Hml|]. exact Hh.
Defined.

Lemma measure_kept_witness :
  fresh (blank inputs) ∧ 0 < max_block (params 2 1) ∧
  length (measure (states (outcome_state (grown 2 1 inputs steady))))
  = S (length (history (states (outcome_state (grown 2 1 inputs steady))))) ∧
  ∃ σL σb σ',
    layer_reached (C := collaborators inputs steady) (params 2 1) data
      (start inputs) 1 σL ∧
    block_loop (C := collaborators inputs steady) (params 2 1) data 1
      (range (block_iter (states σL)) (max_block (params 2 1))) σL
    = Normal false σb ∧
    layer_check (C := collaborators inputs steady) (params 2 1) 1 σb
    = Normal true σ' ∧
    length (history (states σb)) = 2 ∧
    length (history (states σ')) = 1 ∧
    length (measure (states σ')) = 2.
Proof.
  assert (fresh (blank inputs)) as Hf by (by repeat split).
  assert (0 < max_block (params 2 1)) as Hmb by (simpl; lia).
  destruct (measure_kept (C := collaborators inputs steady) (params 2 1) data)
    as (_ & Hlayer & Hrun).
  split; [exact Hf|]. split; [exact Hmb|]. split.
  - pose (σ' := outcome_state (grown 2 1 inputs steady)).
    assert (grow (C := collaborators inputs steady) (params 2 1) data
              (mkMachine (blank inputs) world0) = Normal true σ') as E
      by (vm_compute; reflexivity).
    exact (Hrun (blank inputs) world0 true σ' Hf Hmb E).
  - pose (σL := outcome_state
                  (layer_body (C := collaborators inputs steady) (params 2 1)
                     data 0 (start inputs))).
    pose (σb := outcome_state
                  (block_loop (C := collaborators inputs steady) (params 2 1)
                     data 1 [0] σL)).
    pose (σ' := outcome_state
                  (layer_check (C := collaborators inputs steady) (params 2 1)
                     1 σb)).
    assert (layer_body (C := collaborators inputs steady) (params 2 1) data
              0 (start inputs) = Normal false σL) as E1
      by (vm_compute; reflexivity).
    assert (block_loop (C := collaborators inputs steady) (params 2 1) data 1
              (range (block_iter (states σL)) (max_block (params 2 1))) σL
            = Normal false σb) as E2 by (vm_compute; reflexivity).
    assert (layer_check (C := collaborators inputs steady) (params 2 1) 1 σb
            = Normal true σ') as E3 by (vm_compute; reflexivity).
    assert (1 < max_layer (params 2 1)) as Hml by (simpl; lia).
    pose proof (layer_next (C := collaborators inputs steady) (params 2 1)
                  data (start inputs) 0 (start inputs) σL
                  (layer_first (C := collaborators inputs steady) (params 2 1)
                     data (start inputs))
                  Hml E1) as Hr.
    destruct (Hlayer (start inputs) 1 σL false σb σ' Hf Hmb Hr Hml E2 E3)
      as (H1 & _ & _ & _ & H2 & _).
    exists σL, σb, σ'. split; [exact Hr|]. split; [exact E2|].
    split; [exact E3|]. split; [vm_compute; reflexivity|].
    split; [exact H1|exact H2].
Defined.

Lemma fit_sequence_witness :
  ∃ w' md,
    fit (C := collaborators inputs improving) (params 2 1) data world0
    = Normal (0%Z, [[7]; [7]], 0) w' ∧
    workdir w' = None ∧ is_Some (model_data w') ∧
    EvFinetune md ∈ trace w' ∧
    md_model md = "HoMLGOP" ∧
    md_topology md
    = [Scalar 8; Blocks [("gop", 20%Z)]; Blocks [("gop", 20%Z)];
       Tuple "dense" 2] ∧
    md_weights md !! gop 1 0 = Some 1%Z ∧
    md_weights md !! "output" = Some 3%Z ∧
    md_op_sets md !! gop 0 0 = Some 3 ∧
    md_op_sets md !! gop 1 0 = Some 3 ∧
    md_use_bias md = true.
Proof.
  pose (w' := outcome_state
                (fit (C := collaborators inputs improving) (params 2 1) data
                   world0)).
  assert (fit (C := collaborators inputs improving) (params 2 1) data world0
          = Normal (0%Z, [[7]; [7]], 0) w') as E by (vm_compute; reflexivity).
  pose (o := with_states
               (initial_states (C := collaborators inputs improving)
                  (growth_params data (params 2 1))
                  (generators_tested data world0))
               (grow (C := collaborators inputs improving)
                  (growth_params data (params 2 1)) data)
               (generators_tested data world0)).
  pose (sf0 := match o with Normal (_, s) _ => s | _ => blank [] end).
  assert (o = Normal (false, sf0) (outcome_state o)) as Eo
    by (vm_compute; reflexivity).
  assert (topology sf0
          = [Scalar 8; Blocks [("gop", 20%Z)]; Blocks [("gop", 20%Z)];
             Tuple "dense" 2]) as F1 by (vm_compute; reflexivity).
  assert (weights sf0 !! gop 1 0 = Some 1%Z) as F2
    by (vm_compute; reflexivity).
  assert (weights sf0 !! "output" = Some 3%Z) as F3
    by (vm_compute; reflexivity).
  assert (map_operator_from_index (Collaborators := collaborators inputs improving)
            (op_set_indices sf0) (growth_params data (params 2 1))
          !! gop 0 0 = Some 3) as F4 by (vm_compute; reflexivity).
  assert (map_operator_from_index (Collaborators := collaborators inputs improving)
            (op_set_indices sf0) (growth_params data (params 2 1))
          !! gop 1 0 = Some 3) as F5 by (vm_compute; reflexivity).
  assert (use_bias sf0 = true) as F6 by (vm_compute; reflexivity).
  destruct (fit_sequence (C := collaborators inputs improving) (params 2 1) data
              world0 _ _ _ w' E)
    as (pc & stop & sf & w2 & md & md' & gev & Hpc & _ & Hg & _ & _ &
        Hm & Ht & Ho & Hwt & Hb & _ & _ & _ & Hw).
  injection Hpc as <-.
  pose proof (eq_trans (eq_sym Eo) Hg) as Hg'.
  clear Eo Hg. clearbody sf0 o.
  injection Hg' as <- <- <-.
  exists w', md. split; [exact E|].
  rewrite Hw. cbn [workdir model_data trace].
  split; [reflexivity|]. split; [exact (ex_intro _ md' eq_refl)|].
  split; [apply elem_of_app; right; apply list_elem_of_here|].
  split; [exact Hm|].
  split; [exact (eq_trans Ht F1)|].
  split; [rewrite Hwt; exact F2|].
  split; [rewrite Hwt; exact F3|].
  split; [rewrite Ho; exact F4|].
  split; [rewrite Ho; exact F5|].
  exact (eq_trans Hb F6).
Defined.

End Runs.

(** * Further properties of the code *)

Section Further.
Context {D : Domains} {C : Collaborators}.

(** ** [progressive_learn] and [fit] around the growth *)

(** What [progressive_learn] does once the parameters are checked and the
    generators have passed their test. *)
Lemma progressive_learn_ok p d (w : World) pc :
  check_parameters p = inr pc →
  let p' := growth_params d pc in
  Forall (λ g, test_generator g (input_dim p') (output_dim p') = true)
    (supplied d) →
  progressive_learn p d w
  = let w1 := generators_tested d w in
    match with_states (initial_states p' w1) (grow p' d) w1 with
    | Normal (_, sf) w2 =>
        Normal (history sf) (set_model_data (Some (assemble p' sf)) w2)
    | Raised e w2 => Raised e w2
    end.
Proof.
  intros Hpc p' Hall. unfold progressive_learn. rewrite Hpc, bind_lift_inr.
  fold (growth_params d pc). fold p'.
  assert (∀ {A} (k : M World A),
            (call_test_generator (train_gen d) p';;
             match val_gen d with
             | Some g => call_test_generator g p'
             | None => mret ()
             end;;
             match test_gen d with
             | Some g => call_test_generator g p'
             | None => mret ()
             end;;
             k) w = k (generators_tested d w)) as Hrun.
  { intros A k. unfold generators_tested, supplied in *.
    destruct (val_gen d) as [gv|], (test_gen d) as [gt|];
      unfold option_list in Hall; cbn [app option_rect] in Hall;
      repeat match goal with
      | H : Forall _ (_ :: _) |- _ =>
          let E := fresh "E" in apply Forall_cons in H as [E H]
      end;
      repeat (unfold mbind at 1, M_bind at 1;
              rewrite ?call_test_generator_run, ?run_ret;
              repeat match goal with
              | H : test_generator _ _ _ = true |- _ => rewrite H
              end;
              cbv beta iota);
      unfold emit; simpl; by rewrite <- ?app_assoc. }
  rewrite Hrun. cbv zeta. unfold initialize_states.
  rewrite bind_assoc, bind_get.
  set (w1 := generators_tested d w).
  assert ((match workdir w1 with
           | Some (Some s) => mret s
           | _ => mret (new_states p')
           end : M World TrainState) = mret (initial_states p' w1)) as ->.
  { unfold initial_states. by destruct (workdir w1) as [[?|]|]. }
  rewrite bind_ret. unfold mbind at 1, M_bind at 1.
  by destruct (with_states _ _ w1) as [[stop sf] w2|e w2].
Qed.

(** The run of [progressive_learn] and of [fit] when a generator fails its
    test. *)
Lemma tests_fail_fast p d (w : World) pc :
  check_parameters p = inr pc →
  let p' := growth_params d pc in
  ¬ Forall (λ g, test_generator g (input_dim p') (output_dim p') = true)
      (supplied d) →
  ∃ gs g w',
    (gs ++ [g]) `prefix_of` supplied d ∧
    Forall (λ g, test_generator g (input_dim p') (output_dim p') = true) gs ∧
    test_generator g (input_dim p') (output_dim p') = false ∧
    progressive_learn p d w = Raised (Failure "test_generator") w' ∧
    fit p d w = Raised (Failure "test_generator") w' ∧
    cuda w' = cuda w ∧ workdir w' = workdir w ∧
    model_data w' = model_data w ∧
    trace w' = trace w ++ (EvTestGenerator <$> gs ++ [g]).
Proof.
  intros Hpc p' Hnot.
  assert (∃ gs g,
            (gs ++ [g]) `prefix_of` supplied d ∧
            Forall (λ g, test_generator g (input_dim p') (output_dim p') = true)
              gs ∧
            test_generator g (input_dim p') (output_dim p') = false ∧
            progressive_learn p d w
            = Raised (Failure "test_generator")
                (mkWorld (cuda w) (workdir w) (model_data w)
                   (trace w ++ (EvTestGenerator <$> gs ++ [g]))))
    as (gs & g & Hpre & Hgs & Hg & Hrun).
  { unfold progressive_learn. rewrite Hpc, bind_lift_inr.
    fold (growth_params d pc). fold p'. unfold supplied in *.
    destruct (test_generator (train_gen d) (input_dim p') (output_dim p'))
      eqn:E0.
    2:{ exists [], (train_gen d). split_and!; [by eexists|done|done|].
        unfold mbind at 1, M_bind at 1.
        by rewrite call_test_generator_run, E0. }
    destruct (val_gen d) as [gv|].
    - destruct (test_generator gv (input_dim p') (output_dim p')) eqn:E1.
      2:{ exists [train_gen d], gv.
          split_and!; [by eexists|by repeat constructor|done|].
          repeat (unfold mbind at 1, M_bind at 1;
                  rewrite ?call_test_generator_run, ?E0, ?E1; cbv beta iota).
          unfold emit; simpl. by rewrite <- ?app_assoc. }
      destruct (test_gen d) as [gt|].
      + destruct (test_generator gt (input_dim p') (output_dim p')) eqn:E2.
        { destruct Hnot. by repeat constructor. }
        exists [train_gen d; gv], gt.
        split_and!; [by eexists|by repeat constructor|done|].
        repeat (unfold mbind at 1, M_bind at 1;
                rewrite ?call_test_generator_run, ?E0, ?E1, ?E2;
                cbv beta iota).
        unfold emit; simpl. by rewrite <- ?app_assoc.
      + destruct Hnot. by repeat constructor.
    - destruct (test_gen d) as [gt|].
      + destruct (test_generator gt (input_dim p') (output_dim p')) eqn:E2.
        { destruct Hnot. by repeat constructor. }
        exists [train_gen d], gt.
        split_and!; [by eexists|by repeat constructor|done|].
        repeat (unfold mbind at 1, M_bind at 1;
                rewrite ?call_test_generator_run, ?run_ret, ?E0, ?E2;
                cbv beta iota).
        unfold emit; simpl. by rewrite <- ?app_assoc.
      + destruct Hnot. by repeat constructor. }
  exists gs, g. eexists. split_and!; [done|done|done|exact Hrun| |done..].
  unfold fit. unfold mbind at 1, M_bind at 1. by rewrite Hrun.
Qed.

(** X1: once [check_parameters] has returned, a generator that fails its
    test ends [progressive_learn], and with it [fit], at that test: the
    generators before it were tested with success, in the order training,
    validation, test; it is the last one tested; and none of the calls that
    come after the tests is made, no search, no training, no write of a
    checkpoint, no fine-tuning and no removal of the working directory.
    (What [check_parameters] does before the tests is not part of this.) *)
Theorem generators_fail_fast p d (w : World) pc :
  check_parameters p = inr pc →
  let p' := growth_params d pc in
  ¬ Forall (λ g, test_generator g (input_dim p') (output_dim p') = true)
      (supplied d) →
  ∃ gs g w',
    (gs ++ [g]) `prefix_of` supplied d ∧
    Forall (λ g, test_generator g (input_dim p') (output_dim p') = true) gs ∧
    test_generator g (input_dim p') (output_dim p') = false ∧
    progressive_learn p d w = Raised (Failure "test_generator") w' ∧
    fit p d w = Raised (Failure "test_generator") w' ∧
    trace w' = trace w ++ (EvTestGenerator <$> gs ++ [g]).
Proof.
  intros Hpc p' Hnot.
  destruct (tests_fail_fast p d w pc Hpc Hnot)
    as (gs & g & w' & Hpre & Hgs & Hg & Hrun & Hfit & _ & _ & _ & Htr).
  by exists gs, g, w'.
Qed.

(** X2: when the working directory holds a checkpoint that is marked
    finished, [progressive_learn] grows nothing: after the tests of the
    generators it assembles the model of the checkpoint and returns its
    history; no search, no training and no checkpoint is made. *)
Theorem finished_checkpoint_is_kept p d (w : World) pc s :
  check_parameters p = inr pc →
  let p' := growth_params d pc in
  Forall (λ g, test_generator g (input_dim p') (output_dim p') = true)
    (supplied d) →
  workdir w = Some (Some s) → is_finished s = true →
  progressive_learn p d w
  = Normal (history s)
      (set_model_data (Some (assemble p' s)) (generators_tested d w)).
Proof.
  intros Hpc p' Hall Hwd Hfin.
  rewrite (progressive_learn_ok p d w pc Hpc Hall). cbv zeta.
  unfold initial_states, generators_tested at 1. cbn [workdir]. rewrite Hwd.
  unfold with_states, grow. rewrite bind_read. cbn [states]. rewrite Hfin.
  by rewrite run_ret.
Qed.

(** At the end of a growth that had something to do, the working directory
    holds the state that the growth returns, marked finished, and the
    checkpoint of it is the last event. *)
Lemma grow_final p d σ stop σ' :
  grow p d σ = Normal stop σ' → is_finished (states σ) = false →
  workdir (world σ') = Some (Some (states σ')) ∧
  last (trace (world σ')) = Some (EvDump (states σ')).
Proof.
  unfold grow. rewrite bind_read. intros H0 Hfin. rewrite Hfin in H0.
  rewrite bind_read in H0.
  apply bind_normal in H0 as (stop' & σ1 & _ & H0).
  rewrite bind_update in H0.
  apply bind_normal in H0 as ([] & σ2 & Hd & H0).
  apply dump_normal in Hd as [_ ->]. rewrite run_ret in H0.
  injection H0 as _ <-. rsimpl. split; [done|]. apply last_snoc.
Qed.

(** X3: [progressive_learn] called again after it has returned trains
    nothing: it tests the generators, and returns the same history and
    leaves the same model, the same working directory and the same CUDA
    setting. *)
Theorem progressive_learn_again p d (w : World) h w' :
  progressive_learn p d w = Normal h w' →
  ∃ w'',
    progressive_learn p d w' = Normal h w'' ∧
    model_data w'' = model_data w' ∧ workdir w'' = workdir w' ∧
    cuda w'' = cuda w' ∧
    trace w'' = trace w' ++ (EvTestGenerator <$> supplied d).
Proof.
  intros H0.
  apply progressive_learn_normal in H0
    as (pc & stop & sf & w2 & Hpc & Hall & Hg & -> & ->).
  cbv zeta in *. set (p' := growth_params d pc) in *.
  set (w1 := generators_tested d w) in *.
  assert (initial_states p' w2 = sf ∧ is_finished sf = true) as [Hini Hfin].
  { unfold with_states in Hg.
    destruct (grow p' d (mkMachine (initial_states p' w1) w1))
      as [a σ|e σ] eqn:Hgrow; [|done].
    injection Hg as <- <- <-. split; [|by eapply grow_finished].
    destruct (is_finished (initial_states p' w1)) eqn:Hf0.
    - unfold grow in Hgrow. rewrite bind_read in Hgrow. cbn [states] in Hgrow.
      rewrite Hf0, run_ret in Hgrow. by injection Hgrow as _ <-.
    - apply grow_final in Hgrow as [Hwd _]; [|done].
      unfold initial_states. by rewrite Hwd. }
  rewrite (progressive_learn_ok p d _ pc Hpc Hall). cbv zeta. fold p'.
  assert (initial_states p'
            (generators_tested d (set_model_data (Some (assemble p' sf)) w2))
          = sf) as ->.
  { by rewrite <- Hini. }
  unfold with_states, grow. rewrite bind_read. cbn [states]. rewrite Hfin.
  rewrite run_ret. eexists. split; [done|]. by split_and!.
Qed.

(** X4: when the fine-tuning raises, [fit] raises the same error and the
    working directory is not removed: the world is the one that
    [progressive_learn] left, with the call of [finetune] as its last
    event. *)
Theorem fit_keeps_workdir_on_failure p d (w : World) h w1 md e :
  progressive_learn p d w = Normal h w1 →
  model_data w1 = Some md → finetune p d md = inl e →
  fit p d w = Raised e (emit (EvFinetune md) w1).
Proof.
  intros Hp Hmd He. unfold fit. unfold mbind at 1, M_bind at 1. rewrite Hp.
  unfold call_finetune. rewrite bind_assoc, bind_get, Hmd.
  rewrite bind_assoc, bind_modify. by rewrite He, bind_raise.
Qed.

(** ** The keys of the blocks *)

(** X5: the keys ['gop' + suffix] and ['bn' + suffix] tell the blocks apart:
    two blocks have the same key only when they are the same block of the
    same layer, no operator key is a normalisation key, and none of them is
    the key ['output']. *)
Theorem block_keys_distinct l b l' b' :
  (gop l b = gop l' b' ↔ l = l' ∧ b = b') ∧
  (bn l b = bn l' b' ↔ l = l' ∧ b = b') ∧
  gop l b ≠ bn l' b' ∧ gop l b ≠ "output" ∧ bn l b ≠ "output".
Proof.
  split_and!.
  - split; [apply gop_inj|by intros [-> ->]].
  - split; [apply bn_inj|by intros [-> ->]].
  - apply gop_ne_bn.
  - apply gop_ne_output.
  - apply bn_ne_output.
Qed.

(** ** The checkpoints *)

Lemma built_consistent p base layers s :
  built p base layers s → Forall (λ bl, bl ≠ []) layers →
  consistent (length base) s.
Proof.
  intros [Ht Hh Hbl Ho _] Hne.
  assert (∀ l bl, l < length layers →
            (topology s !! (length base + l) = Some (Blocks bl)
             ↔ layers !! l = Some bl)) as Hlook.
  { intros l bl Hl. rewrite Ht, lookup_app_r by lia.
    replace (length base + l - length base) with l by lia.
    rewrite lookup_app_l by (by rewrite length_fmap).
    rewrite list_lookup_fmap. destruct (layers !! l); simpl;
      split; congruence. }
  split.
  - intros l hl Hl. pose proof (lookup_lt_Some _ _ _ Hl) as Hlt.
    rewrite Hh in Hlt.
    destruct (lookup_lt_is_Some_2 layers l Hlt) as [bl Hbl'].
    destruct (Hbl l bl Hbl') as (hl' & ml & Hhl & Hml & E1 & E2).
    exists bl, ml. rewrite Hl in Hhl. injection Hhl as <-.
    split_and!; [by apply Hlook|done| |done..].
    eapply Forall_lookup_1 in Hne; done.
  - intros key. rewrite Ho. unfold block_key. split.
    + intros (l & b & bl & -> & Hl & Hb). exists l, b, bl.
      pose proof (lookup_lt_Some _ _ _ Hl) as Hlt.
      split_and!; [done|lia|by apply Hlook|done].
    + intros (l & b & bl & -> & Hl & Ht' & Hb). exists l, b, bl.
      split_and!; [done| |done]. apply Hlook; [lia|done].
Qed.

Lemma checkpoint_consistent p base s :
  checkpoint_ok p base s → consistent (length base) s.
Proof.
  intros (_ & _ & [(Ht & Hh & _ & Ho)|(layers & _ & Hne & Hb & _)]).
  - split.
    + intros l hl. by rewrite Hh.
    + intros key. rewrite Ho, lookup_empty, Hh. split; [by intros []|].
      intros (l & _ & _ & _ & Hl & _). simpl in Hl. lia.
  - by eapply built_consistent.
Qed.

(** X7: however a growth from a fresh state ends, with a result or with an
    exception, every checkpoint that it wrote holds a consistent network: a
    block list, not empty, for every layer of the history, one training log
    and one measure for every block, and an operator index for exactly the
    blocks of the topology; and so does the state that it returns. *)
Theorem checkpoints_consistent p d s0 (w : World) :
  fresh s0 → 0 < max_block p →
  traced (trace w) (world (outcome_state (grow p d (mkMachine s0 w))))
    (λ evs, Forall (consistent (length (topology s0))) (dumps evs)) ∧
  ∀ stop σ', grow p d (mkMachine s0 w) = Normal stop σ' →
    consistent (length (topology s0)) (states σ').
Proof.
  intros Hf Hmb. pose proof (grow_inv p d s0 w Hf Hmb) as Hinv.
  cbv zeta in Hinv.
  destruct (grow p d (mkMachine s0 w)) as [stop σ1|e σ1]; simpl.
  - destruct Hinv as ((evs & Htr & [Hall _] & Hlast) & _). split.
    + exists evs. split; [done|].
      eapply Forall_impl; [done|]. apply checkpoint_consistent.
    + intros ? ? [= <- <-].
      eapply checkpoint_consistent, Forall_forall; [done|].
      apply last_Some_elem_of, Hlast.
  - destruct Hinv as (evs & Htr & [Hall _]). split; [|done].
    exists evs. split; [done|].
    eapply Forall_impl; [done|]. apply checkpoint_consistent.
Qed.

(** X6: a growth that had something to do and returns has written the
    state that it returns, marked finished, as its last checkpoint: the
    working directory holds that state, and the checkpoint of it is the last
    event. *)
Theorem last_checkpoint_is_result p d σ stop σ' :
  is_finished (states σ) = false →
  grow p d σ = Normal stop σ' →
  is_finished (states σ') = true ∧
  workdir (world σ') = Some (Some (states σ')) ∧
  last (trace (world σ')) = Some (EvDump (states σ')).
Proof.
  intros Hfin H0. split; [by eapply grow_finished|by eapply grow_final].
Qed.

(** ** Resuming inside a layer *)

Lemma bind_run_eq {Σ A B} (m m' : M Σ A) (k : A → M Σ B) (σ σ' : Σ) :
  m σ = m' σ' → (m ≫= k) σ = (m' ≫= k) σ'.
Proof. unfold mbind, M_bind. by intros ->. Qed.

Lemma block_body_is_finished p d L k σ b σ' :
  block_body p d L k σ = Normal b σ' →
  is_finished (states σ') = is_finished (states σ).
Proof.
  intros H0. apply block_body_normal in H0
    as (pre & bl & x & bw & idx & nm & h & w' & sev & H0).
  cbv zeta in H0. destruct H0 as (_ & _ & _ & _ & _ & Hb & _).
  destruct b.
  - destruct Hb as (_ & _ & _ & _ & out & _ & ->).
    unfold rolled_back, added, opened. rsimpl. by destruct (decide (k = 0)).
  - destruct Hb as (_ & out & ml & hl & _ & _ & _ & ->).
    unfold committed, added, opened. rsimpl. by destruct (decide (k = 0)).
Qed.

Lemma block_loop_is_finished p d L iters : ∀ σ b σ',
  block_loop p d L iters σ = Normal b σ' →
  is_finished (states σ') = is_finished (states σ).
Proof.
  induction iters as [|k iters IH]; intros σ b σ' H0.
  - by injection H0 as _ <-.
  - cbn [block_loop] in H0. apply bind_normal in H0 as (c & σ1 & Hb & H0).
    apply block_body_is_finished in Hb. destruct c.
    + injection H0 as _ <-. done.
    + apply IH in H0. congruence.
Qed.

Lemma layer_body_is_finished p d L σ b σ' :
  layer_body p d L σ = Normal b σ' →
  is_finished (states σ') = is_finished (states σ).
Proof.
  unfold layer_body. rewrite bind_read. intros H0.
  apply bind_normal in H0 as (bs & σ1 & Hl & H0).
  apply block_loop_is_finished in Hl. rewrite <- Hl.
  apply layer_close_normal in H0 as [[_ Hc]|(_ & _ & out & _ & ->)].
  - apply layer_check_normal in Hc as [[? _]|(_ & _ & Hc)]; [done|].
    destruct Hc as (? & ? & ? & ? & ? & ? & ? & ? & ? & ? & ? & Hc).
    destruct Hc as (_ & _ & _ & _ & _ & _ & _ & _ & _ & ->).
    unfold layer_rolled_back. by rsimpl.
  - rsimpl. by destruct bs.
Qed.

Lemma layer_reached_is_finished p d σ0 L σ :
  layer_reached p d σ0 L σ →
  is_finished (states σ) = is_finished (states σ0).
Proof.
  induction 1 as [|L σ σ' _ IH _ Hb]; [done|].
  apply layer_body_is_finished in Hb. congruence.
Qed.

Lemma block_reached_is_finished p d L σL k σ :
  block_reached p d L σL k σ →
  is_finished (states σ) = is_finished (states σL).
Proof.
  induction 1 as [|k σ σ' _ IH _ Hb]; [done|].
  apply block_body_is_finished in Hb. congruence.
Qed.


(** ** The work of a growth *)

Lemma count_app f (a b : list Event) : count f (a ++ b) = count f a + count f b.
Proof. unfold count. by rewrite List.filter_app, length_app. Qed.

(** The events of one body of the block loop: at most one training, and a
    search for block 0 only. *)
Lemma block_body_work p d L k σ :
  ∃ evs,
    trace (world (outcome_state (block_body p d L k σ)))
    = trace (world σ) ++ evs ∧
    count is_training evs ≤ 1 ∧
    count is_searching evs ≤ (if decide (k = 0) then 1 else 0).
Proof.
  destruct (block_body p d L k σ) as [b σ'|e σ'] eqn:H0; simpl.
  - apply block_body_normal in H0
      as (pre & bl & x & bw & idx & nm & h & w' & sev & H0).
    cbv zeta in H0.
    destruct H0 as (_ & Hk0 & Hk1 & _ & _ & _ & _ & _ & _ & Htr).
    eexists. split; [exact Htr|]. rewrite !count_app.
    destruct (decide (k = 0)) as [Hk|Hk].
    + destruct (Hk0 Hk) as (_ & _ & _ & r & ->). cbn. lia.
    + destruct (Hk1 Hk) as (-> & _). cbn. lia.
  - unfold block_body in H0.
    assert (∀ σ1, world σ1 = world σ → world σ' = world σ1 →
              ∃ evs, trace (world σ') = trace (world σ) ++ evs ∧
                     count is_training evs ≤ 1 ∧
                     count is_searching evs
                     ≤ (if decide (k = 0) then 1 else 0)) as Hquiet.
    { intros σ1 H1 H2. exists []. rewrite H2, H1, app_nil_r.
      split; [done|]. cbn. split; [lia|]. destruct (decide (k = 0)); lia. }
    apply bind_raised in H0 as [H0|([] & σ1 & Hopen & H0)].
    { destruct (decide (k = 0)); [|done].
      apply open_layer_raised in H0. by eapply (Hquiet σ). }
    assert (world σ1 = world σ) as Hw1.
    { destruct (decide (k = 0)).
      - by apply open_layer_normal in Hopen as (? & _ & ->).
      - by injection Hopen as <-. }
    apply bind_raised in H0 as [H0|([bw idx] & σ2 & Hinit & H0)].
    { apply initial_block_raised in H0. by eapply (Hquiet σ1). }
    assert (∃ sev, trace (world σ2) = trace (world σ) ++ sev ∧
                   count is_training sev = 0 ∧
                   count is_searching sev
                   ≤ (if decide (k = 0) then 1 else 0))
      as (sev & Hsev & Hsevt & Hsevs).
    { apply initial_block_normal in Hinit as (_ & Hi0 & Hi1).
      destruct (decide (k = 0)) as [Hk|Hk].
      - destruct (Hi0 Hk) as [r Hr]. exists [EvSearch r (states σ1)].
        rewrite Hr, Hw1. split; [done|]. cbn. lia.
      - destruct (Hi1 Hk) as [Hr _]. exists []. rewrite Hr, Hw1, app_nil_r.
        split; [done|]. cbn. lia. }
    apply bind_raised in H0 as [H0|([] & σ3 & Hadd & H0)].
    { apply add_block_raised in H0. exists sev. rewrite H0.
      split; [done|]. split; [lia|done]. }
    apply add_block_normal in Hadd as (pre & bl & x & _ & Hσ3).
    assert (world σ3 = world σ2) as Hw3 by by subst σ3.
    assert (∀ σ4 ev, is_training ev = true → is_searching ev = false →
              world σ4 = emit ev (world σ3) → world σ' = world σ4 →
              ∃ evs, trace (world σ') = trace (world σ) ++ evs ∧
                     count is_training evs ≤ 1 ∧
                     count is_searching evs
                     ≤ (if decide (k = 0) then 1 else 0)) as Htrained.
    { intros σ4 ev Ht Hs H4 H5. exists (sev ++ [ev]).
      rewrite H5, H4, Hw3. cbn [emit trace]. rewrite Hsev, app_assoc.
      split; [done|]. rewrite !count_app, Hsevt. unfold count at 1 3.
      cbn [List.filter]. rewrite Ht, Hs. cbn. lia. }
    apply bind_raised in H0 as [H0|([nm h] & σ4 & Htrain & H0)].
    { apply train_block_raised in H0 as (_ & _ & _ & Hw).
      eapply (Htrained σ'); [| |exact Hw|done]; done. }
    apply train_block_normal in Htrain as (w' & _ & Hσ4).
    assert (world σ4 = emit (EvBlockUpdate (topology (states σ3))
                               (op_set_indices (states σ3))
                               (weights (states σ3)) (block_names L k))
                         (world σ3)) as Hw4 by by subst σ4.
    apply bind_raised in H0 as [H0|(c & σ5 & Hconv & H0)].
    { apply block_converged_raised in H0. eapply (Htrained σ4); [| |exact Hw4|done]; done. }
    apply block_converged_normal in Hconv as (-> & _).
    destruct c.
    + apply bind_raised in H0 as [H0|([] & σ6 & _ & H0)]; [|done].
      apply rollback_block_raised in H0. eapply (Htrained σ4); [| |exact Hw4|done]; done.
    + apply bind_raised in H0 as [H0|([] & σ6 & _ & H0)]; [|done].
      apply commit_block_raised in H0. eapply (Htrained σ4); [| |exact Hw4|done]; done.
Qed.

Lemma block_loop_work p d L n : ∀ a σ,
  ∃ evs,
    trace (world (outcome_state (block_loop p d L (seq a n) σ)))
    = trace (world σ) ++ evs ∧
    count is_training evs ≤ n ∧
    count is_searching evs ≤ (if decide (a = 0) then 1 else 0).
Proof.
  induction n as [|n IH]; intros a σ.
  - exists []. simpl. rewrite app_nil_r. split; [done|]. cbn.
    split; [lia|]. destruct (decide (a = 0)); lia.
  - cbn [seq block_loop]. unfold mbind, M_bind.
    destruct (block_body_work p d L a σ) as (e1 & Ht1 & Hc1 & Hs1).
    destruct (block_body p d L a σ) as [b σ1|e σ1] eqn:Hb; simpl in Ht1.
    2:{ exists e1. simpl. split; [done|]. split; [lia|done]. }
    destruct b.
    + exists e1. simpl. split; [done|]. split; [lia|done].
    + destruct (IH (S a) σ1) as (e2 & Ht2 & Hc2 & Hs2).
      exists (e1 ++ e2). rewrite Ht2, Ht1, app_assoc. split; [done|].
      rewrite !count_app. rewrite decide_False in Hs2 by lia.
      split; lia.
Qed.

Lemma layer_body_work p d L σ :
  ∃ evs,
    trace (world (outcome_state (layer_body p d L σ)))
    = trace (world σ) ++ evs ∧
    count is_training evs ≤ max_block p ∧
    count is_searching evs ≤ 1.
Proof.
  unfold layer_body. rewrite bind_read. unfold mbind, M_bind, range.
  destruct (block_loop_work p d L (max_block p - block_iter (states σ))
              (block_iter (states σ)) σ) as (evs & Ht & Hc & Hs).
  exists evs.
  destruct (block_loop p d L _ σ) as [bs σ1|e σ1]; simpl in Ht.
  - rewrite layer_close_quiet, Ht. split; [done|].
    split; [lia|]. destruct (decide (_ = 0)); lia.
  - simpl. split; [done|]. split; [lia|]. destruct (decide (_ = 0)); lia.
Qed.

Lemma layer_loop_work p d iters : ∀ σ,
  ∃ evs,
    trace (world (outcome_state (layer_loop p d iters σ)))
    = trace (world σ) ++ evs ∧
    count is_training evs ≤ length iters * max_block p ∧
    count is_searching evs ≤ length iters.
Proof.
  induction iters as [|L iters IH]; intros σ.
  - exists []. simpl. rewrite app_nil_r. split; [done|]. cbn. lia.
  - cbn [layer_loop]. unfold mbind, M_bind.
    destruct (layer_body_work p d L σ) as (e1 & Ht1 & Hc1 & Hs1).
    destruct (layer_body p d L σ) as [b σ1|e σ1]; simpl in Ht1.
    2:{ exists e1. simpl. split; [done|]. split; lia. }
    destruct b.
    + exists e1. simpl. split; [done|]. split; lia.
    + destruct (IH σ1) as (e2 & Ht2 & Hc2 & Hs2).
      exists (e1 ++ e2). rewrite Ht2, Ht1, app_assoc. split; [done|].
      rewrite !count_app. simpl. split; lia.
Qed.

(** X9: whatever the state it starts from and however it ends, a growth
    calls [block_update] at most [max_block] times for each layer that is
    left to grow, and a search routine at most once for each such layer. *)
Theorem growth_work_is_bounded p d σ :
  ∃ evs,
    trace (world (outcome_state (grow p d σ))) = trace (world σ) ++ evs ∧
    count is_training evs
    ≤ (max_layer p - layer_iter (states σ)) * max_block p ∧
    count is_searching evs ≤ max_layer p - layer_iter (states σ).
Proof.
  unfold grow. rewrite bind_read.
  destruct (is_finished (states σ)).
  { exists []. simpl. rewrite app_nil_r. split; [done|].
    unfold count. cbn [List.filter length]. split; apply Nat.le_0_l. }
  rewrite bind_read. unfold mbind at 1, M_bind at 1.
  destruct (layer_loop_work p d
              (range (layer_iter (states σ)) (max_layer p)) σ)
    as (evs & Ht & Hc & Hs).
  unfold range in Hc, Hs. rewrite length_seq in Hc, Hs.
  destruct (layer_loop p d _ σ) as [stop σ1|e σ1]; simpl in Ht.
  2:{ exists evs. simpl. by split_and!. }
  rewrite bind_update. unfold mbind, M_bind.
  destruct (dump _) as [[] σ2|e σ2] eqn:Hd.
  - apply dump_normal in Hd as [_ ->].
    exists (evs ++ [EvDump (set_is_finished true (states σ1))]).
    simpl. rewrite Ht, app_assoc. split; [done|].
    rewrite !count_app. unfold count at 2 4. cbn [List.filter is_training is_searching length]. lia.
  - apply dump_raised in Hd as [-> _]. exists evs. simpl. by split_and!.
Qed.

(** ** What a growth leaves behind *)

(** X13: however it ends, a growth leaves the CUDA setting and
    [self.model_data] as it found them: the setting that each training
    enters is left again on both ways out of it. *)
Theorem growth_restores_environment p d σ :
  cuda (world (outcome_state (grow p d σ))) = cuda (world σ) ∧
  model_data (world (outcome_state (grow p d σ))) = model_data (world σ).
Proof.
  destruct (grow_effect_ok p d σ) as (evs & (Hc & Hm & _) & _). done.
Qed.

(** X14: a call of [progressive_learn] that raises, for whatever reason,
    has assigned nothing to [self.model_data] and leaves the CUDA setting as
    it was. *)
Theorem failed_learning_leaves_no_model p d (w : World) e w' :
  progressive_learn p d w = Raised e w' →
  model_data w' = model_data w ∧ cuda w' = cuda w.
Proof.
  intros H0. destruct (check_parameters p) as [err|pc] eqn:Hpc.
  { unfold progressive_learn in H0. rewrite Hpc, bind_lift_inl in H0.
    by injection H0 as _ <-. }
  set (p' := growth_params d pc).
  destruct (decide (Forall (λ g, test_generator g (input_dim p')
                                   (output_dim p') = true) (supplied d)))
    as [Hall|Hnot].
  - rewrite (progressive_learn_ok p d w pc Hpc Hall) in H0. cbv zeta in H0.
    fold p' in H0. unfold with_states in H0.
    destruct (grow_effect_ok p' d
                (mkMachine (initial_states p' (generators_tested d w))
                   (generators_tested d w))) as (evs & (Hc & Hm & _) & _).
    destruct (grow p' d _) as [a σ|e0 σ]; [done|]. injection H0 as _ <-.
    simpl in Hc, Hm. by rewrite Hc, Hm.
  - destruct (tests_fail_fast p d w pc Hpc Hnot)
      as (gs & g & w1 & _ & _ & _ & Hrun & _ & Hc & _ & Hm & _).
    rewrite Hrun in H0. by injection H0 as _ <-.
Qed.

End Further.

(** * The growth runs to its end *)

(** The run of a computation, forwards. *)
Ltac mgo :=
  repeat first
    [ rewrite bind_assoc
    | rewrite bind_read
    | rewrite bind_update
    | rewrite bind_outside
    | rewrite bind_ret
    | rewrite bind_get
    | rewrite bind_modify
    | rewrite bind_lift_inr
    | rewrite bind_lift_inl
    | rewrite bind_raise
    | rewrite run_ret
    | rewrite run_raise
    | rewrite run_lift_inr
    | rewrite run_lift_inl
    | rewrite run_update
    | rewrite run_outside
    | rewrite run_modify ];
  rsimpl.

Lemma py_getitem_Some {V} (m : gmap string V) k v :
  m !! k = Some v → py_getitem m k = inr v.
Proof. unfold py_getitem. by intros ->. Qed.
Lemma py_delitem_Some {V} (m : gmap string V) k :
  is_Some (m !! k) → py_delitem m k = inr (delete k m).
Proof. unfold py_delitem. by intros [v ->]. Qed.
Lemma py_index_Some {A} (l : list A) i x :
  l !! i = Some x → py_index l i = inr x.
Proof. unfold py_index. by intros ->. Qed.
Lemma py_last_Some {A} (l : list A) x : last l = Some x → py_last l = inr x.
Proof. unfold py_last. by intros ->. Qed.
Lemma py_pop_m2_app {A} (pre : list A) e x :
  py_pop_m2 (pre ++ [e; x]) = inr (e, pre ++ [x]).
Proof. unfold py_pop_m2. by rewrite py_index_m2_app, delete_m2. Qed.
Lemma entry_pop_snoc bl g : entry_pop (Blocks (bl ++ [g])) = inr (Blocks bl).
Proof. unfold entry_pop. by rewrite py_pop_snoc. Qed.

Section Progress.
Context {D : Domains} {C : Collaborators}.
Implicit Types (σ : Machine) (p : Params) (d : Data) (s : TrainState).
Implicit Types (layers : list (list (string * Z))) (bl : list (string * Z)).

Lemma bind_run {Σ A B} (m : M Σ A) (k : A → M Σ B) (σ σ1 : Σ) a :
  m σ = Normal a σ1 → (m ≫= k) σ = k a σ1.
Proof. unfold mbind, M_bind. by intros ->. Qed.
Lemma bind_fail {Σ A B} (m : M Σ A) (k : A → M Σ B) (σ σ1 : Σ) e :
  m σ = Raised e σ1 → (m ≫= k) σ = Raised e σ1.
Proof. unfold mbind, M_bind. by intros ->. Qed.

(** ** The parts, when their operands are there *)

Lemma dump_runs σ :
  is_Some (workdir (world σ)) → ∃ σ', dump σ = Normal () σ'.
Proof. unfold dump. intros [wd Hwd]. mgo. rewrite Hwd. mgo. eauto. Qed.

Lemma open_layer_runs p L σ :
  (0 < L → topology (states σ) ≠ []) → ∃ σ', open_layer p L σ = Normal () σ'.
Proof.
  unfold open_layer. intros Ht. destruct (decide (0 < L)) as [HL|HL].
  - destruct (exists_last (Ht HL)) as (t & x & Hx). mgo.
    rewrite Hx, py_pop_snoc. mgo. eauto.
  - mgo. eauto.
Qed.

Lemma initial_block_runs p d L k σ :
  (k ≠ 0 →
     is_Some (op_set_indices (states σ) !! gop L (k - 1)) ∧
     is_Some (weights (states σ) !! gop L (k - 1)) ∧
     is_Some (weights (states σ) !! bn L (k - 1)) ∧
     is_Some (weights (states σ) !! "output")) →
  ∃ r σ', initial_block p d L k σ = Normal r σ'.
Proof.
  unfold initial_block. intros Hk. destruct (decide (k = 0)) as [Hz|Hz].
  - destruct (search_routine_run p d σ) as (r & res & Hs). eauto.
  - destruct (Hk Hz) as ([i Hi] & [w0 Hw0] & [w1 Hw1] & [w2 Hw2]).
    cbv zeta. fold (gop L (k - 1)) (bn L (k - 1)). mgo.
    rewrite (py_getitem_Some _ _ _ Hi). mgo.
    rewrite (py_getitem_Some _ _ _ Hw0). mgo.
    rewrite (py_getitem_Some _ _ _ Hw1). mgo.
    rewrite (py_getitem_Some _ _ _ Hw2). mgo. eauto.
Qed.

Lemma add_block_runs p L k bw idx σ pre bl x :
  topology (states σ) = pre ++ [Blocks bl; x] →
  ∃ σ', add_block p L k bw idx σ = Normal () σ'.
Proof.
  unfold add_block. intros Ht. cbv zeta. mgo.
  rewrite Ht, py_index_m2_app. mgo. cbn [entry_append]. mgo. eauto.
Qed.

Lemma block_converged_runs p L k nm σ :
  (0 < k → ∃ ml previous,
     measure (states σ) !! L = Some ml ∧ ml !! (k - 1) = Some previous) →
  ∃ b, block_converged p L k nm σ = Normal b σ.
Proof.
  unfold block_converged. intros Hk. destruct (decide (0 < k)) as [Hz|Hz].
  - destruct (Hk Hz) as (ml & pr & Hml & Hpr). mgo.
    rewrite (py_index_Some _ _ _ Hml). mgo.
    rewrite (py_index_Some _ _ _ Hpr). mgo. eauto.
  - mgo. eauto.
Qed.

Lemma rollback_block_runs L k σ pre bl g x :
  topology (states σ) = pre ++ [Blocks (bl ++ [g]); x] →
  is_Some (weights (states σ) !! gop L k) →
  is_Some (weights (states σ) !! bn L k) →
  is_Some (op_set_indices (states σ) !! gop L k) →
  is_Some (block_output_weight (states σ)) →
  is_Some (workdir (world σ)) →
  ∃ σ', rollback_block L k σ = Normal () σ'.
Proof.
  unfold rollback_block. intros Ht Hg Hb Ho [out Hout] Hwd. cbv zeta.
  fold (gop L k) (bn L k). mgo.
  rewrite Ht, py_index_m2_app. mgo. rewrite entry_pop_snoc. mgo.
  rewrite (py_delitem_Some _ _ Hg). mgo.
  rewrite py_delitem_Some
    by (rewrite lookup_delete_ne; [done|apply gop_ne_bn]).
  mgo. rewrite (py_delitem_Some _ _ Ho). mgo.
  rewrite Hout. cbn [from_option]. mgo.
  by apply dump_runs.
Qed.

Lemma commit_block_runs p L k nm h σ :
  is_Some (weights (states σ) !! "output") →
  is_Some (measure (states σ) !! L) →
  is_Some (history (states σ) !! L) →
  is_Some (workdir (world σ)) →
  ∃ σ', commit_block p L k nm h σ = Normal () σ'.
Proof.
  unfold commit_block. intros [out Hout] [ml Hml] [hl Hhl] Hwd. mgo.
  rewrite (py_getitem_Some _ _ _ Hout). mgo.
  rewrite (py_index_Some _ _ _ Hml). mgo.
  rewrite (py_index_Some _ _ _ Hhl). mgo.
  by apply dump_runs.
Qed.

(** ** The body of the block loop *)

(** Where an exception of the body of the block loop comes from. *)
Lemma block_body_raised p d L k σ e σ' :
  block_body p d L k σ = Raised e σ' →
  let s1 := opened p L k (states σ) in
  (k = 0 ∧ open_layer p L σ = Raised e σ') ∨
  (∃ w1, initial_block p d L k (mkMachine s1 w1) = Raised e σ') ∨
  (∃ bw idx w2, add_block p L k bw idx (mkMachine s1 w2) = Raised e σ') ∨
  (e = fatal ∧ ∃ t ops w names err, block_update t ops w p names d = inl err) ∨
  (∃ pre bl x bw idx nm h w' w3,
     let s2 := added p L k bw idx pre bl x s1 in
     let s3 := set_weights w' s2 in
     topology s1 = pre ++ [Blocks bl; x] ∧
     block_update (topology s2) (op_set_indices s2) (weights s2) p
       (block_names L k) d = inr (nm, h, w') ∧
     workdir w3 = workdir (world σ) ∧
     (block_converged p L k nm (mkMachine s3 w3) = Raised e σ' ∨
      (0 < k ∧ rollback_block L k (mkMachine s3 w3) = Raised e σ') ∨
      commit_block p L k nm h (mkMachine s3 w3) = Raised e σ')).
Proof.
  intros H0. cbv zeta. set (s1 := opened p L k (states σ)).
  unfold block_body in H0.
  apply bind_raised in H0 as [H0|([] & σ1 & Hopen & H0)].
  { left. by destruct (decide (k = 0)). }
  assert (σ1 = mkMachine s1 (world σ)) as ->.
  { unfold s1, opened. destruct (decide (k = 0)) as [->|Hk].
    - apply open_layer_normal in Hopen as (base & Hbase & ->). rsimpl.
      assert (base = layer_base L (topology (states σ))) as ->; [|done].
      unfold layer_base. destruct (decide (0 < L)); [|done].
      destruct Hbase as [y ->]. by rewrite removelast_last.
    - injection Hopen as <-. by destruct σ. }
  apply bind_raised in H0 as [H0|([bw idx] & σ2 & Hinit & H0)].
  { right. left. eauto. }
  apply initial_block_normal in Hinit as (Hs2 & Hi0 & Hi1). rsimpl_in Hs2.
  assert (workdir (world σ2) = workdir (world σ)) as Hwd2.
  { destruct (decide (k = 0)) as [Hk|Hk].
    - destruct (Hi0 Hk) as [r ->]. done.
    - destruct (Hi1 Hk) as [-> _]. done. }
  destruct σ2 as [s2' w2]. rsimpl_in Hs2. rsimpl_in Hwd2. subst s2'.
  apply bind_raised in H0 as [H0|([] & σ3 & Hadd & H0)].
  { right. right. left. eauto. }
  apply add_block_normal in Hadd as (pre & bl & x & Ht & ->). rsimpl_in Ht.
  apply bind_raised in H0 as [H0|([nm h] & σ4 & Htrain & H0)].
  { apply train_block_raised in H0 as (-> & [err Herr] & _).
    right. right. right. left. split; [done|]. eauto 10. }
  apply train_block_normal in Htrain as (w' & Hbu & ->).
  rsimpl_in Hbu. rsimpl_in H0.
  do 4 right. eexists pre, bl, x, bw, idx, nm, h, w', _. cbv zeta.
  split; [done|]. split; [exact Hbu|].
  apply bind_raised in H0 as [H0|(c & σ5 & Hconv & H0)].
  { split; [|left; exact H0]. done. }
  apply block_converged_normal in Hconv as (-> & Hc0 & _).
  split; [done|]. right. destruct c.
  - apply bind_raised in H0 as [H0|([] & σ6 & _ & H0)]; [|done].
    left. split; [|done]. destruct k; [by specialize (Hc0 eq_refl)|lia].
  - apply bind_raised in H0 as [H0|([] & σ6 & _ & H0)]; [|done].
    by right.
Qed.

Lemma layer_state_topology_app p d base layers sL bl s :
  layer_state p d base layers sL bl s →
  topology s = (base ++ (Blocks <$> layers)) ++ [Blocks bl; dense p].
Proof.
  intros [_ [Ht _ _ _ _] _ _ _ _ _ _ _]. rewrite Ht, fmap_app.
  cbn [fmap list_fmap]. by rewrite <- !app_assoc.
Qed.

Lemma layer_state_row p d base layers sL bl s :
  layer_state p d base layers sL bl s →
  ∃ hl ml, history s !! length layers = Some hl ∧
           measure s !! length layers = Some ml ∧
           length hl = length bl ∧ length ml = length bl.
Proof.
  intros [_ [_ _ Hbl _ _] _ _ _ _ _ _ _]. apply Hbl.
  by rewrite lookup_app_r, Nat.sub_diag by lia.
Qed.

(** The body of the block loop at the head of a block, with the weights of
    all the blocks there, a working directory, and a [block_update] that
    keeps the keys: it raises nothing but the error of a failed training,
    and the weights of all the blocks are there after it. *)
Lemma block_body_runs p d base layers sL bl σ :
  keeps p d →
  block_head p d base layers sL bl (states σ) →
  present (layers ++ [bl]) (weights (states σ)) →
  is_Some (workdir (world σ)) →
  match block_body p d (length layers) (length bl) σ with
  | Normal b σ' =>
      present (layers ++ [if b then bl else bl ++ [("gop", block_size p)]])
        (weights (states σ'))
  | Raised e σ' =>
      e = fatal ∧ ∃ t ops w names err, block_update t ops w p names d = inl err
  end.
Proof.
  intros Hkeeps (HL & Hk & Hhead) Hpres Hwd.
  set (L := length layers) in *. set (k := length bl) in *.
  set (s1 := opened p L k (states σ)).
  assert (layer_state p d base layers sL bl s1) as Hls.
  { destruct (decide (bl = [])) as [->|Hne].
    - destruct Hhead as [Hh ->]. by apply opened_layer_state.
    - unfold s1. rewrite opened_ne
        by (intros Hz; apply Hne, nil_length_inv; exact Hz).
      by destruct Hhead as (? & _). }
  assert (weights s1 = weights (states σ)) as Hw1.
  { unfold s1, opened. by destruct (decide (k = 0)). }
  pose proof (layer_state_topology_app _ _ _ _ _ _ _ Hls) as Htop.
  destruct (layer_state_row _ _ _ _ _ _ _ Hls) as (hl & ml & Hhl & Hml & Ehl & Eml).
  fold L in Hhl, Hml. fold k in Ehl, Eml.
  assert (∀ bw idx pre bl0 x nm h w',
            block_update (topology (added p L k bw idx pre bl0 x s1))
              (op_set_indices (added p L k bw idx pre bl0 x s1))
              (weights (added p L k bw idx pre bl0 x s1)) p
              (block_names L k) d = inr (nm, h, w') →
            is_Some (w' !! gop L k) ∧ is_Some (w' !! bn L k) ∧
            is_Some (w' !! "output") ∧
            ∀ key, weight_key (layers ++ [bl]) key → is_Some (w' !! key))
    as Hkept.
  { intros bw idx pre bl0 x nm h w' Hbu.
    pose proof (Hkeeps _ _ _ _ _ _ _ Hbu) as Hin. unfold added in Hin.
    rsimpl_in Hin. split_and!.
    - apply Hin. rewrite lookup_insert_ne by apply not_eq_sym, gop_ne_output.
      rewrite lookup_insert_ne by (apply not_eq_sym, gop_ne_bn).
      by rewrite lookup_insert_eq.
    - apply Hin. rewrite lookup_insert_ne by apply not_eq_sym, bn_ne_output.
      by rewrite lookup_insert_eq.
    - apply Hin. by rewrite lookup_insert_eq.
    - intros key Hkey. apply Hin. rewrite Hw1.
      rewrite !lookup_insert_is_Some'. do 3 right. by apply Hpres. }
  destruct (block_body p d L k σ) as [b σ'|e σ'] eqn:H0.
  - apply block_body_normal in H0
      as (pre & bl0 & x & bw & idx & nm & h & w' & sev & H0).
    cbv zeta in H0. fold s1 in H0.
    destruct H0 as (_ & _ & _ & Hbu & _ & Hb & _).
    destruct (Hkept _ _ _ _ _ _ _ _ Hbu) as (Hg & Hbn & Ho & Hold).
    intros key Hkey. destruct b.
    + destruct Hb as (_ & _ & _ & _ & out & _ & ->).
      unfold rolled_back. rsimpl. rewrite lookup_insert_is_Some'. right.
      apply weight_key_snoc in Hkey as Hkey'.
      assert (key ≠ gop L k ∧ key ≠ bn L k) as [Hn1 Hn2].
      { destruct Hkey' as [Hkey'|(b & [->| ->] & Hb')].
        - by eapply weight_key_old.
        - split; [intros [_ ?]%gop_inj; lia|apply gop_ne_bn].
        - split; [apply not_eq_sym, gop_ne_bn|intros [_ ?]%bn_inj; lia]. }
      rewrite !lookup_delete_ne by done. by apply Hold.
    + destruct Hb as (_ & out & ml' & hl' & _ & _ & _ & ->).
      unfold committed. rsimpl.
      apply weight_key_snoc in Hkey as [Hkey|(b & Hkb & Hb')].
      * apply Hold, weight_key_snoc. by left.
      * rewrite length_app in Hb'. simpl in Hb'.
        destruct (decide (b = k)) as [->|Hbk].
        -- by destruct Hkb as [-> | ->].
        -- apply Hold, weight_key_snoc. right. exists b. split; [done|].
           fold k. lia.
  - apply block_body_raised in H0. cbv zeta in H0. fold s1 in H0.
    destruct H0 as [[Hk0 H0]|[[w1 H0]|[(bw & idx & w2 & H0)|[H0|H0]]]];
      [exfalso..|done|exfalso].
    + destruct (open_layer_runs p L σ) as [σ1 H1]; [|congruence].
      intros HLpos. assert (bl = []) as -> by by apply nil_length_inv.
      destruct Hhead as [Hh _]. pose proof Hh as [_ _ Hb _ _ _ _].
      rewrite decide_False in Hb by (by intros ->; unfold L in HLpos; simpl in HLpos; lia).
      destruct Hb as [Ht _ _ _ _]. rewrite Ht.
      intros Hnil. apply (f_equal length) in Hnil.
      rewrite !length_app in Hnil. simpl in Hnil. lia.
    + destruct (initial_block_runs p d L k (mkMachine s1 w1)) as (r & σ2 & H2);
        [|congruence].
      intros Hk0. rsimpl. rewrite Hw1.
      rewrite decide_False in Hhead by (intros ->; done).
      destruct Hhead as (_ & _ & out & _ & Hout).
      pose proof Hls as [_ [_ _ _ Hops _] _ _ _ _ _ _ _].
      assert (weight_key (layers ++ [bl]) (gop L (k - 1)) ∧
              weight_key (layers ++ [bl]) (bn L (k - 1)) ∧
              block_key (layers ++ [bl]) (gop L (k - 1))) as (K1 & K2 & K3).
      { split_and!; [apply weight_key_snoc|apply weight_key_snoc
                     |apply block_key_snoc]; right; exists (k - 1);
          (split; [eauto|fold k; lia]). }
      split_and!; [by apply Hops|by apply Hpres|by apply Hpres|by eauto].
    + destruct (add_block_runs p L k bw idx (mkMachine s1 w2) _ _ _ Htop)
        as [σ3 H3]. congruence.
    + destruct H0 as (pre & bl0 & x & bw & idx & nm & h & w' & w3 & Ht & Hbu
                      & Hwd3 & H0).
      destruct (Hkept _ _ _ _ _ _ _ _ Hbu) as (Hg & Hbn & Ho & _).
      assert (is_Some (workdir w3)) as Hwd3' by by rewrite Hwd3.
      destruct H0 as [H0|[[Hkpos H0]|H0]].
      * destruct (block_converged_runs p L k nm
                    (mkMachine (set_weights w' (added p L k bw idx pre bl0 x s1)) w3))
          as [b Hb]; [|congruence].
        intros Hkpos. unfold added. rsimpl. exists ml.
        destruct (lookup_lt_is_Some_2 ml (k - 1)) as [pr Hpr]; [lia|]. eauto.
      * destruct (rollback_block_runs L k
                    (mkMachine (set_weights w' (added p L k bw idx pre bl0 x s1)) w3)
                    pre bl0 ("gop", block_size p) x)
          as [σr Hr]; rsimpl; try done; [..|congruence].
        -- unfold added. rsimpl. by rewrite lookup_insert_eq.
        -- unfold added. rsimpl. unfold s1. rewrite opened_ne by lia.
           rewrite decide_False in Hhead
             by (intros ->; unfold k in Hkpos; simpl in Hkpos; lia).
           destruct Hhead as (_ & _ & out & -> & _). eauto.
      * destruct (commit_block_runs p L k nm h
                    (mkMachine (set_weights w' (added p L k bw idx pre bl0 x s1)) w3))
          as [σr Hr]; rsimpl; try done; [..|congruence];
          unfold added; rsimpl; eauto.
Qed.


(** ** The loops *)

Lemma layer_of_snoc p j :
  layer_of p j ++ [("gop", block_size p)] = layer_of p (S j).
Proof. unfold layer_of. by rewrite replicate_S_end. Qed.

Lemma block_loop_runs (Q : Prop) p d base layers sL tr0 n : ∀ j σ,
  (Q → keeps p d) →
  block_head p d base layers sL (layer_of p j) (states σ) →
  length layers < max_layer p → j + S n = max_block p →
  traced tr0 (world σ) (trace_ok p base (states σ)) →
  (Q →
   present (layers ++ [layer_of p j]) (weights (states σ)) ∧
   is_Some (workdir (world σ))) →
  match block_loop p d (length layers) (seq j (S n)) σ with
  | Normal bs σ' =>
      traced tr0 (world σ')
        (λ evs, dumps_ok p base evs ∧ last (dumps evs) = Some (states σ')) ∧
      workdir (world σ') = Some (Some (states σ')) ∧
      ∃ j', 0 < j' ≤ max_block p ∧
        after_blocks p d base layers sL (layer_of p j') bs (states σ') ∧
        (Q →
         present (layers ++ [layer_of p j']) (weights (states σ')))
  | Raised e σ' =>
      Q →
      e = fatal ∧ ∃ t ops w names err, block_update t ops w p names d = inl err
  end.
Proof.
  induction n as [|n IH]; intros j σ HQ Hhead HL Hn Htr Hpres;
    cbn [seq block_loop]; unfold mbind, M_bind;
    pose proof (block_body_runs p d base layers sL (layer_of p j) σ) as Hruns;
    assert (length (layer_of p j) = j) as Hlen by apply length_replicate;
    rewrite Hlen in Hruns;
    destruct (block_body p d (length layers) j σ) as [b σ1|e σ1] eqn:Hb;
    try (intros Hk; pose proof (HQ Hk); destruct (Hpres Hk); by apply Hruns);
    rewrite <- Hlen in Hb at 1;
    (eapply block_step in Hb as (Hd & Hw & Hb); [|done|done|lia|done]);
    destruct b.
  - destruct Hb as (Hne & Hab & _). split_and!; [done..|]. exists j.
    split_and!; [destruct j; [by destruct Hne|lia]|lia|done|].
    intros Hk. pose proof (HQ Hk). destruct (Hpres Hk). by apply Hruns.
  - destruct Hb as (Hin & Hli & Hbi). rewrite Hlen in Hbi.
    rewrite decide_True in Hbi by lia. rewrite layer_of_snoc in Hin.
    split_and!; [done..|]. exists (S j).
    split_and!; [lia|lia|by split_and!|].
    intros Hk. rewrite <- layer_of_snoc. pose proof (HQ Hk).
    destruct (Hpres Hk). by apply Hruns.
  - destruct Hb as (Hne & Hab & _). split_and!; [done..|]. exists j.
    split_and!; [destruct j; [by destruct Hne|lia]|lia|done|].
    intros Hk. pose proof (HQ Hk). destruct (Hpres Hk). by apply Hruns.
  - destruct Hb as (Hin & Hli & Hbi). rewrite Hlen in Hbi.
    rewrite decide_False in Hbi by lia. rewrite layer_of_snoc in Hin.
    assert (length (layer_of p (S j)) = S j) as Hlen' by apply length_replicate.
    apply (IH (S j) σ1); [done| |done|lia| |].
    + unfold block_head. rewrite Hlen'. split_and!; [done..|].
      by rewrite decide_False.
    + eapply traced_weaken; [|done]. intros ? []. by apply trace_ok_last.
    + intros Hk. rewrite <- layer_of_snoc, Hw. split; [|eauto].
      pose proof (HQ Hk). destruct (Hpres Hk). by apply Hruns.
Qed.

Lemma delete_blocks_runs L idxs : ∀ σ,
  NoDup idxs →
  (∀ i, i ∈ idxs →
     is_Some (weights (states σ) !! gop L i) ∧
     is_Some (weights (states σ) !! bn L i) ∧
     is_Some (op_set_indices (states σ) !! gop L i)) →
  ∃ σ', delete_blocks L idxs σ = Normal () σ'.
Proof.
  induction idxs as [|i idxs IH]; intros σ Hnd Hin.
  - cbn [delete_blocks]. mgo. eauto.
  - apply NoDup_cons in Hnd as [Hi Hnd].
    destruct (Hin i) as (Hg & Hb & Ho); [by left|].
    cbn [delete_blocks]. cbv zeta. fold (gop L i) (bn L i). mgo.
    rewrite (py_delitem_Some _ _ Hg). mgo.
    rewrite py_delitem_Some
      by (rewrite lookup_delete_ne; [done|apply gop_ne_bn]).
    mgo. rewrite (py_delitem_Some _ _ Ho). mgo.
    apply IH; [done|]. intros i' Hi'. rsimpl.
    destruct (Hin i') as (Hg' & Hb' & Ho'); [by right|].
    assert (i ≠ i') as Hne by (by intros ->).
    assert (gop L i ≠ gop L i' ∧ bn L i ≠ bn L i' ∧ gop L i ≠ bn L i' ∧
            bn L i ≠ gop L i') as (N1 & N2 & N3 & N4).
    { split_and!; [by intros [_ ?]%gop_inj|by intros [_ ?]%bn_inj
                   |apply gop_ne_bn|apply not_eq_sym, gop_ne_bn]. }
    by rewrite !lookup_delete_ne by done.
Qed.

Lemma layer_check_runs p L σ :
  (0 < L →
     ∃ ml new ml' old pre bl x,
       measure (states σ) !! L = Some ml ∧ last ml = Some new ∧
       measure (states σ) !! (L - 1) = Some ml' ∧ last ml' = Some old ∧
       topology (states σ) = pre ++ [Blocks bl; x] ∧
       (∀ i, i < length bl →
          is_Some (weights (states σ) !! gop L i) ∧
          is_Some (weights (states σ) !! bn L i) ∧
          is_Some (op_set_indices (states σ) !! gop L i)) ∧
       is_Some (layer_output_weight (states σ)) ∧
       history (states σ) ≠ []) →
  ∃ b σ', layer_check p L σ = Normal b σ'.
Proof.
  unfold layer_check. intros HL. destruct (decide (0 < L)) as [Hz|Hz].
  2:{ mgo. eauto. }
  destruct (HL Hz) as (ml & new & ml' & old & pre & bl & x & Hml & Hnew & Hml'
                       & Hold & Ht & Hkeys & [out Hout] & Hh).
  mgo. rewrite (py_index_Some _ _ _ Hml). mgo.
  rewrite (py_last_Some _ _ Hnew). mgo.
  rewrite (py_index_Some _ _ _ Hml'). mgo.
  rewrite (py_last_Some _ _ Hold). mgo.
  destruct (check_convergence _ _ _ _); [|mgo; eauto].
  mgo. rewrite Ht, py_pop_m2_app. mgo. cbn [entry_len]. mgo.
  destruct (delete_blocks_runs L (range 0 (length bl))
              (mkMachine (set_topology (pre ++ [x]) (states σ)) (world σ)))
    as [σ2 H2]; [apply NoDup_seq| |].
  { intros i Hi. apply elem_of_seq in Hi. rsimpl. apply Hkeys. lia. }
  rewrite (bind_run _ _ _ _ _ H2).
  apply delete_blocks_normal in H2 as ->. mgo.
  rewrite Hout. cbn [from_option]. mgo.
  destruct (exists_last Hh) as (h & hl & ->). rewrite py_pop_snoc. mgo. eauto.
Qed.

Lemma layer_close_runs p d base layers sL bl bs σ :
  after_blocks p d base layers sL bl bs (states σ) →
  present (layers ++ [bl]) (weights (states σ)) →
  ∃ b σ', layer_close p (length layers) bs σ = Normal b σ'.
Proof.
  intros ((Hls & Hne & out & _ & Hout) & _ & _) Hpres.
  set (L := length layers).
  destruct (layer_check_runs p L σ) as (b & σ1 & H1).
  { intros HL.
    destruct (layer_state_row _ _ _ _ _ _ _ Hls) as (hl & ml & Hhl & Hml & _ & Eml).
    pose proof Hls as [Hh [_ _ Hbl Hops _] _ [hl0 Hh0] _ _ Hsn _ _].
    destruct (lookup_lt_is_Some_2 layers (L - 1)) as [bl' Hbl']; [lia|].
    destruct (Hbl (L - 1) bl') as (hl' & ml' & _ & Hml' & _ & Eml').
    { by apply lookup_app_l_Some. }
    assert (bl' ≠ []) as Hne'.
    { pose proof (lh_nonempty _ _ _ _ _ Hh) as Hall.
      rewrite Forall_lookup in Hall. by eapply Hall. }
    assert (∀ A (l : list A), length l ≠ 0 → is_Some (last l)) as Hlast.
    { intros A l Hl. destruct l using rev_ind; [done|].
      rewrite last_snoc. eauto. }
    destruct (Hlast _ ml) as [new Hnew].
    { rewrite Eml. by destruct bl. }
    destruct (Hlast _ ml') as [old Hold].
    { rewrite Eml'. by destruct bl'. }
    exists ml, new, ml', old, (base ++ (Blocks <$> layers)), bl, (dense p).
    split_and!; [done..|by eapply layer_state_topology_app| | |].
    - intros i Hi. split_and!.
      + apply Hpres, weight_key_snoc. right. exists i. eauto.
      + apply Hpres, weight_key_snoc. right. exists i. eauto.
      + apply Hops, block_key_snoc. right. exists i. eauto.
    - rewrite Hsn. destruct (lh_snapshot _ _ _ _ _ Hh) as (o & -> & _); [|eauto].
      intros ->. unfold L in HL. simpl in HL. lia.
    - rewrite Hh0. by destruct (history sL). }
  unfold layer_close. rewrite (bind_run _ _ _ _ _ H1). destruct b.
  - mgo. eauto.
  - apply layer_check_normal in H1 as [[_ ->]|[? _]]; [|done].
    destruct bs; mgo; rewrite (py_getitem_Some _ _ _ Hout); mgo; eauto.
Qed.

Lemma present_nil_block layers (w : gmap string Weight) :
  present layers w → present (layers ++ [[]]) w.
Proof.
  intros Hp key [Hk|(b & _ & Hb)]%weight_key_snoc; [by apply Hp|].
  simpl in Hb. lia.
Qed.

Lemma layer_body_runs (Q : Prop) p d base sizes tr0 σ :
  (Q → keeps p d) →
  layer_head p d base (layer_of p <$> sizes) (states σ) →
  length sizes < max_layer p → 0 < max_block p →
  traced tr0 (world σ) (trace_ok p base (states σ)) →
  (Q →
   present (layer_of p <$> sizes) (weights (states σ)) ∧
   is_Some (workdir (world σ))) →
  match layer_body p d (length sizes) σ with
  | Normal stop σ' =>
      traced tr0 (world σ') (trace_ok p base (states σ')) ∧
      is_Some (workdir (world σ')) ∧
      if stop then
        layer_rejected p d base (layer_of p <$> sizes) (states σ) (states σ') ∧
        (Q → present (layer_of p <$> sizes) (weights (states σ')))
      else
        ∃ j, 0 < j ≤ max_block p ∧
          layer_head p d base (layer_of p <$> sizes ++ [j]) (states σ') ∧
          (Q →
           present (layer_of p <$> sizes ++ [j]) (weights (states σ')))
  | Raised e σ' =>
      Q →
      e = fatal ∧ ∃ t ops w names err, block_update t ops w p names d = inl err
  end.
Proof.
  intros HQ Hh HL Hmb Htr Hpres. set (layers := layer_of p <$> sizes) in *.
  assert (length layers = length sizes) as Hlen by apply length_fmap.
  rewrite <- Hlen in *.
  unfold layer_body. rewrite bind_read.
  rewrite (lh_block_iter _ _ _ _ _ Hh). unfold range. rewrite Nat.sub_0_r.
  destruct (max_block p) as [|n] eqn:Hn; [lia|].
  pose proof (block_loop_runs Q p d base layers (states σ) tr0 n 0 σ HQ)
    as Hloop.
  unfold mbind, M_bind.
  assert (block_head p d base layers (states σ) (layer_of p 0) (states σ)) as Hbh.
  { split_and!; [by destruct Hh|by destruct Hh|done]. }
  specialize (Hloop Hbh HL).
  destruct (block_loop p d (length layers) (seq 0 (S n)) σ) as [bs σ1|e σ1].
  2:{ apply Hloop; [lia|done|]. intros Hk. destruct (Hpres Hk).
      split; [|done]. by apply present_nil_block. }
  destruct Hloop as (Htr1 & Hwd & j & Hj & Hab & Hp1); [lia|done| |].
  { intros Hk. destruct (Hpres Hk). split; [|done]. by apply present_nil_block. }
  destruct (layer_close p (length layers) bs σ1) as [b σ'|e σ'] eqn:Hc.
  2:{ intros Hk. destruct (layer_close_runs _ _ _ _ _ _ _ _ Hab (Hp1 Hk))
        as (b & σ2 & H2). congruence. }
  pose proof Hc as Hc'. pose proof Hab as (_ & Hbi & Hli).
  eapply layer_close_step in Hc as [Hw Hc]; [|done].
  split_and!.
  - eapply traced_same; [by rewrite Hw|].
    eapply traced_weaken; [|done]. intros evs [Hd Hl].
    split; [done|]. intros sd. rewrite Hl. intros [= <-].
    destruct b.
    + destruct Hc as [(_ & _ & _ & _ & _ & _ & _ & _ & _ & Hb0 & _) Hl0].
      rewrite Hb0, Hl0, Hbi. lia.
    + destruct Hc as [Hl0 Hb0 _ _ _ _ _]. rewrite Hb0, Hl0, Hbi, Hli.
      rewrite length_app. simpl. destruct bs; lia.
  - rewrite Hw, Hwd. eauto.
  - destruct b.
    { split; [by destruct Hc|]. intros Hk.
      apply layer_close_normal in Hc' as [[_ Hc']|[? _]]; [|done].
      apply layer_check_normal in Hc' as [[? _]|(_ & _ & Hc')]; [done|].
      destruct Hc' as (? & ? & ? & ? & ? & ? & ? & n0 & out & ? & ? & Hc').
      destruct Hc' as (_ & _ & _ & _ & _ & _ & _ & _ & _ & ->).
      unfold layer_rolled_back. rsimpl. intros key Hkey.
      rewrite lookup_insert_is_Some'. right.
      rewrite delete_layer_weights_other.
      - apply (Hp1 Hk), weight_key_snoc. by left.
      - intros i _. by eapply weight_key_old. }
    exists j. rewrite fmap_app. fold layers.
    cbn [fmap list_fmap]. rewrite Hn in Hj. split_and!; [lia|lia|done|].
    intros Hk.
    apply layer_close_normal in Hc' as [[? _]|(_ & _ & out & _ & ->)]; [done|].
    rsimpl. by apply Hp1.
Qed.

Lemma layer_loop_runs (Q : Prop) p d base tr0 n : ∀ sizes σ,
  (Q → keeps p d) →
  layer_head p d base (layer_of p <$> sizes) (states σ) →
  length sizes + n = max_layer p → 0 < max_block p →
  traced tr0 (world σ) (trace_ok p base (states σ)) →
  Forall (λ j, 0 < j ≤ max_block p) sizes →
  (Q →
   present (layer_of p <$> sizes) (weights (states σ)) ∧
   is_Some (workdir (world σ))) →
  match layer_loop p d (seq (length sizes) n) σ with
  | Normal stop σ' =>
      (Q → is_Some (workdir (world σ'))) ∧
      ∃ sizes',
        layers_done p d base stop (layer_of p <$> sizes') (states σ') ∧
        Forall (λ j, 0 < j ≤ max_block p) sizes' ∧
        (frames p d →
         weight_keys (layer_of p <$> sizes') (weights (states σ'))) ∧
        (Q → present (layer_of p <$> sizes') (weights (states σ'))) ∧
        (sizes' ≠ [] → is_Some (weights (states σ') !! "output"))
  | Raised e σ' =>
      Q →
      e = fatal ∧ ∃ t ops w names err, block_update t ops w p names d = inl err
  end.
Proof.
  induction n as [|n IH]; intros sizes σ HQ Hh Hn Hmb Htr Hsz Hpres.
  - simpl. split; [by intros Hk; destruct (Hpres Hk)|]. exists sizes.
    pose proof Hh as [Hli Hbi Hb Hne Hm Hsn Hwk].
    split_and!; [|done|done|by intros Hk; destruct (Hpres Hk)|].
    + rewrite length_fmap in Hli, Hm. unfold layers_done.
      rewrite length_fmap. split_and!; try done; lia.
    + intros Hz. destruct Hsn as (out & _ & ->); [|eauto].
      by intros ?%fmap_nil_inv.
  - cbn [seq layer_loop]. unfold mbind, M_bind.
    pose proof (layer_body_runs Q p d base sizes tr0 σ HQ Hh) as Hbody.
    destruct (layer_body p d (length sizes) σ) as [stop σ1|e σ1].
    2:{ apply Hbody; [lia|done..]. }
    destruct Hbody as (Htr1 & Hwd1 & Hs); [lia|done..|].
    destruct stop.
    + split; [done|]. exists sizes. destruct Hs as [Hs Hp1].
      destruct Hs as (HneL & HhL & Hb & _ & _ & Hhist & [ml Hml] & Hout & Hfw
                      & Hbi & Hli).
      pose proof HhL as [_ _ _ Hne HmL Hsn Hwk].
      split_and!; [|done| |done|].
      * rewrite length_fmap in Hli, HmL.
        unfold layers_done. rewrite length_fmap.
        split_and!; try done; try lia.
        rewrite Hml, length_app, HmL. simpl. lia.
      * intros Hfr. rewrite (Hfw Hfr). by apply Hwk.
      * intros _. rewrite Hout. destruct (Hsn HneL) as (out & -> & _). eauto.
    + destruct Hs as (j & Hj & Hh1 & Hp1).
      specialize (IH (sizes ++ [j]) σ1 HQ Hh1).
      rewrite length_app in IH. simpl in IH. rewrite Nat.add_1_r in IH.
      apply IH; [lia|done|done| |].
      * apply Forall_app. split; [done|]. by apply Forall_singleton.
      * intros Hk. split; [by apply Hp1|done].
Qed.

Lemma grow_runs p d s0 (w : World) :
  fresh s0 → 0 < max_block p →
  match grow p d (mkMachine s0 w) with
  | Normal stop σ' =>
      ∃ sizes s',
        layers_done p d (topology s0) stop (layer_of p <$> sizes) s' ∧
        Forall (λ j, 0 < j ≤ max_block p) sizes ∧
        (frames p d → weight_keys (layer_of p <$> sizes) (weights s')) ∧
        (keeps p d → is_Some (workdir w) →
         present (layer_of p <$> sizes) (weights s')) ∧
        (sizes ≠ [] → is_Some (weights s' !! "output")) ∧
        states σ' = set_is_finished true s'
  | Raised e σ' =>
      keeps p d → is_Some (workdir w) →
      e = fatal ∧ ∃ t ops wt names err, block_update t ops wt p names d = inl err
  end.
Proof.
  intros Hf Hmb. pose proof Hf as (Hw0 & _ & _ & _ & Hli & _ & Hfin).
  unfold grow. rewrite bind_read. cbn [states]. rewrite Hfin.
  rewrite bind_read. cbn [states]. rewrite Hli. unfold range.
  rewrite Nat.sub_0_r.
  pose proof (layer_loop_runs (keeps p d ∧ is_Some (workdir w)) p d
                (topology s0) (trace w) (max_layer p) [] (mkMachine s0 w))
    as Hloop.
  cbn [length states world fmap list_fmap] in Hloop.
  unfold mbind at 1, M_bind at 1.
  assert (present [] (weights s0)) as Hp0.
  { intros key (l & b & bl & _ & Hl & _). done. }
  destruct (layer_loop p d (seq 0 (max_layer p)) (mkMachine s0 w))
    as [stop σ1|e σ1].
  2:{ intros Hk Hwd. apply Hloop;
        [tauto|by apply fresh_layer_head|done..|apply traced_start|done
        |tauto|done]. }
  destruct Hloop as (Hwd1 & sizes & Hdone & Hsz & Hwk & Hpr & Hout);
    [tauto|by apply fresh_layer_head|done..|apply traced_start|done|tauto|].
  rewrite bind_update. unfold mbind, M_bind.
  destruct (dump (mkMachine (set_is_finished true (states σ1)) (world σ1)))
    as [[] σ2|e σ2] eqn:Hdump.
  - apply dump_normal in Hdump as [_ ->]. rewrite run_ret. rsimpl.
    exists sizes, (states σ1). split_and!; [done..| |done|done]. eauto.
  - intros Hk Hwd. exfalso. destruct (Hwd1 (conj Hk Hwd)) as [wd Hwd'].
    unfold dump in Hdump. rewrite bind_read, bind_get in Hdump.
    rsimpl_in Hdump. by rewrite Hwd' in Hdump.
Qed.

(** X10: the list and dictionary operations of the growth itself are safe.
    In a growth from a fresh state, with [max_block >= 1], a working
    directory and a [block_update] that deletes no entry of the weights, no
    index or key that the code reads, pops or deletes is missing, and no
    checkpoint fails to be written.  So, as long as the collaborators that
    are called outside the [try] return (the search routines,
    [get_random_block_weights] and [check_convergence], which are taken here
    as functions), the only exception of the growth is the error of a
    training that failed; and with a [block_update] that never fails either,
    the growth returns. *)
Theorem growth_raises_only_the_training_error p d s0 (w : World) :
  fresh s0 → 0 < max_block p → is_Some (workdir w) → keeps p d →
  (∀ e σ', grow p d (mkMachine s0 w) = Raised e σ' →
     e = fatal ∧
     ∃ t ops wt names err, block_update t ops wt p names d = inl err) ∧
  (reliable p d → ∃ stop σ', grow p d (mkMachine s0 w) = Normal stop σ').
Proof.
  intros Hf Hmb Hwd Hk. pose proof (grow_runs p d s0 w Hf Hmb) as Hruns.
  destruct (grow p d (mkMachine s0 w)) as [stop σ'|e σ'].
  - split; [done|eauto].
  - destruct (Hruns Hk Hwd) as (-> & t & ops & wt & names & err & Herr).
    split.
    + intros ? ? [= <- <-]. eauto 10.
    + intros Hrel. destruct (Hrel t ops wt names) as [r Hr]. congruence.
Qed.

(** X11: the topology that a growth from a fresh state returns is the
    initial topology, then at most [max_layer] layers of at least one and at
    most [max_block] blocks [('gop', block_size)] each, then the output
    descriptor if there is a layer; there are exactly [max_layer] layers
    unless a layer convergence ended the growth, and the history has one
    entry for each. *)
Theorem grown_network_shape p d s0 (w : World) stop σ' :
  fresh s0 → 0 < max_block p →
  grow p d (mkMachine s0 w) = Normal stop σ' →
  ∃ sizes,
    topology (states σ') = network p (topology s0) sizes ∧
    Forall (λ j, 0 < j ≤ max_block p) sizes ∧
    length sizes ≤ max_layer p ∧
    (stop = false → length sizes = max_layer p) ∧
    length (history (states σ')) = length sizes.
Proof.
  intros Hf Hmb H0. pose proof (grow_runs p d s0 w Hf Hmb) as Hruns.
  rewrite H0 in Hruns.
  destruct Hruns as (sizes & s' & Hdone & Hsz & _ & _ & _ & ->).
  exists sizes. rsimpl. destruct Hdone as (_ & _ & _ & Hs).
  assert (built p (topology s0) (layer_of p <$> sizes) s' → sizes ≠ [] →
          topology s' = network p (topology s0) sizes ∧
          length (history s') = length sizes) as Hbuilt.
  { intros [Ht Hh _ _ _] Hne. rewrite length_fmap in Hh. split; [|done].
    rewrite Ht. unfold network. rewrite <- list_fmap_compose.
    by destruct sizes. }
  destruct stop.
  - destruct Hs as (Hne & Hlen & Hb & _). rewrite length_fmap in Hlen.
    destruct Hbuilt as [-> ->]; [done|by intros ->|].
    split_and!; [done|done|lia|done|done].
  - destruct Hs as (Hlen & Hb & _). rewrite length_fmap in Hlen.
    destruct (decide (layer_of p <$> sizes = [])) as [Hz|Hz].
    + apply fmap_nil_inv in Hz as ->. destruct Hb as (-> & -> & _).
      unfold network. simpl. rewrite app_nil_r.
      split_and!; [done|done|lia|done|done].
    + destruct Hbuilt as [-> ->]; [done|by intros ->|].
      split_and!; [done|done|lia|done|done].
Qed.

(** X12: with a [block_update] that changes no entry of the weights but
    those of the blocks it is given, and deletes none, the weights that a
    growth from a fresh state returns have an entry for the two keys of
    every block of the topology, the entry ["output"] if there is a layer,
    and no other entry. *)
Theorem grown_weights_keys p d s0 (w : World) stop σ' :
  fresh s0 → 0 < max_block p → is_Some (workdir w) →
  frames p d → keeps p d →
  grow p d (mkMachine s0 w) = Normal stop σ' →
  ∃ sizes,
    topology (states σ') = network p (topology s0) sizes ∧
    (sizes ≠ [] → is_Some (weights (states σ') !! "output")) ∧
    ∀ key, key ≠ "output" →
      (is_Some (weights (states σ') !! key) ↔
       ∃ l j b, (key = gop l b ∨ key = bn l b) ∧
                sizes !! l = Some j ∧ b < j).
Proof.
  intros Hf Hmb Hwd Hfr Hk H0.
  pose proof (grow_runs p d s0 w Hf Hmb) as Hruns. rewrite H0 in Hruns.
  destruct Hruns as (sizes & s' & Hdone & Hsz & Hwk & Hpr & Hout & ->).
  rsimpl.
  assert (∀ key, weight_key (layer_of p <$> sizes) key ↔
            ∃ l j b, (key = gop l b ∨ key = bn l b) ∧
                     sizes !! l = Some j ∧ b < j) as Hkey.
  { intros key. unfold weight_key. split.
    - intros (l & b & bl & Hkb & Hl & Hb). rewrite list_lookup_fmap in Hl.
      destruct (sizes !! l) as [j|] eqn:Hj; [|done]. injection Hl as <-.
      unfold layer_of in Hb. rewrite length_replicate in Hb. eauto 10.
    - intros (l & j & b & Hkb & Hl & Hb). exists l, b, (layer_of p j).
      rewrite list_lookup_fmap, Hl. unfold layer_of.
      rewrite length_replicate. done. }
  exists sizes. split_and!; [|done|].
  - destruct Hdone as (_ & _ & _ & Hs).
    assert (built p (topology s0) (layer_of p <$> sizes) s' → sizes ≠ [] →
            topology s' = network p (topology s0) sizes) as Hbuilt.
    { intros [Ht _ _ _ _] Hne. rewrite Ht. unfold network.
      rewrite <- list_fmap_compose. by destruct sizes. }
    destruct stop.
    + destruct Hs as (Hne & _ & Hb & _). apply Hbuilt; [done|by intros ->].
    + destruct Hs as (_ & Hb & _).
      destruct (decide (layer_of p <$> sizes = [])) as [Hz|Hz].
      * apply fmap_nil_inv in Hz as ->. destruct Hb as (-> & _).
        unfold network. simpl. by rewrite app_nil_r.
      * apply Hbuilt; [done|by intros ->].
  - intros key Hne. rewrite <- Hkey. split.
    + intros Hs. by destruct (Hwk Hfr key Hs).
    + apply Hpr; done.
Qed.

End Progress.

(** ** The further properties on concrete runs *)

Section FurtherRuns.
#[local] Existing Instance Demo.domains.
Import Demo.

Lemma improving_keeps t0 p : keeps (C := collaborators t0 improving) p data.
Proof. intros t ops w names nm h w' [= _ _ <-] key Hk. done. Qed.

Lemma improving_reliable t0 p :
  reliable (C := collaborators t0 improving) p data.
Proof. intros t ops w names. eexists. reflexivity. Qed.

Lemma generators_fail_fast_witness :
  ∃ gs g w',
    (gs ++ [g]) `prefix_of` supplied data_val ∧
    fit (C := strict [] improving) (params 2 1) data_val world0
    = Raised (Failure "test_generator") w' ∧
    trace w' = EvTestGenerator <$> gs ++ [g].
Proof.
  assert (check_parameters (Collaborators := strict [] improving) (params 2 1)
          = inr (params 2 1)) as Hpc by reflexivity.
  assert (¬ Forall
            (λ g, test_generator (Collaborators := strict [] improving) g
                    (input_dim (growth_params data_val (params 2 1)))
                    (output_dim (growth_params data_val (params 2 1))) = true)
            (supplied data_val)) as Hnot.
  { intros H. apply Forall_cons in H as [_ H].
    apply Forall_cons in H as [H _]. vm_compute in H. discriminate. }
  destruct (generators_fail_fast (C := strict [] improving) (params 2 1)
              data_val world0 (params 2 1) Hpc Hnot)
    as (gs & g & w' & Hpre & _ & _ & _ & Hfit & Htr).
  exists gs, g, w'. split; [exact Hpre|]. split; [exact Hfit|exact Htr].
Defined.

Lemma finished_checkpoint_is_kept_witness :
  progressive_learn (C := collaborators [] improving) (params 2 1) data
    (set_workdir (Some (Some (set_is_finished true (blank [])))) world0)
  = Normal []
      (set_model_data
         (Some (assemble (C := collaborators [] improving)
                  (growth_params data (params 2 1))
                  (set_is_finished true (blank []))))
         (generators_tested data
            (set_workdir (Some (Some (set_is_finished true (blank []))))
               world0))).
Proof.
  apply (finished_checkpoint_is_kept (C := collaborators [] improving)
           (params 2 1) data _ (params 2 1) (set_is_finished true (blank [])));
    [reflexivity| |reflexivity|reflexivity].
  apply Forall_cons. split; [reflexivity|apply Forall_nil_2].
Defined.

Lemma progressive_learn_again_witness :
  ∃ w' w'',
    progressive_learn (C := collaborators [] improving) (params 2 1) data
      world0 = Normal [[7]; [7]] w' ∧
    progressive_learn (C := collaborators [] improving) (params 2 1) data w'
    = Normal [[7]; [7]] w'' ∧
    model_data w'' = model_data w' ∧
    trace w'' = trace w' ++ [EvTestGenerator 0].
Proof.
  pose (w' := outcome_state
                (progressive_learn (C := collaborators [] improving)
                   (params 2 1) data world0)).
  assert (progressive_learn (C := collaborators [] improving) (params 2 1)
            data world0 = Normal [[7]; [7]] w') as E
    by (vm_compute; reflexivity).
  destruct (progressive_learn_again (C := collaborators [] improving)
              (params 2 1) data world0 _ w' E)
    as (w'' & Hagain & Hmd & _ & _ & Htr).
  exists w', w''. split; [exact E|]. split; [exact Hagain|].
  split; [exact Hmd|exact Htr].
Defined.

Lemma fit_keeps_workdir_on_failure_witness :
  ∃ w1 md,
    fit (C := strict [] improving) (params 2 1) data world0
    = Raised (Failure "finetune") (emit (EvFinetune md) w1) ∧
    is_Some (workdir (emit (EvFinetune md) w1)).
Proof.
  pose (w1 := outcome_state
                (progressive_learn (C := strict [] improving)
                   (params 2 1) data world0)).
  assert (progressive_learn (C := strict [] improving) (params 2 1)
            data world0 = Normal [[7]; [7]] w1) as E
    by (vm_compute; reflexivity).
  assert (is_Some (model_data w1)) as [md Hmd]
    by (vm_compute; eexists; reflexivity).
  assert (is_Some (workdir w1)) as Hwd by (vm_compute; eexists; reflexivity).
  assert (finetune (Collaborators := strict [] improving) (params 2 1) data md
          = inl (Failure "finetune")) as Hft by reflexivity.
  exists w1, md. split; [|exact Hwd].
  exact (fit_keeps_workdir_on_failure (C := strict [] improving) (params 2 1)
           data world0 _ w1 md _ E Hmd Hft).
Defined.

Lemma last_checkpoint_is_result_witness :
  is_finished (states (start [])) = false ∧
  workdir (world (outcome_state (grown 2 1 [] improving)))
  = Some (Some (states (outcome_state (grown 2 1 [] improving)))).
Proof.
  assert (is_finished (states (start [])) = false) as Hfin by reflexivity.
  pose (σ' := outcome_state (grown 2 1 [] improving)).
  assert (grow (C := collaborators [] improving) (params 2 1) data (start [])
          = Normal false σ') as E by (vm_compute; reflexivity).
  destruct (last_checkpoint_is_result (C := collaborators [] improving)
              (params 2 1) data (start []) false σ' Hfin E) as (_ & Hwd & _).
  split; [exact Hfin|exact Hwd].
Defined.

Lemma checkpoints_consistent_witness :
  fresh (blank []) ∧ 0 < max_block (params 2 3) ∧
  Forall (consistent 0) (checkpoints (grown 2 3 [] failing)).
Proof.
  assert (fresh (blank [])) as Hf by (by repeat split).
  assert (0 < max_block (params 2 3)) as Hmb by (simpl; lia).
  destruct (checkpoints_consistent (C := collaborators [] failing) (params 2 3)
              data (blank []) world0 Hf Hmb) as [(evs & Htr & Hall) _].
  split; [exact Hf|]. split; [exact Hmb|].
  unfold checkpoints, grown, start. rewrite Htr. exact Hall.
Defined.


Lemma growth_raises_only_the_training_error_witness :
  fresh (blank []) ∧ 0 < max_block (params 2 3) ∧
  is_Some (workdir world0) ∧
  ∃ stop σ', grown 2 3 [] improving = Normal stop σ'.
Proof.
  assert (fresh (blank [])) as Hf by (by repeat split).
  assert (0 < max_block (params 2 3)) as Hmb by (simpl; lia).
  assert (is_Some (workdir world0)) as Hwd by (eexists; reflexivity).
  destruct (growth_raises_only_the_training_error
              (C := collaborators [] improving) (params 2 3) data (blank [])
              world0 Hf Hmb Hwd (improving_keeps [] (params 2 3)))
    as [_ Hret].
  split; [exact Hf|]. split; [exact Hmb|]. split; [exact Hwd|].
  exact (Hret (improving_reliable [] (params 2 3))).
Defined.

Lemma grown_network_shape_witness :
  ∃ sizes,
    topology (states (outcome_state (grown 2 3 [] steady)))
    = network (params 2 3) [] sizes ∧
    Forall (λ j, 0 < j ≤ 3) sizes ∧ length sizes ≤ 2.
Proof.
  assert (fresh (blank [])) as Hf by (by repeat split).
  assert (0 < max_block (params 2 3)) as Hmb by (simpl; lia).
  pose (σ' := outcome_state (grown 2 3 [] steady)).
  assert (grow (C := collaborators [] steady) (params 2 3) data
            (mkMachine (blank []) world0) = Normal true σ') as E
    by (vm_compute; reflexivity).
  destruct (grown_network_shape (C := collaborators [] steady) (params 2 3)
              data (blank []) world0 true σ' Hf Hmb E)
    as (sizes & Ht & Hsz & Hlen & _).
  exists sizes. split; [exact Ht|]. split; [exact Hsz|exact Hlen].
Defined.

Lemma grown_weights_keys_witness :
  ∃ sizes,
    topology (states (outcome_state (grown 2 3 [] improving)))
    = network (params 2 3) [] sizes ∧
    ∀ key, key ≠ "output" →
      (is_Some (weights (states (outcome_state (grown 2 3 [] improving)))
                !! key) ↔
       ∃ l j b, (key = gop l b ∨ key = bn l b) ∧ sizes !! l = Some j ∧ b < j).
Proof.
  assert (fresh (blank [])) as Hf by (by repeat split).
  assert (0 < max_block (params 2 3)) as Hmb by (simpl; lia).
  assert (is_Some (workdir world0)) as Hwd by (eexists; reflexivity).
  pose (σ' := outcome_state (grown 2 3 [] improving)).
  assert (grow (C := collaborators [] improving) (params 2 3) data
            (mkMachine (blank []) world0) = Normal false σ') as E
    by (vm_compute; reflexivity).
  destruct (grown_weights_keys (C := collaborators [] improving) (params 2 3)
              data (blank []) world0 false σ' Hf Hmb Hwd
              (improving_frames [] (params 2 3))
              (improving_keeps [] (params 2 3)) E)
    as (sizes & Ht & _ & Hkeys).
  exists sizes. split; [exact Ht|exact Hkeys].
Defined.

Lemma failed_learning_leaves_no_model_witness :
  ∃ w',
    progressive_learn (C := collaborators [] failing) (params 2 3) data world0
    = Raised fatal w' ∧
    model_data w' = None ∧ cuda w' = "host".
Proof.
  pose (w' := outcome_state
                (progressive_learn (C := collaborators [] failing)
                   (params 2 3) data world0)).
  assert (progressive_learn (C := collaborators [] failing) (params 2 3)
            data world0 = Raised fatal w') as E by (vm_compute; reflexivity).
  destruct (failed_learning_leaves_no_model (C := collaborators [] failing)
              (params 2 3) data world0 fatal w' E) as [Hm Hc].
  exists w'. split; [exact E|]. split; [exact Hm|exact Hc].
Defined.

End FurtherRuns.

(** * Declared convergence and failed training *)

Section Declared.
Context {D : Domains} {C : Collaborators}.
Implicit Types (σ : Machine) (p : Params) (d : Data) (s : TrainState).
Implicit Types (layers : list (list (string * Z))) (bl : list (string * Z)).

(** The body of the block loop is the training of the block followed by the
    convergence test and the roll-back or the commit. *)
Lemma block_body_split p d L k σ :
  block_body p d L k σ
  = match block_training p d L k σ with
    | Normal (nm, h) σt =>
        (converged ← block_converged p L k nm;
         if converged : bool then rollback_block L k;; mret true
         else commit_block p L k nm h;; mret false) σt
    | Raised e σ' => Raised e σ'
    end.
Proof.
  unfold block_body, block_training, mbind, M_bind.
  destruct ((if decide (k = 0) then open_layer p L else mret ()) σ)
    as [[] σ1|]; [|done].
  destruct (initial_block p d L k σ1) as [[bw idx] σ2|]; [|done].
  destruct (add_block p L k bw idx σ2) as [[] σ3|]; [|done].
  by destruct (train_block p d L k σ3) as [[nm h] σ4|].
Qed.

(** What the training of a block that is not the first of its layer leaves. *)
Lemma block_training_normal p d L k σ nm h σt :
  k ≠ 0 → block_training p d L k σ = Normal (nm, h) σt →
  measure (states σt) = measure (states σ) ∧
  block_output_weight (states σt) = block_output_weight (states σ) ∧
  workdir (world σt) = workdir (world σ) ∧
  is_Some (op_set_indices (states σt) !! gop L k) ∧
  ∃ pre bl x,
    topology (states σ) = pre ++ [Blocks bl; x] ∧
    topology (states σt) = pre ++ [Blocks (bl ++ [("gop", block_size p)]); x].
Proof.
  intros Hk H0. unfold block_training in H0.
  rewrite decide_False in H0 by done. rewrite bind_ret in H0.
  apply bind_normal in H0 as ([bw idx] & σ2 & Hinit & H0).
  apply initial_block_normal in Hinit as (Hs2 & _ & Hi1).
  destruct (Hi1 Hk) as (Hw2 & _).
  apply bind_normal in H0 as ([] & σ3 & Hadd & H0).
  apply add_block_normal in Hadd as (pre & bl & x & Ht & ->).
  apply train_block_normal in H0 as (w' & _ & ->). rsimpl.
  rewrite Hs2 in *. rewrite Hw2.
  split_and!; [done..| |by exists pre, bl, x].
  rewrite lookup_insert_eq. eauto.
Qed.


(** The layer convergence check returns what [check_convergence] says of
    the last measure of the layer against the last measure of the layer
    before. *)
Lemma layer_check_result p L σ ml new ml' old b σ' :
  0 < L →
  measure (states σ) !! L = Some ml → last ml = Some new →
  measure (states σ) !! (L - 1) = Some ml' → last ml' = Some old →
  layer_check p L σ = Normal b σ' →
  b = check_convergence new old (direction p) (layer_threshold p).
Proof.
  intros HL Hml Hnew Hml' Hold H0. unfold layer_check in H0.
  rewrite decide_True in H0 by done. mrun H0.
  rewrite (py_index_Some _ _ _ Hml) in H0. mrun H0.
  rewrite (py_last_Some _ _ Hnew) in H0. mrun H0.
  rewrite (py_index_Some _ _ _ Hml') in H0. mrun H0.
  rewrite (py_last_Some _ _ Hold) in H0. mrun H0.
  destruct (check_convergence new old (direction p) (layer_threshold p));
    [|by injection H0 as <- _].
  mrun H0. mcase H0 r Hr. destruct r as [e t']. mrun H0. mcase H0 n Hn.
  apply bind_normal in H0 as ([] & σ1 & Hdel & H0).
  apply delete_blocks_normal in Hdel as ->. mrun H0.
  destruct (layer_output_weight (states σ)) as [out|] eqn:Hout;
    cbn [from_option] in H0; mrun H0; [|done].
  mcase H0 r Hh. destruct r as [hl h]. mrun H0. by injection H0 as <- _.
Qed.

Lemma lookup_m2 {A} (pre : list A) e x :
  (pre ++ [e; x]) !! (length (pre ++ [e; x]) - 2) = Some e.
Proof.
  rewrite length_app. simpl.
  replace (length pre + 2 - 2) with (length pre + 0) by lia.
  by rewrite lookup_app_r, Nat.add_0_r, Nat.sub_diag by lia.
Qed.


(** A body of the block loop that raises has written no checkpoint: the
    working directory, the CUDA setting and [self.model_data] are as at the
    head of the block. *)
Lemma block_body_raised_quiet p d L k σ e σ' :
  block_body p d L k σ = Raised e σ' →
  cuda (world σ') = cuda (world σ) ∧
  model_data (world σ') = model_data (world σ) ∧
  workdir (world σ') = workdir (world σ) ∧
  ∃ evs, trace (world σ') = trace (world σ) ++ evs ∧ dumps evs = [].
Proof.
  intros H0.
  set (Q := λ w' : World,
         cuda w' = cuda (world σ) ∧ model_data w' = model_data (world σ) ∧
         workdir w' = workdir (world σ) ∧
         ∃ evs, trace w' = trace (world σ) ++ evs ∧ dumps evs = []).
  change (Q (world σ')).
  assert (Q (world σ)) as Q0.
  { split_and!; [done..|]. exists []. by rewrite app_nil_r. }
  assert (∀ w' ev, Q w' → dumps [ev] = [] → Q (emit ev w')) as Qemit.
  { intros w' ev (? & ? & ? & evs & Ht & Hd) Hev. split_and!; [done..|].
    exists (evs ++ [ev]). simpl. rewrite Ht, dumps_app, Hd, Hev.
    by rewrite app_assoc. }
  unfold block_body in H0.
  apply bind_raised in H0 as [H0|([] & σ1 & Hopen & H0)].
  { destruct (decide (k = 0)); [|done].
    apply open_layer_raised in H0. by rewrite H0. }
  assert (world σ1 = world σ) as Hw1.
  { destruct (decide (k = 0)).
    - by apply open_layer_normal in Hopen as (? & _ & ->).
    - by injection Hopen as <-. }
  apply bind_raised in H0 as [H0|([bw idx] & σ2 & Hinit & H0)].
  { apply initial_block_raised in H0. by rewrite H0, Hw1. }
  assert (Q (world σ2)) as Q2.
  { apply initial_block_normal in Hinit as (_ & Hi0 & Hi1).
    destruct (decide (k = 0)) as [Hk|Hk].
    - destruct (Hi0 Hk) as [r ->]. rewrite Hw1. by apply Qemit.
    - destruct (Hi1 Hk) as [-> _]. by rewrite Hw1. }
  apply bind_raised in H0 as [H0|([] & σ3 & Hadd & H0)].
  { apply add_block_raised in H0. by rewrite H0. }
  apply add_block_normal in Hadd as (pre & bl & x & _ & Hσ3).
  assert (world σ3 = world σ2) as Hw3 by by subst σ3.
  apply bind_raised in H0 as [H0|([nm h] & σ4 & Htrain & H0)].
  { apply train_block_raised in H0 as (_ & _ & _ & ->).
    rewrite Hw3. by apply Qemit. }
  apply train_block_normal in Htrain as (w' & _ & Hσ4).
  assert (Q (world σ4)) as Q4.
  { rewrite Hσ4. cbn [world]. rewrite Hw3. by apply Qemit. }
  apply bind_raised in H0 as [H0|(c & σ5 & Hconv & H0)].
  { apply block_converged_raised in H0. by rewrite H0. }
  apply block_converged_normal in Hconv as (-> & _).
  destruct c.
  - apply bind_raised in H0 as [H0|([] & σ6 & _ & H0)]; [|done].
    apply rollback_block_raised in H0. by rewrite H0.
  - apply bind_raised in H0 as [H0|([] & σ6 & _ & H0)]; [|done].
    apply commit_block_raised in H0. by rewrite H0.
Qed.

(** A checkpoint in the working directory was there before the events or was
    written by one of them. *)
Lemma disk_after_Some wd (evs : list Event) sd :
  disk_after wd evs = Some (Some sd) →
  wd = Some (Some sd) ∨ sd ∈ dumps evs.
Proof.
  induction evs as [|ev evs IH] using rev_ind; [by left|].
  unfold disk_after. rewrite foldl_app. cbn [foldl].
  fold (disk_after wd evs). rewrite dumps_app.
  destruct ev; try (intros [H|H]%IH; [by left|right; set_solver]).
  - intros [= ->]. right. set_solver.
  - done.
Qed.

(** The training of a block when [block_update] raises: the CUDA setting is
    restored and the one error [fatal] is raised, with [train_states] as it
    was given to [block_update]. *)
Lemma train_block_fails p d L k σ err :
  block_update (topology (states σ)) (op_set_indices (states σ))
    (weights (states σ)) p (block_names L k) d = inl err →
  train_block p d L k σ
  = Raised fatal
      (mkMachine (states σ)
         (emit (EvBlockUpdate (topology (states σ)) (op_set_indices (states σ))
                  (weights (states σ)) (block_names L k))
            (world σ))).
Proof.
  intros Herr. unfold train_block, set_cuda_variable, call_block_update.
  mgo. unfold id. mgo. rewrite Herr. unfold reset_cuda_variable. mgo.
  by destruct σ as [s [c wd md tr]].
Qed.

(** C5: a body of the block loop that raises, as it does when the training
    of its block fails, has written no checkpoint and leaves the working
    directory, the CUDA setting and [self.model_data] as they were at the
    head of the block: the block that was being added is in no state that
    outlives the exception.  When a call of [block_update] made by the growth
    raises, the growth ends there with the one error [fatal]: the failed call
    is the last event of the run (nothing is retried, nothing is written
    after it), every training before it succeeded, the CUDA setting and
    [self.model_data] are those from before the run, and the working
    directory holds what the events before the failed call left there;
    [train_states] itself is lost with the exception.  In a growth from a
    fresh state every checkpoint written before the failure holds a
    consistent network, so that the working directory holds what it held
    before the run or a consistent checkpoint.  And whatever error
    [block_update] raises, the training of the block restores the CUDA
    setting and raises the one error [fatal], once. *)
Theorem failed_training_aborts p d :
  (∀ L k σ err,
     block_update (topology (states σ)) (op_set_indices (states σ))
       (weights (states σ)) p (block_names L k) d = inl err →
     train_block p d L k σ
     = Raised fatal
         (mkMachine (states σ)
            (emit (EvBlockUpdate (topology (states σ))
                     (op_set_indices (states σ)) (weights (states σ))
                     (block_names L k))
               (world σ)))) ∧
  (∀ L k σ e σ', block_body p d L k σ = Raised e σ' →
     cuda (world σ') = cuda (world σ) ∧
     model_data (world σ') = model_data (world σ) ∧
     workdir (world σ') = workdir (world σ) ∧
     ∃ evs, trace (world σ') = trace (world σ) ++ evs ∧ dumps evs = []) ∧
  (∀ s w t ops wts names err evs,
     trace (outcome_state (with_states s (grow p d) w)) = trace w ++ evs →
     EvBlockUpdate t ops wts names ∈ evs →
     block_update t ops wts p names d = inl err →
     ∃ pre,
       evs = pre ++ [EvBlockUpdate t ops wts names] ∧
       Forall (trained p d) pre ∧
       with_states s (grow p d) w
       = Raised fatal
           {| cuda := cuda w; workdir := disk_after (workdir w) pre;
              model_data := model_data w; trace := trace w ++ evs |} ∧
       (fresh s → 0 < max_block p →
        Forall (consistent (length (topology s))) (dumps pre) ∧
        ∀ sd, disk_after (workdir w) pre = Some (Some sd) →
          workdir w = Some (Some sd) ∨ consistent (length (topology s)) sd)).
Proof.
  split; [apply train_block_fails|].
  split; [apply block_body_raised_quiet|].
  intros s w t ops wts names err evs Htr Hin Herr.
  destruct (failed_training_run p d s w t ops wts names err evs Htr Hin Herr)
    as (pre & -> & Hpre & Hrun).
  exists pre. split_and!; [done..|]. intros Hf Hmb.
  assert (Forall (consistent (length (topology s))) (dumps pre)) as Hall.
  { pose proof (grow_inv p d s w Hf Hmb) as Hinv. cbv zeta in Hinv.
    unfold with_states in Hrun.
    destruct (grow p d (mkMachine s w)) as [a σ|e σ]; [done|].
    injection Hrun as _ Hw. destruct Hinv as (evs' & Ht' & [Hok _]).
    rewrite Hw in Ht'. cbn [trace] in Ht'. apply app_inv_head in Ht' as <-.
    rewrite dumps_app in Hok. cbn in Hok. rewrite app_nil_r in Hok.
    eapply Forall_impl; [exact Hok|]. apply checkpoint_consistent. }
  split; [done|]. intros sd [H|H]%disk_after_Some; [by left|right].
  rewrite Forall_forall in Hall. by apply Hall.
Qed.

End Declared.

(** ** Declared convergence and failed training on concrete runs *)

Section DeclaredRuns.
#[local] Existing Instance Demo.domains.
Import Demo.



Lemma failed_training_aborts_witness :
  (∃ evs pre ev,
     evs = pre ++ [ev] ∧
     failed (C := collaborators inputs failing) (params 2 3) data ev ∧
     Forall (trained (C := collaborators inputs failing) (params 2 3) data) pre ∧
     with_states (blank inputs)
       (grow (C := collaborators inputs failing) (params 2 3) data) world0
     = Raised fatal
         {| cuda := cuda world0; workdir := disk_after (workdir world0) pre;
            model_data := model_data world0; trace := trace world0 ++ evs |} ∧
     fresh (blank inputs) ∧ 0 < max_block (params 2 3) ∧
     Forall (consistent 1) (dumps pre)) ∧
  ∃ σ1 σ',
    block_body (C := collaborators inputs failing) (params 2 3) data 0 1 σ1
    = Raised fatal σ' ∧
    workdir (world σ') = workdir (world σ1) ∧
    is_Some (op_set_indices (states σ') !! gop 0 1) ∧
    cuda (world σ') = cuda (world σ1) ∧
    ∃ sd, workdir (world σ') = Some (Some sd) ∧
          op_set_indices sd !! gop 0 1 = None.
Proof.
  destruct (failed_training_aborts (C := collaborators inputs failing)
              (params 2 3) data) as (_ & Hbody & Hrun).
  split.
  - let tr := eval vm_compute in
      (trace (outcome_state
                (with_states (blank inputs)
                   (grow (C := collaborators inputs failing) (params 2 3) data)
                   world0))) in
    lazymatch tr with
    | [?a; ?b; ?c; EvBlockUpdate ?t ?ops ?w ?names] =>
        assert (trace (outcome_state
                  (with_states (blank inputs)
                     (grow (C := collaborators inputs failing) (params 2 3)
                        data)
                     world0))
                = trace world0 ++ [a; b; c; EvBlockUpdate t ops w names])
          as Htr by (vm_compute; reflexivity);
        assert (EvBlockUpdate t ops w names
                ∈ [a; b; c; EvBlockUpdate t ops w names])
          as Hin by (apply (list_elem_of_lookup_2 _ 3); reflexivity);
        assert (block_update (Collaborators := collaborators inputs failing)
                  t ops w (params 2 3) names data
                = inl (Failure "out of memory")) as Herr
          by (vm_compute; reflexivity);
        destruct (Hrun (blank inputs) world0 t ops w names
                    (Failure "out of memory") _ Htr Hin Herr)
          as (pre & Hevs & Hpre & Hraised & Hfresh);
        assert (fresh (blank inputs)) as Hf by (by repeat split);
        assert (0 < max_block (params 2 3)) as Hmb by (simpl; lia);
        destruct (Hfresh Hf Hmb) as [Hall _];
        exists [a; b; c; EvBlockUpdate t ops w names], pre,
               (EvBlockUpdate t ops w names);
        split; [exact Hevs|]; split; [exact (ex_intro _ _ Herr)|];
        split; [exact Hpre|]; split; [exact Hraised|];
        split; [exact Hf|]; split; [exact Hmb|exact Hall]
    end.
  - pose (σ1 := outcome_state
                  (block_body (C := collaborators inputs failing) (params 2 3)
                     data 0 0 (start inputs))).
    pose (σ' := outcome_state
                  (block_body (C := collaborators inputs failing) (params 2 3)
                     data 0 1 σ1)).
    assert (block_body (C := collaborators inputs failing) (params 2 3) data
              0 1 σ1 = Raised fatal σ') as E by (vm_compute; reflexivity).
    destruct (Hbody 0 1 σ1 fatal σ' E) as (Hc & _ & Hwd & _).
    exists σ1, σ'. split; [exact E|]. split; [exact Hwd|].
    split; [exists 3; vm_compute; reflexivity|]. split; [exact Hc|].
    exists (states σ1). split; vm_compute; reflexivity.
Defined.

End DeclaredRuns.
